(** * imgdiff: a shallow embedding of [imgdiff.py] and its verified properties

    The development follows the script top-down: Python's values
    (exceptions, insertion-ordered dictionaries), the services the script asks
    of the operating system, then [sha256sum], [get_contents] and the
    comparison loops of [main]; the theorems come last. *)

From Stdlib Require Import List String Ascii Bool Arith NArith ZArith QArith.
From Stdlib.Strings Require Import Byte.
From Stdlib Require Import Lia Permutation Sorted.
From Equations Require Import Equations.
From Equations.Prop Require Import Logic.
Import ListNotations.

Local Open Scope string_scope.
Local Open Scope list_scope.
Local Open Scope nat_scope.

Set Warnings "-abstract-large-number,-register-all".

(* ===================================================================== *)
(** * Python values *)
(* ===================================================================== *)

Module Py.

(** The two exceptions that decide what the script does.  A computation
    carries the exception it may raise in its type. *)
Inductive permission_error : Type := PermissionError.
Inductive zero_division_error : Type := ZeroDivisionError.

Inductive result (E A : Type) : Type :=
| Ok (a : A)
| Raise (e : E).
Arguments Ok {E A} a.
Arguments Raise {E A} e.

(** A [dict] keeps its keys in insertion order; a key occurs once. *)
Definition dict (V : Type) : Type := list (string * V).

Definition keys {V} (d : dict V) : list string := map fst d.

(** [d.get(k)] *)
Fixpoint get {V} (k : string) (d : dict V) : option V :=
  match d with
  | [] => None
  | (k', v) :: d' => if String.eqb k' k then Some v else get k d'
  end.

(** [k in d] *)
Definition mem {V} (k : string) (d : dict V) : bool :=
  match get k d with Some _ => true | None => false end.

(** [d[k] = v]: an existing key keeps its place, a new one goes last. *)
Fixpoint set {V} (k : string) (v : V) (d : dict V) : dict V :=
  match d with
  | [] => [(k, v)]
  | (k', v') :: d' => if String.eqb k' k then (k, v) :: d' else (k', v') :: set k v d'
  end.

(** [d.pop(k, None)] *)
Fixpoint pop {V} (k : string) (d : dict V) : dict V :=
  match d with
  | [] => []
  | (k', v') :: d' => if String.eqb k' k then d' else (k', v') :: pop k d'
  end.

(** [d[k]], for a key that is there ([default] stands for [KeyError]). *)
Definition getitem {V} (k : string) (d : dict V) (default : V) : V :=
  match get k d with Some v => v | None => default end.

(** The invariant of every Python dictionary: no key twice. *)
Definition wf {V} (d : dict V) : Prop := NoDup (keys d).

(** [a / b] on two [int]s: [ZeroDivisionError] on a zero divisor.  The
    quotient is kept as the exact fraction, where Python rounds it to the
    nearest [float]; the statements below rely on the error only, never
    on the digits of a quotient. *)
Definition truediv (a b : nat) : result zero_division_error Q :=
  match b with
  | O => Raise ZeroDivisionError
  | S _ => Ok (Qmake (Z.of_nat a) (Pos.of_nat b))
  end.

(** [l.sort()] on a list of [str]: the order of [str] is the
    lexicographic order of the code points. *)
Fixpoint insert_sorted (x : string) (l : list string) : list string :=
  match l with
  | [] => [x]
  | y :: l' => if (x <=? y)%string then x :: l else y :: insert_sorted x l'
  end.

Definition sort (l : list string) : list string :=
  fold_right insert_sorted [] l.

(** [s.rstrip('/')] *)
Fixpoint rstrip_slash (s : string) : string :=
  match s with
  | EmptyString => EmptyString
  | String c s' =>
      match rstrip_slash s' with
      | EmptyString => if Ascii.eqb c "/" then EmptyString else String c EmptyString
      | r => String c r
      end
  end.

End Py.
Import Py.

(* ===================================================================== *)
(** * [get_contents]: scanning a tree *)
(* ===================================================================== *)

(** What is on disk under a root, as [os.scandir] shows it: every entry
    of a directory has a name and is a directory, a symbolic link, or
    something else (a regular file, a device, ...).  A link carries its
    target string and what the target resolves to, if anything. *)
Inductive node : Type :=
| File
| Symlink (target : string) (dest : option node)
| Dir (entries : list (string * node)).

(** [entry.is_dir()], which follows symbolic links. *)
Fixpoint is_dir (n : node) : bool :=
  match n with
  | File => false
  | Symlink _ None => false
  | Symlink _ (Some n') => is_dir n'
  | Dir _ => true
  end.

(** [os.path.join(a, b)] *)
Definition path_join (a b : string) : string :=
  if String.prefix "/" b then b
  else if String.eqb a "" then b
  else if String.eqb (String.substring (String.length a - 1) 1 a) "/" then a ++ b
  else a ++ "/" ++ b.

(** [os.path.relpath(path, start)] on the paths [os.walk(start)] yields:
    [start] itself, or [start] followed by ["/"] and names. *)
Definition relpath (path start : string) : string :=
  if String.eqb path start then "."
  else String.substring (S (String.length start))
                        (String.length path - S (String.length start)) path.

Definition walk_item : Type := string * list string * list string.

(** [os.walk(top)], top-down and without following links.  [edit] is what
    the consumer does to the yielded [dirs] list before the generator
    resumes; the generator then descends into the edited list, skipping
    the names that are symbolic links. *)
Fixpoint walk (edit : list string -> list string) (top : string) (n : node)
  {struct n} : list walk_item :=
  match n with
  | Dir entries =>
      let dirs := map fst (filter (fun e => is_dir (snd e)) entries) in
      let nondirs := map fst (filter (fun e => negb (is_dir (snd e))) entries) in
      let below :=
        (fix below (es : list (string * node)) : dict (list walk_item) :=
           match es with
           | [] => []
           | (name, child) :: es' =>
               (name, walk edit (path_join top name) child) :: below es'
           end) entries in
      (top, dirs, nondirs)
        :: flat_map (fun d => Py.getitem d below []) (edit dirs)
  | _ => []
  end.

(** [os.walk] yields nothing when [scandir(top)] fails, as it does on the
    empty path. *)
Definition os_walk (edit : list string -> list string) (top : string) (n : node)
  : list walk_item :=
  if String.eqb top "" then [] else walk edit top n.

(** [get_contents(top_dir, sorted)], [tree] being what is on disk at
    [top_dir]. *)
Definition get_contents (top_dir : string) (sorted : bool) (tree : node)
  : dict (dict string) :=
  let top_dir := rstrip_slash top_dir in
  fold_left
    (fun file_dict (item : walk_item) =>
       let '(root, _, files) := item in
       let files := if sorted then Py.sort files else files in
       fold_left
         (fun file_dict file =>
            let path := relpath root top_dir in
            let file_dict :=
              if Py.mem path file_dict then file_dict
              else Py.set path ([] : dict string) file_dict in
            Py.set path
              (Py.set file (path_join root file) (Py.getitem path file_dict []))
              file_dict)
         files file_dict)
    (os_walk (if sorted then Py.sort else fun dirs => dirs) top_dir tree)
    [].

(* ===================================================================== *)
(** * The operating system, as far as the script uses it *)
(* ===================================================================== *)

(** The script reaches the file system through [os.path.islink],
    [os.readlink], [open]/[read], [os.stat], [os.chmod] and the [diffoscope]
    subprocess, and hashes with [hashlib.sha256].  Their behaviour is left
    open within the answers listed here: every theorem below holds
    whatever the system answers among them.

    [None] stands for the failure the script handles: [PermissionError] for
    the file operations, [subprocess.SubprocessError] for diffoscope.  Other
    runtime failures (a file vanishing during the run, an [OSError] of
    [open] that is not [PermissionError], a read that never ends) are not
    modelled, and the bytes of a file are those of its path in the
    [world], the same at each reading: what is said of a whole run is said
    of a run without such a failure. *)
Class Os : Type := {
  world : Type;
  (** [Some target] iff the path is a symbolic link ([lstat]) *)
  os_link : world -> string -> option string;
  (** [open(path, 'rb')] and the bytes the reads deliver *)
  os_open_read : world -> string -> option (list byte);
  (** [os.stat(path).st_mode] *)
  os_stat_mode : world -> string -> option N;
  (** [os.chmod(path, mode)] *)
  os_chmod : world -> string -> N -> option world;
  (** [diffoscope a b], its captured output *)
  os_diffoscope : world -> string -> string -> option string;
  (** [hashlib.sha256(data).hexdigest()] *)
  sha256_hex : list byte -> string
}.

(** Every request made to the system, in order. *)
Inductive syscall : Type :=
| SysIslink (path : string)
| SysReadlink (path : string)
| SysOpen (path : string)
| SysStat (path : string)
| SysChmod (path : string) (mode : N)
| SysDiffoscope (path1 path2 : string).

(** [stat.S_IRUSR] *)
Definition S_IRUSR : N := 256.

Section Script.

Context {OS : Os}.

Record os_state : Type := mkOs {
  os_world : world;
  os_trace : list syscall
}.

Definition logged (c : syscall) (s : os_state) : os_state :=
  mkOs (os_world s) (os_trace s ++ [c]).

Definition sys_islink (p : string) (s : os_state) : bool * os_state :=
  (match os_link (os_world s) p with Some _ => true | None => false end,
   logged (SysIslink p) s).

(** [os.readlink] is only called on paths [islink] accepted. *)
Definition sys_readlink (p : string) (s : os_state) : string * os_state :=
  (match os_link (os_world s) p with Some t => t | None => "" end,
   logged (SysReadlink p) s).

Definition sys_open (p : string) (s : os_state) : option (list byte) * os_state :=
  (os_open_read (os_world s) p, logged (SysOpen p) s).

Definition sys_stat (p : string) (s : os_state) : option N * os_state :=
  (os_stat_mode (os_world s) p, logged (SysStat p) s).

Definition sys_chmod (p : string) (m : N) (s : os_state) : option unit * os_state :=
  match os_chmod (os_world s) p m with
  | Some w => (Some tt, mkOs w (os_trace s ++ [SysChmod p m]))
  | None => (None, logged (SysChmod p m) s)
  end.

Definition sys_diffoscope (p1 p2 : string) (s : os_state) : option string * os_state :=
  (os_diffoscope (os_world s) p1 p2, logged (SysDiffoscope p1 p2) s).

(* ------------------------------------------------------------------- *)
(** ** [sha256sum] *)
(* ------------------------------------------------------------------- *)

(** The [while True] loop of [sha256sum]: [rest] is what the file still
    holds, [fed] what [sha256.update] has received so far. *)
Equations? read_loop (block_size : nat) (rest fed : list byte) : list byte
  by wf (List.length rest) lt :=
read_loop block_size rest fed with inspect (firstn block_size rest) := {
  | exist _ [] _ => fed                                      (* not data: break *)
  | exist _ (b :: data) Hread =>
      read_loop block_size (skipn block_size rest) (fed ++ b :: data) }.
Proof.
  destruct block_size as [|n]; [discriminate|].
  destruct rest as [|r rest]; [discriminate|].
  simpl. pose proof (List.length_skipn n rest). lia.
Qed.

(** [sha256sum(filename, block_size=65536, retry=True)] *)
Equations sha256sum (filename : string) (block_size : nat) (retry : bool)
           (s : os_state) : result permission_error string * os_state
  by wf (Nat.b2n retry) lt :=
sha256sum filename block_size retry s with sys_open filename s := {
  | (Some content, s1) => (Ok (sha256_hex (read_loop block_size content [])), s1)
  | (None, s1) with retry := {                         (* except PermissionError *)
      | true with sys_stat filename s1 := {
          | (None, s2) => (Raise PermissionError, s2)
          | (Some st_mode, s2) with sys_chmod filename (N.lor st_mode S_IRUSR) s2 := {
              | (None, s3) => (Raise PermissionError, s3)
              | (Some _, s3) => sha256sum filename 65536 false s3 } }
      | false => (Raise PermissionError, s1) } }.

(* ------------------------------------------------------------------- *)
(** ** [main]: the comparison *)
(* ------------------------------------------------------------------- *)

(** [args], as [argparse] delivers it. *)
Record Args : Type := mkArgs {
  args_images : string * string;
  args_diffoscope : bool;
  args_output_file : option string;
  args_stats : bool;
  args_sort : bool
}.

Inductive stream : Type := Stdout | Stderr | OutputFile.

(** Lines 70 and 71: [open(args.output_file, 'w') if args.output_file else
    sys.stdout], and the same with [sys.stderr].  The test is for truth,
    so the empty string chooses the standard stream, as [None] does. *)
Definition output_handle (args : Args) : stream :=
  match args_output_file args with
  | Some (String _ _) => OutputFile
  | _ => Stdout
  end.

Definition error_handle (args : Args) : stream :=
  match args_output_file args with
  | Some (String _ _) => OutputFile
  | _ => Stderr
  end.

(** One constructor per [write] call of [main], with the values the call
    formats.  [dir] and [file] are the two arguments of the
    [os.path.join(dir, file)] the message prints. *)
Inductive line : Type :=
| PermissionErrorLine (dir file : string)
    (* 'Permission Error: cannot compare %s' *)
| FileMissmatch (dir file image_a image_b : string)
    (* "File Missmatch: '%s' from %s and %s\n" *)
| DiffoscopeHeader
    (* "diffoscope output:\n" *)
| DiffoscopeOutput (text : string)
| DiffoscopeFailed
    (* 'Call to diffoscope failed.\n' *)
| MissingFile (dir file image_a image_b : string)
    (* "Missing File: '%s' from %s not found in %s\n" *)
| MissingDirectory (count : nat) (dir image_a image_b : string)
    (* "Missing Directory (with %i files): '%s' from %s not found in %s\n" *)
| StatsHeader
| StatsTotal (file_total : nat)
| StatsMatches (count : nat) (share : Q)
| StatsMisses (count : nat) (share : Q)
| StatsMissing (count : nat) (share : Q)
| StatsFilesMissing (image_a image_b : string) (count : nat)
| StatsDirsMissing (image_a image_b : string) (count : nat).

(** The [stats] dictionary; its keys are fixed. *)
Record Stats : Type := mkStats {
  stat_match : nat;
  stat_missmatch : nat;
  stat_missing1 : nat;
  stat_missing2 : nat;
  stat_dir_missing1 : nat;
  stat_dir_missing2 : nat
}.

Definition stats_zero : Stats := mkStats 0 0 0 0 0 0.

(** Component-wise sum; every update of [stats] is a [+=]. *)
Definition stats_add (a b : Stats) : Stats :=
  mkStats (stat_match a + stat_match b)
          (stat_missmatch a + stat_missmatch b)
          (stat_missing1 a + stat_missing1 b)
          (stat_missing2 a + stat_missing2 b)
          (stat_dir_missing1 a + stat_dir_missing1 b)
          (stat_dir_missing2 a + stat_dir_missing2 b).

(** The variables the loops of [main] update. *)
Record state : Type := mkState {
  st_os : os_state;
  st_written : list (stream * line);
  st_stats : Stats;
  st_ret : nat;
  st_files2 : dict (dict string)          (* image2.files *)
}.

Definition with_os (o : os_state) (st : state) : state :=
  mkState o (st_written st) (st_stats st) (st_ret st) (st_files2 st).

(** [handle.write(...)] *)
Definition write (h : stream) (l : line) (st : state) : state :=
  mkState (st_os st) (st_written st ++ [(h, l)]) (st_stats st) (st_ret st)
          (st_files2 st).

(** [if args.stats: stats[...] += ...] *)
Definition count (args : Args) (delta : Stats) (st : state) : state :=
  if args_stats args
  then mkState (st_os st) (st_written st) (stats_add (st_stats st) delta)
               (st_ret st) (st_files2 st)
  else st.

(** [ret = 1] *)
Definition set_ret (st : state) : state :=
  mkState (st_os st) (st_written st) (st_stats st) 1 (st_files2 st).

Definition with_files2 (f : dict (dict string)) (st : state) : state :=
  mkState (st_os st) (st_written st) (st_stats st) (st_ret st) f.

(** The [try] block of [main] (lines 130-138): the value [match] has when
    the block ends, or the [PermissionError] that left it. *)
Definition compare_files (path1 path2 : string) (s : os_state)
  : result permission_error bool * os_state :=
  let (link1, s) := sys_islink path1 s in
  let (either, s) := if link1 then (true, s) else sys_islink path2 s in
  if either then
    let (link1, s) := sys_islink path1 s in
    let (both, s) := if link1 then sys_islink path2 s else (false, s) in
    if negb both then (Ok false, s)
    else
      let (target1, s) := sys_readlink path1 s in
      let (target2, s) := sys_readlink path2 s in
      if negb (String.eqb target1 target2) then (Ok false, s) else (Ok true, s)
  else
    match sha256sum path1 65536 true s with
    | (Raise e, s) => (Raise e, s)
    | (Ok sum1, s) =>
        match sha256sum path2 65536 true s with
        | (Raise e, s) => (Raise e, s)
        | (Ok sum2, s) =>
            if negb (String.eqb sum1 sum2) then (Ok false, s) else (Ok true, s)
        end
    end.

(** Lines 151-157: the optional diffoscope run on a mismatch. *)
Definition run_diffoscope (args : Args) (path1 path2 : string) (st : state) : state :=
  if args_diffoscope args then
    let st := write (output_handle args) DiffoscopeHeader st in
    match sys_diffoscope path1 path2 (st_os st) with
    | (Some text, o) => write (output_handle args) (DiffoscopeOutput text) (with_os o st)
    | (None, o) => write (error_handle args) DiffoscopeFailed (with_os o st)
    end
  else st.

(** Body of [for file in image1.files[dir]] (lines 127-164). *)
Definition file_step (args : Args) (files1 : dict (dict string))
           (dir file : string) (st : state) : state :=
  let (image1, image2) := args_images args in
  let path1 := Py.getitem file (Py.getitem dir files1 []) "" in
  match Py.get file (Py.getitem dir (st_files2 st) []) with
  | Some path2 =>
      let (outcome, o) := compare_files path1 path2 (st_os st) in
      let st := with_os o st in
      let (match_, st) :=
        match outcome with
        | Ok m => (m, st)
        | Raise PermissionError =>
            (true, write (error_handle args) (PermissionErrorLine dir file) st)
        end in
      let st :=
        if match_ then count args (mkStats 1 0 0 0 0 0) st
        else
          let st := write (output_handle args)
                          (FileMissmatch dir file image1 image2) st in
          let st := count args (mkStats 0 1 0 0 0 0) st in
          let st := set_ret st in
          run_diffoscope args path1 path2 st in
      (* image2.files[dir].pop(file, None) *)
      with_files2
        (Py.set dir (Py.pop file (Py.getitem dir (st_files2 st) [])) (st_files2 st))
        st
  | None =>
      let st := write (output_handle args) (MissingFile dir file image1 image2) st in
      let st := count args (mkStats 0 0 1 0 0 0) st in
      set_ret st
  end.

(** Body of [for file in image2.files[dir]] (lines 166-170). *)
Definition leftover_file_step (args : Args) (dir file : string) (st : state) : state :=
  let (image1, image2) := args_images args in
  let st := write (output_handle args) (MissingFile dir file image2 image1) st in
  let st := count args (mkStats 0 0 0 1 0 0) st in
  set_ret st.

(** A [for] loop over the keys a dictionary has when the loop starts. *)
Definition for_each {A} (xs : list A) (body : A -> state -> state) (st : state)
  : state :=
  fold_left (fun st x => body x st) xs st.

(** Body of [for dir in image1.files] (lines 124-177). *)
Definition dir_step (args : Args) (files1 : dict (dict string)) (dir : string)
           (st : state) : state :=
  let (image1, image2) := args_images args in
  if Py.mem dir (st_files2 st) then
    let st := for_each (keys (Py.getitem dir files1 []))
                       (file_step args files1 dir) st in
    let st := for_each (keys (Py.getitem dir (st_files2 st) []))
                       (leftover_file_step args dir) st in
    with_files2 (Py.pop dir (st_files2 st)) st
  else
    let st := write (output_handle args)
                    (MissingDirectory (List.length (Py.getitem dir files1 []))
                                      dir image1 image2) st in
    let st := count args
                    (mkStats 0 0 (List.length (Py.getitem dir files1 [])) 0 1 0) st in
    set_ret st.

(** Body of [for dir in image2.files] (lines 180-184). *)
Definition leftover_dir_step (args : Args) (dir : string) (st : state) : state :=
  let (image1, image2) := args_images args in
  let st := write (output_handle args)
                  (MissingDirectory (List.length (Py.getitem dir (st_files2 st) []))
                                    dir image2 image1) st in
  let st := count args
                  (mkStats 0 0 0 (List.length (Py.getitem dir (st_files2 st) [])) 0 1)
                  st in
  set_ret st.

(** Lines 116-122: the variables as the loops find them. *)
Definition initial (w : world) (files2 : dict (dict string)) : state :=
  mkState (mkOs w []) [] stats_zero 0 files2.

(** Lines 123-177: the loop over [image1.files]. *)
Definition reconcile_left (args : Args) (files1 : dict (dict string)) (st : state)
  : state :=
  for_each (keys files1) (dir_step args files1) st.

(** Lines 179-184: the loop over what is left of [image2.files]. *)
Definition reconcile_right (args : Args) (st : state) : state :=
  for_each (keys (st_files2 st)) (leftover_dir_step args) st.

(** Lines 116-184. *)
Definition reconcile (args : Args) (files1 files2 : dict (dict string)) (w : world)
  : state :=
  reconcile_right args (reconcile_left args files1 (initial w files2)).

(** Lines 187-198.  The three shares are computed with [/], which raises
    [ZeroDivisionError] on a zero divisor; the [Q] stands for the float
    that ['{:.2%}'.format] prints. *)
Definition write_stats (args : Args) (st : state)
  : result zero_division_error unit * state :=
  if args_stats args then
    let (image1, image2) := args_images args in
    let out := output_handle args in
    let stats := st_stats st in
    let file_total := stat_match stats + stat_missmatch stats
                      + stat_missing1 stats + stat_missing2 stats in
    let missing_total := stat_missing1 stats + stat_missing2 stats in
    let st := write out StatsHeader st in
    let st := write out (StatsTotal file_total) st in
    match truediv (stat_match stats) file_total with
    | Raise e => (Raise e, st)
    | Ok share =>
    let st := write out (StatsMatches (stat_match stats) share) st in
    match truediv (stat_missmatch stats) file_total with
    | Raise e => (Raise e, st)
    | Ok share =>
    let st := write out (StatsMisses (stat_missmatch stats) share) st in
    match truediv missing_total file_total with
    | Raise e => (Raise e, st)
    | Ok share =>
    let st := write out (StatsMissing missing_total share) st in
    let st := write out (StatsFilesMissing image1 image2 (stat_missing1 stats)) st in
    let st := write out (StatsFilesMissing image2 image1 (stat_missing2 stats)) st in
    let st := write out (StatsDirsMissing image1 image2 (stat_dir_missing1 stats)) st in
    let st := write out (StatsDirsMissing image2 image1 (stat_dir_missing2 stats)) st in
    (Ok tt, st)
    end end end
  else (Ok tt, st).

(** [main()] from line 113 on: [root1] and [root2] are [image1.root] and
    [image2.root], the directories that lines 85-111 have settled on (the
    argument itself, or where the archive was unpacked); [tree1] and
    [tree2] are what is on disk there. *)
Definition main (args : Args) (root1 root2 : string) (tree1 tree2 : node)
           (w : world) : result zero_division_error nat * state :=
  let files1 := get_contents root1 (args_sort args) tree1 in
  let files2 := get_contents root2 (args_sort args) tree2 in
  let st := reconcile args files1 files2 w in
  match write_stats args st with
  | (Raise e, st) => (Raise e, st)
  | (Ok _, st) => (Ok (st_ret st), st)
  end.

(** Lines 211-218: the exit status of the process. *)
Definition exit_status (r : result zero_division_error nat) : nat :=
  match r with
  | Ok ret => ret
  | Raise _ => 1          (* except Exception: ret = 1 *)
  end.

End Script.


(* ===================================================================== *)
(** * A small concrete system, for running the script *)
(* ===================================================================== *)

Module Toy.

(** A file of the toy disk: a link target if it is a symbolic link, its
    bytes, its mode bits, whether the user may [chmod] it, and whether
    reads are refused whatever the mode says. *)
Record file : Type := mkFile {
  link : option string;
  content : list byte;
  mode : N;
  owned : bool;
  sealed : bool
}.

Definition disk : Type := dict file.

Definition readable (f : file) : bool :=
  N.testbit (mode f) 8 && negb (sealed f).

#[export] Instance os : Os := {|
  world := disk;
  os_link := fun w p =>
    match Py.get p w with Some f => link f | None => None end;
  os_open_read := fun w p =>
    match Py.get p w with
    | Some f => if readable f then Some (content f) else None
    | None => None
    end;
  os_stat_mode := fun w p =>
    match Py.get p w with Some f => Some (mode f) | None => None end;
  os_chmod := fun w p m =>
    match Py.get p w with
    | Some f =>
        if owned f
        then Some (Py.set p (mkFile (link f) (content f) m (owned f) (sealed f)) w)
        else None
    | None => None
    end;
  os_diffoscope := fun _ _ _ => None;
  sha256_hex := string_of_list_byte
|}.

Definition regular (bytes : string) : file :=
  mkFile None (list_byte_of_string bytes) 420 true false.       (* 0o644 *)
Definition unreadable (bytes : string) : file :=
  mkFile None (list_byte_of_string bytes) 0 false false.

End Toy.

(* ===================================================================== *)
(** * [main] from its first line to the exit of the process *)
(* ===================================================================== *)

(** Before the comparison, [main] opens the output file, checks that
    diffoscope is there and settles the two directories to compare (lines
    70-112); after it, it closes the file and drops the temporary
    directories (lines 200-207).  What this asks of the system beyond
    [Os] is left open in the same way.  The parsing of the command line
    (lines 54-68) is not modelled: [Args] is what it delivers. *)
Class Host (OS : Os) : Type := {
  (** [open(path, 'w')]: the world with the file created or emptied;
      [None] for [OSError] *)
  host_open_write : world -> string -> option world;
  (** a shell command run to its end: its return code and the world it
      leaves *)
  host_shell : world -> string -> Z * world;
  (** [os.path.isdir(path)] *)
  host_isdir : world -> string -> bool;
  (** [tarfile.is_tarfile(path)]; [None] for the [OSError] of a path that
      cannot be opened *)
  host_is_tarfile : world -> string -> option bool;
  (** [tempfile.TemporaryDirectory()]: the [name] of the new directory and
      the world with it *)
  host_mkdtemp : world -> string * world;
  (** the end of a [TemporaryDirectory] object: its directory is removed *)
  host_cleanup : world -> string -> world;
  (** what [os.scandir] shows at a path and below *)
  host_tree : world -> string -> node
}.

Module Program.

(** The exceptions that can leave [main].  [SystemExit] is what
    [sys.exit] raises; it is no [Exception]. *)
Inductive exception : Type :=
| SystemExit (code : nat)
| OSError
| AttributeError
| ZeroDivision (e : zero_division_error).

Inductive subprocess_error : Type := CalledProcessError (returncode : Z).

(** Every request made to the system, the requests of the comparison
    among them. *)
Inductive call : Type :=
| CallOpenWrite (path : string)
| CallShell (cmd : string)
| CallIsdir (path : string)
| CallIsTarfile (path : string)
| CallTemporaryDirectory (name : string)
| CallSys (c : syscall)
| CallClose
| CallCleanup (name : string).

(** The two messages of lines 77 and 95, and the lines of the report. *)
Inductive message : Type :=
| PleaseInstallDiffoscope                (* "Please install diffoscope\n" *)
| ErrorUnpackingImage (image : string)   (* "Error unpacking image: %s" *)
| Report (l : line).

(** [class Image].  [files] is set at lines 113-114, where the comparison
    above takes over with listings of its own. *)
Record Image : Type := mkImage {
  image : string;
  root : option string;
  files : option (dict (dict string));
  tmp_dir : option string
}.

Section WithHost.

Context {OS : Os} {HOST : Host OS}.

(** What the process has done so far: the state it has brought the system
    to, the requests it has made and the messages it has written. *)
Record process : Type := mkProcess {
  pr_world : world;
  pr_calls : list call;
  pr_written : list (stream * message)
}.

(** One more request, a new state of the system, one more message. *)
Definition called (c : call) (p : process) : process :=
  mkProcess (pr_world p) (pr_calls p ++ [c]) (pr_written p).

Definition moved (w : world) (p : process) : process :=
  mkProcess w (pr_calls p) (pr_written p).

Definition said (h : stream) (m : message) (p : process) : process :=
  mkProcess (pr_world p) (pr_calls p) (pr_written p ++ [(h, m)]).

(** [args.output_file] as lines 70, 71 and 201 test it: [None] and the
    empty string are false. *)
Definition output_file (args : Args) : option string :=
  match args_output_file args with
  | Some EmptyString => None
  | o => o
  end.

(** [args] with its output file read that way: [output_handle] and
    [error_handle], the handles of lines 70 and 71, are the same for
    both. *)
Definition settled (args : Args) : Args :=
  mkArgs (args_images args) (args_diffoscope args) (output_file args)
         (args_stats args) (args_sort args).

(** [subprocess.run(cmd, shell=True, stdout=subprocess.PIPE,
    stderr=subprocess.STDOUT, check=check)].  No timeout is given, so the
    one [SubprocessError] it can raise is [CalledProcessError], and only
    under [check=True], on a return code that is not zero. *)
Definition subprocess_run (cmd : string) (check : bool) (p : process)
  : result subprocess_error Z * process :=
  let (returncode, w) := host_shell (pr_world p) cmd in
  let p := called (CallShell cmd) (moved w p) in
  if check && negb (Z.eqb returncode 0)
  then (Raise (CalledProcessError returncode), p)
  else (Ok returncode, p).

(** Line 70: the output file is opened when one is given. *)
Definition open_output (args : Args) (p : process) : result exception unit * process :=
  match args_output_file args with
  | Some path =>
      let p := called (CallOpenWrite path) p in
      match host_open_write (pr_world p) path with
      | Some w => (Ok tt, moved w p)
      | None => (Raise OSError, p)
      end
  | None => (Ok tt, p)
  end.

(** Lines 73-78. *)
Definition require_diffoscope (args : Args) (p : process)
  : result exception unit * process :=
  if args_diffoscope args then
    match subprocess_run "diffoscope --version" true p with
    | (Raise _, p) =>
        (Raise (SystemExit 1), said (error_handle args) PleaseInstallDiffoscope p)
    | (Ok _, p) => (Ok tt, p)
    end
  else (Ok tt, p).

(** Lines 85-96 and 99-110, which differ in the options given to [tar]:
    [unpack] is ["tar --atime-preserve -xjsf "] for the first image and
    ["tar --atime-preserve -xjpsf "] for the second. *)
Definition set_up (args : Args) (unpack : string) (img : Image) (p : process)
  : result exception Image * process :=
  let p := called (CallIsdir (image img)) p in
  if host_isdir (pr_world p) (image img) then
    (Ok (mkImage (image img) (Some (image img)) (files img) (tmp_dir img)), p)
  else
    let p := called (CallIsTarfile (image img)) p in
    match host_is_tarfile (pr_world p) (image img) with
    | None => (Raise OSError, p)
    | Some false => (Ok img, p)
    | Some true =>
        let (name, w) := host_mkdtemp (pr_world p) in
        let p := called (CallTemporaryDirectory name) (moved w p) in
        let img := mkImage (image img) (Some name) (files img) (Some name) in
        match subprocess_run (unpack ++ image img ++ " -C " ++ name) false p with
        | (Raise _, p) =>
            (Raise (SystemExit 1),
             said (error_handle args) (ErrorUnpackingImage (image img)) p)
        | (Ok _, p) => (Ok img, p)
        end
    end.

(** What the comparison did, added to what the process had done. *)
Definition reported (st : state) (p : process) : process :=
  mkProcess (os_world (st_os st))
            (pr_calls p ++ map CallSys (os_trace (st_os st)))
            (pr_written p ++ map (fun e => (fst e, Report (snd e))) (st_written st)).

(** Lines 201-202. *)
Definition close_output (args : Args) (p : process) : process :=
  match args_output_file args with
  | Some _ => called CallClose p
  | None => p
  end.

(** Lines 204-207: [del image.tmp_dir] ends the [TemporaryDirectory]. *)
Definition clean_up (img : Image) (p : process) : process :=
  match tmp_dir img with
  | Some name => called (CallCleanup name) (moved (host_cleanup (pr_world p) name) p)
  | None => p
  end.

(** [main()], from line 70 on.  Lines 113-198 are the [main] above, run on
    the roots the set-up has settled on; a [root] that is still [None]
    makes [get_contents] raise [AttributeError] at its first line. *)
Definition main (args : Args) (w : world) : result exception nat * process :=
  let args := settled args in
  let p := mkProcess w [] [] in
  match open_output args p with
  | (Raise e, p) => (Raise e, p)
  | (Ok _, p) =>
  match require_diffoscope args p with
  | (Raise e, p) => (Raise e, p)
  | (Ok _, p) =>
  let image1 := mkImage (fst (args_images args)) None None None in
  let image2 := mkImage (snd (args_images args)) None None None in
  match set_up args "tar --atime-preserve -xjsf " image1 p with
  | (Raise e, p) => (Raise e, p)
  | (Ok image1, p) =>
  match set_up args "tar --atime-preserve -xjpsf " image2 p with
  | (Raise e, p) => (Raise e, p)
  | (Ok image2, p) =>
  match root image1, root image2 with
  | Some root1, Some root2 =>
      let w := pr_world p in
      match main args root1 root2 (host_tree w root1) (host_tree w root2) w with
      | (Raise e, st) => (Raise (ZeroDivision e), reported st p)
      | (Ok ret, st) =>
          let p := reported st p in
          let p := close_output args p in
          let p := clean_up image1 p in
          let p := clean_up image2 p in
          (Ok ret, p)
      end
  | _, _ => (Raise AttributeError, p)
  end
  end end end end.

(** Lines 211-218: the exit status of the process and whether a traceback
    was printed.  [except Exception] does not catch [SystemExit]. *)
Definition script (args : Args) (w : world) : nat * bool * process :=
  match main args w with
  | (Ok ret, p) => (ret, false, p)
  | (Raise (SystemExit code), p) => (code, false, p)
  | (Raise _, p) => (1, true, p)
  end.

End WithHost.

End Program.

(** ** A small host *)

Module ToyHost.

(** [s] without the prefix [pre], if it starts with it. *)
Fixpoint strip_prefix (pre s : string) : option string :=
  match pre, s with
  | EmptyString, _ => Some s
  | String a pre', String b s' => if Ascii.eqb a b then strip_prefix pre' s' else None
  | String _ _, EmptyString => None
  end.

(** The files the disk holds directly in [path]. *)
Definition scan (w : Toy.disk) (path : string) : list (string * node) :=
  flat_map (fun e =>
              match strip_prefix (path ++ "/") (fst e) with
              | Some name =>
                  match String.index 0 "/" name with
                  | Some _ => []
                  | None => [(name, match Toy.link (snd e) with
                                    | Some target => Symlink target None
                                    | None => File
                                    end)]
                  end
              | None => []
              end) w.

(** No command is installed and nothing is an archive; a path is a
    directory when the disk holds a file below it. *)
Definition open_write (w : Toy.disk) (path : string) : option Toy.disk :=
  Some (Py.set path (Toy.regular "") w).

Definition isdir (w : Toy.disk) (path : string) : bool :=
  existsb (fun e => match strip_prefix (path ++ "/") (fst e) with
                    | Some _ => true
                    | None => false
                    end) w.

Definition is_tarfile (w : Toy.disk) (path : string) : option bool :=
  match Py.get path w with Some _ => Some false | None => None end.

Definition shell (w : Toy.disk) (cmd : string) : Z * Toy.disk := (127%Z, w).

Definition mkdtemp (w : Toy.disk) : string * Toy.disk := ("/tmp/tmp0", w).

Definition cleanup (w : Toy.disk) (name : string) : Toy.disk := w.

Definition tree (w : Toy.disk) (path : string) : node := Dir (scan w path).

#[export] Instance host : Host Toy.os :=
  Build_Host Toy.os open_write shell isdir is_tarfile mkdtemp cleanup tree.

End ToyHost.

(* ===================================================================== *)
(** * The vocabulary of the statements *)
(* ===================================================================== *)

(** None of what follows is in the script: these are the words the
    theorems need to speak about it. *)

(** ** Listings and the plan of a comparison *)

(** A listing is a dictionary of dictionaries: no directory twice, and in
    no directory a name twice. *)
Definition listing_wf (files : dict (dict string)) : Prop :=
  wf files /\ forall d fs, Py.get d files = Some fs -> wf fs.

(** Several [pop]s in a row. *)
Definition pops {V} (ks : list string) (d : dict V) : dict V :=
  fold_left (fun d k => Py.pop k d) ks d.

(** The loops of [main] find out what to do with each entry by looking it
    up in [image2.files] and popping what they have seen.  [plan] computes
    the same decisions from the two listings as they were at the start, with
    no mutation, as a list of actions in the order of the loops;
    [reconcile_plan] shows that the loops do exactly what the plan says. *)
Inductive action : Type :=
| Compare (dir file path1 path2 : string)    (* the file is on both sides *)
| OnlyLeft (dir file : string)               (* in image1.files[dir] only *)
| OnlyRight (dir file : string)              (* in image2.files[dir] only *)
| DirOnlyLeft (dir : string) (count : nat)   (* a key of image1.files only *)
| DirOnlyRight (dir : string) (count : nat). (* a key of image2.files only *)

(** What is to be done with [file] of [image1.files[dir]]. *)
Definition file_action (files1 : dict (dict string)) (dir : string)
           (files2_dir : dict string) (file : string) : action :=
  match Py.get file files2_dir with
  | Some path2 =>
      Compare dir file (Py.getitem file (Py.getitem dir files1 []) "") path2
  | None => OnlyLeft dir file
  end.

(** The actions for one key of [image1.files]. *)
Definition plan_dir (files1 files2 : dict (dict string)) (dir : string) : list action :=
  let files1_dir := Py.getitem dir files1 [] in
  match Py.get dir files2 with
  | Some files2_dir =>
      map (file_action files1 dir files2_dir) (keys files1_dir)
      ++ map (OnlyRight dir)
             (filter (fun f => negb (Py.mem f files1_dir)) (keys files2_dir))
  | None => [DirOnlyLeft dir (List.length files1_dir)]
  end.

(** All actions: the keys of [image1.files] in order, then the keys that
    only [image2.files] has. *)
Definition plan (files1 files2 : dict (dict string)) : list action :=
  flat_map (plan_dir files1 files2) (keys files1)
  ++ map (fun d => DirOnlyRight d (List.length (Py.getitem d files2 [])))
         (filter (fun d => negb (Py.mem d files1)) (keys files2)).

(** What the loops do for one action, [image2.files] left alone. *)
Definition perform {OS : Os} (args : Args) (a : action) (st : state) : state :=
  let (image1, image2) := args_images args in
  match a with
  | Compare dir file path1 path2 =>
      let (outcome, o) := compare_files path1 path2 (st_os st) in
      let st := with_os o st in
      let (match_, st) :=
        match outcome with
        | Ok m => (m, st)
        | Raise PermissionError =>
            (true, write (error_handle args) (PermissionErrorLine dir file) st)
        end in
      if match_ then count args (mkStats 1 0 0 0 0 0) st
      else
        run_diffoscope args path1 path2
          (set_ret (count args (mkStats 0 1 0 0 0 0)
                      (write (output_handle args)
                             (FileMissmatch dir file image1 image2) st)))
  | OnlyLeft dir file =>
      set_ret (count args (mkStats 0 0 1 0 0 0)
                 (write (output_handle args) (MissingFile dir file image1 image2) st))
  | OnlyRight dir file =>
      set_ret (count args (mkStats 0 0 0 1 0 0)
                 (write (output_handle args) (MissingFile dir file image2 image1) st))
  | DirOnlyLeft dir n =>
      set_ret (count args (mkStats 0 0 n 0 1 0)
                 (write (output_handle args) (MissingDirectory n dir image1 image2) st))
  | DirOnlyRight dir n =>
      set_ret (count args (mkStats 0 0 0 n 0 1)
                 (write (output_handle args) (MissingDirectory n dir image2 image1) st))
  end.

(** Carrying out a list of actions. *)
Definition run {OS : Os} (args : Args) (acts : list action) (st : state) : state :=
  for_each acts (perform args) st.

(** ** What an action adds *)

(** The state before anything was written or counted. *)
Definition blank {OS : Os} (o : os_state) : state := mkState o [] stats_zero 0 [].

(** [absorb st d]: the state [st], continued by what a run that started
    from [blank (st_os st)] produced. *)
Definition absorb {OS : Os} (st d : state) : state :=
  mkState (st_os d)
          (st_written st ++ st_written d)
          (stats_add (st_stats st) (st_stats d))
          (if Nat.eqb (st_ret d) 0 then st_ret st else st_ret d)
          (st_files2 st).

(** The actions that ask nothing of the system. *)
Definition quiet (a : action) : bool :=
  match a with Compare _ _ _ _ => false | _ => true end.

(** The one line a quiet action writes and what it counts. *)
Definition quiet_line (args : Args) (a : action) : line :=
  let (image1, image2) := args_images args in
  match a with
  | OnlyLeft dir file => MissingFile dir file image1 image2
  | OnlyRight dir file => MissingFile dir file image2 image1
  | DirOnlyLeft dir n => MissingDirectory n dir image1 image2
  | DirOnlyRight dir n => MissingDirectory n dir image2 image1
  | Compare dir file _ _ => FileMissmatch dir file image1 image2
  end.

Definition quiet_count (a : action) : Stats :=
  match a with
  | OnlyLeft _ _ => mkStats 0 0 1 0 0 0
  | OnlyRight _ _ => mkStats 0 0 0 1 0 0
  | DirOnlyLeft _ n => mkStats 0 0 n 0 1 0
  | DirOnlyRight _ n => mkStats 0 0 0 n 0 1
  | Compare _ _ _ _ => stats_zero
  end.

(** ** Requests, counters and lines *)

(** [os.path.islink] *)
Definition is_link {OS : Os} (w : world) (p : string) : bool :=
  match os_link w p with Some _ => true | None => false end.

(** The requests that inspect a link, as opposed to those that read or
    change a file. *)
Definition link_request (c : syscall) : bool :=
  match c with
  | SysIslink _ | SysReadlink _ => true
  | _ => false
  end.

(** The requests that open a file, and those that change its mode. *)
Definition open_request (c : syscall) : bool :=
  match c with SysOpen _ => true | _ => false end.

Definition chmod_request (c : syscall) : bool :=
  match c with SysChmod _ _ => true | _ => false end.

(** [file_total] of line 188. *)
Definition file_total (s : Stats) : nat :=
  stat_match s + stat_missmatch s + stat_missing1 s + stat_missing2 s.

(** The "Missing File" lines about [f] in [d], the "Missing Directory"
    lines about [d], and the actions that write them. *)
Definition is_missing_file (d f : string) (l : line) : bool :=
  match l with
  | MissingFile d' f' _ _ => String.eqb d' d && String.eqb f' f
  | _ => false
  end.

Definition is_missing_directory (d : string) (l : line) : bool :=
  match l with
  | MissingDirectory _ d' _ _ => String.eqb d' d
  | _ => false
  end.

Definition reports_file (d f : string) (a : action) : bool :=
  match a with
  | OnlyLeft d' f' | OnlyRight d' f' => String.eqb d' d && String.eqb f' f
  | _ => false
  end.

Definition reports_directory (d : string) (a : action) : bool :=
  match a with
  | DirOnlyLeft d' _ | DirOnlyRight d' _ => String.eqb d' d
  | _ => false
  end.

(** The directory a report line is about, for the lines of the loops. *)
Definition line_dir (l : line) : option string :=
  match l with
  | PermissionErrorLine d _ | FileMissmatch d _ _ _
  | MissingFile d _ _ _ | MissingDirectory _ d _ _ => Some d
  | _ => None
  end.

(** The lines and the actions about the directory [k]. *)
Definition is_about (k : string) (l : line) : bool :=
  match line_dir l with Some d => String.eqb d k | None => false end.

Definition action_dir (a : action) : string :=
  match a with
  | Compare d _ _ _ | OnlyLeft d _ | OnlyRight d _
  | DirOnlyLeft d _ | DirOnlyRight d _ => d
  end.

(** [more] is [base] with one more line of the given kind, written to the
    output handle: the same requests to the system, the same lines before
    and after the new one, which is the only one of its kind, the counters
    raised by [delta] when [-s] is given, and [ret = 1]. *)
Definition one_line_more {OS : Os} (args : Args) (kind : line -> bool) (l : line)
           (delta : Stats) (base more : state) : Prop :=
  st_os more = st_os base
  /\ (exists w1 w2,
         st_written base = w1 ++ w2
         /\ st_written more = w1 ++ (output_handle args, l) :: w2)
  /\ filter (fun e => kind (snd e)) (st_written more) = [(output_handle args, l)]
  /\ st_stats more
     = (if args_stats args then stats_add (st_stats base) delta else st_stats base)
  /\ st_ret more = 1.

(** ** Identical trees *)

(** Two paths hold the same thing: links with the same target, or files
    that can both be read and hold the same bytes. *)
Definition same_entry {OS : Os} (w : world) (path1 path2 : string) : Prop :=
  match os_link w path1, os_link w path2 with
  | Some target1, Some target2 => target1 = target2
  | None, None =>
      exists data, os_open_read w path1 = Some data /\ os_open_read w path2 = Some data
  | _, _ => False
  end.

(** Two listings of identical trees: the same directories, the same names
    in each, and under each name the same thing on both sides. *)
Definition identical {OS : Os} (w : world) (files1 files2 : dict (dict string)) : Prop :=
  (forall d, Py.mem d files1 = Py.mem d files2)
  /\ (forall d f, Py.mem f (Py.getitem d files1 []) = Py.mem f (Py.getitem d files2 []))
  /\ (forall d f path1 path2,
         Py.get f (Py.getitem d files1 []) = Some path1 ->
         Py.get f (Py.getitem d files2 []) = Some path2 ->
         same_entry w path1 path2).

Definition matching {OS : Os} (w : world) (a : action) : Prop :=
  match a with
  | Compare _ _ path1 path2 => same_entry w path1 path2
  | _ => False
  end.

(** Nothing written, nothing found, the file system untouched. *)
Definition clean {OS : Os} (w : world) (st : state) : Prop :=
  os_world (st_os st) = w
  /\ st_written st = []
  /\ st_ret st = 0
  /\ stat_missmatch (st_stats st) = 0
  /\ stat_missing1 (st_stats st) = 0
  /\ stat_missing2 (st_stats st) = 0
  /\ stat_dir_missing1 (st_stats st) = 0
  /\ stat_dir_missing2 (st_stats st) = 0.

(** ** The files of two listings *)

(** The (directory, file) pairs of a listing. *)
Definition entries (files : dict (dict string)) : list (string * string) :=
  flat_map (fun d => map (pair d) (keys (Py.getitem d files []))) (keys files).

(** [file in files[dir]], false when [dir] is no key. *)
Definition has (files : dict (dict string)) (e : string * string) : bool :=
  Py.mem (snd e) (Py.getitem (fst e) files []).

Definition on_both (files1 files2 : dict (dict string)) : list (string * string) :=
  filter (has files2) (entries files1).

Definition only_in (files1 files2 : dict (dict string)) : list (string * string) :=
  filter (fun e => negb (has files2 e)) (entries files1).

Definition dirs_only_in (files1 files2 : dict (dict string)) : list string :=
  filter (fun d => negb (Py.mem d files2)) (keys files1).

(** How much an action adds to each group of counters. *)
Definition weight_both (a : action) : nat :=
  match a with Compare _ _ _ _ => 1 | _ => 0 end.
Definition weight_left (a : action) : nat :=
  match a with OnlyLeft _ _ => 1 | DirOnlyLeft _ n => n | _ => 0 end.
Definition weight_right (a : action) : nat :=
  match a with OnlyRight _ _ => 1 | DirOnlyRight _ n => n | _ => 0 end.
Definition weight_dir_left (a : action) : nat :=
  match a with DirOnlyLeft _ _ => 1 | _ => 0 end.
Definition weight_dir_right (a : action) : nat :=
  match a with DirOnlyRight _ _ => 1 | _ => 0 end.

(** ** Trees and what the scanner records *)

(** The names [os.walk] puts in [dirs] and in [files]. *)
Definition dir_names (es : list (string * node)) : list string :=
  map fst (filter (fun e => is_dir (snd e)) es).

Definition file_names (es : list (string * node)) : list string :=
  map fst (filter (fun e => negb (is_dir (snd e))) es).

(** The entries of the directory reached from [n] through the names
    [comps], each of which must be a real directory: a symbolic link is
    never passed through. *)
Fixpoint subdir (comps : list string) (n : node) {struct comps}
  : option (list (string * node)) :=
  match n, comps with
  | Dir es, [] => Some es
  | Dir es, c :: comps' =>
      match Py.get c es with
      | Some child => subdir comps' child
      | None => None
      end
  | _, _ => None
  end.

(** The [root] that [os.walk(top)] yields for that directory. *)
Definition walk_root (top : string) (comps : list string) : string :=
  fold_left path_join comps top.

(** [name] is recorded under the key [k]. *)
Definition listed (file_dict : dict (dict string)) (k name : string) : Prop :=
  exists fs, Py.get k file_dict = Some fs /\ In name (keys fs).

(** The body of the inner loop of [get_contents], and the two loops. *)
Definition add_file (top root file : string) (file_dict : dict (dict string))
  : dict (dict string) :=
  let path := relpath root top in
  let file_dict :=
    if Py.mem path file_dict then file_dict
    else Py.set path ([] : dict string) file_dict in
  Py.set path
    (Py.set file (path_join root file) (Py.getitem path file_dict []))
    file_dict.

Definition add_item (top : string) (sorted : bool) (file_dict : dict (dict string))
           (item : walk_item) : dict (dict string) :=
  let '(root, _, files) := item in
  fold_left (fun file_dict file => add_file top root file file_dict)
            (if sorted then Py.sort files else files) file_dict.

(** What [get_contents] reads of the items of a walk: the roots that have
    files, with their files. *)
Definition with_files (items : list walk_item) : list (string * list string) :=
  flat_map (fun item => match snd item with
                        | [] => []
                        | _ :: _ => [(fst (fst item), snd item)]
                        end) items.

Definition le_str (a b : string) : Prop := String.leb a b = true.

(** No file in [n] or below, as far as real directories go. *)
Definition file_free (n : node) : Prop :=
  forall comps es, subdir comps n = Some es -> file_names es = [].

(** [add_entry comps pos e n]: the tree [n] with the entry [e] put at
    position [pos] into the directory reached through [comps]. *)
Fixpoint add_entry (comps : list string) (pos : nat) (e : string * node) (n : node)
  {struct comps} : node :=
  match n, comps with
  | Dir es, [] => Dir (firstn pos es ++ e :: skipn pos es)
  | Dir es, c :: comps' =>
      Dir (map (fun x => (fst x, if String.eqb (fst x) c
                                 then add_entry comps' pos e (snd x)
                                 else snd x)) es)
  | _, _ => n
  end.

(** ** Checking a concrete listing *)

(** A checker for the dictionary invariant, to run on concrete listings. *)
Fixpoint nodupb (l : list string) : bool :=
  match l with
  | [] => true
  | x :: l' => negb (existsb (String.eqb x) l') && nodupb l'
  end.

Definition listing_ok (files : dict (dict string)) : bool :=
  nodupb (keys files) && forallb (fun e => nodupb (keys (snd e))) files.

(** ** Small trees for the examples *)

Module Example.

Import Toy.

Definition with_stats : Args := mkArgs ("A", "B") false None true false.
Definition without_stats : Args := mkArgs ("A", "B") false None false false.

(** Two trees with the same [a.txt]; [b.txt] and the directory [sub], with
    three files, are put on the left in the examples that need them. *)
Definition left : dict (dict string) := [(".", [("a.txt", "A/a.txt")])].
Definition right : dict (dict string) := [(".", [("a.txt", "B/a.txt")])].

Definition left_with_b : dict (dict string) :=
  [(".", [("a.txt", "A/a.txt"); ("b.txt", "A/b.txt")])].

Definition sub : dict string :=
  [("1", "A/sub/1"); ("2", "A/sub/2"); ("3", "A/sub/3")].

Definition left_with_sub : dict (dict string) :=
  [(".", [("a.txt", "A/a.txt")]); ("sub", sub)].

Definition files_on_disk : disk :=
  [("A/a.txt", regular "hello"); ("B/a.txt", regular "hello");
   ("A/b.txt", regular "b");
   ("A/sub/1", regular "1"); ("A/sub/2", regular "2"); ("A/sub/3", regular "3")].

End Example.

(* ===================================================================== *)
(** * More vocabulary *)
(* ===================================================================== *)

(** ** Listings *)

(** [path] is what the listing holds for [name] under the key [k]:
    [file_dict[k][name] == path]. *)
Definition recorded (file_dict : dict (dict string)) (k name path : string) : Prop :=
  exists fs, Py.get k file_dict = Some fs /\ Py.get name fs = Some path.

(** The dictionary the inner loop of [get_contents] builds for the files
    of one walked directory, when no other directory has its key. *)
Definition entry_of (root : string) (files : list string) : dict string :=
  fold_left (fun d file => Py.set file (path_join root file) d) files [].

(** The directories of the walk of [get_contents] that have files, and
    their keys, in the order of the walk. *)
Definition walked (top_dir : string) (sorted : bool) (tree : node)
  : list (string * list string) :=
  with_files (os_walk (if sorted then Py.sort else fun dirs => dirs)
                      (rstrip_slash top_dir) tree).

Definition walk_keys (top_dir : string) (sorted : bool) (tree : node) : list string :=
  map (fun rf => relpath (fst rf) (rstrip_slash top_dir)) (walked top_dir sorted tree).

(** [args] with [-r] given or not. *)
Definition sorting (sorted : bool) (args : Args) : Args :=
  mkArgs (args_images args) (args_diffoscope args) (args_output_file args)
         (args_stats args) sorted.

(** Two listings that hold the same names under the same keys, in
    whatever order. *)
Definition same_content (a b : dict (dict string)) : Prop :=
  (forall k, In k (keys a) <-> In k (keys b))
  /\ (forall k name, listed a k name <-> listed b k name).

(** ** Names and relative paths *)

(** A name as a file system gives them to its entries: not empty and
    without a slash. *)
Fixpoint no_slash (s : string) : bool :=
  match s with
  | EmptyString => true
  | String c s' => negb (Ascii.eqb c "/") && no_slash s'
  end.

Definition is_name (s : string) : bool :=
  negb (String.eqb s "") && no_slash s.

(** The path of the directory reached through the names [comps], as one
    writes it relative to where one started. *)
Definition relative (comps : list string) : string :=
  match comps with
  | [] => "."
  | _ :: _ => String.concat "/" comps
  end.

(** The test of [os.path.join] on its first argument. *)
Definition ends_with_slash (s : string) : bool :=
  String.eqb (String.substring (String.length s - 1) 1 s) "/".

(** What the names [comps] add to the path one started from. *)
Definition below (comps : list string) : string :=
  fold_right (fun c rest => ("/" ++ c ++ rest)%string) "" comps.

(** ** The report and the requests of a run *)

(** The lines that report a difference between the two images. *)
Definition is_difference (l : line) : bool :=
  match l with
  | FileMissmatch _ _ _ _ | MissingFile _ _ _ _ | MissingDirectory _ _ _ _ => true
  | _ => false
  end.

Definition is_missmatch (l : line) : bool :=
  match l with FileMissmatch _ _ _ _ => true | _ => false end.

Definition is_missing_any_directory (l : line) : bool :=
  match l with MissingDirectory _ _ _ _ => true | _ => false end.

(** How many files a line reports missing. *)
Definition missing_files (l : line) : nat :=
  match l with
  | MissingFile _ _ _ _ => 1
  | MissingDirectory n _ _ _ => n
  | _ => 0
  end.

(** The two messages [main] writes to [error_handle] in its loops, and
    the handle each line of [main] is written to. *)
Definition is_error (l : line) : bool :=
  match l with
  | PermissionErrorLine _ _ | DiffoscopeFailed => true
  | _ => false
  end.

Definition handle_of (args : Args) (l : line) : stream :=
  if is_error l then error_handle args else output_handle args.

(** How many of the written lines are of a kind. *)
Definition count_lines (kind : line -> bool) (written : list (stream * line)) : nat :=
  List.length (filter (fun e => kind (snd e)) written).

Definition diffoscope_request (c : syscall) : bool :=
  match c with SysDiffoscope _ _ => true | _ => false end.

(** The request names the path [p]; the request is about the pair of
    paths [path1], [path2]. *)
Definition asks_about (p : string) (c : syscall) : bool :=
  match c with
  | SysIslink q | SysReadlink q | SysOpen q | SysStat q | SysChmod q _ => String.eqb q p
  | SysDiffoscope _ _ => false
  end.

Definition touches (path1 path2 : string) (c : syscall) : bool :=
  match c with
  | SysDiffoscope q1 q2 => String.eqb q1 path1 && String.eqb q2 path2
  | _ => asks_about path1 c || asks_about path2 c
  end.


(** What the loops keep true of the report, the counters, [ret] and the
    requests made. *)
Definition tidy {OS : Os} (args : Args) (st : state) : Prop :=
  Forall (fun e => fst e = handle_of args (snd e)) (st_written st)
  /\ st_ret st
     = (if existsb (fun e => is_difference (snd e)) (st_written st) then 1 else 0)
  /\ (if args_stats args
      then stat_missmatch (st_stats st) = count_lines is_missmatch (st_written st)
           /\ stat_missing1 (st_stats st) + stat_missing2 (st_stats st)
              = list_sum (map (fun e => missing_files (snd e)) (st_written st))
           /\ stat_dir_missing1 (st_stats st) + stat_dir_missing2 (st_stats st)
              = count_lines is_missing_any_directory (st_written st)
      else st_stats st = stats_zero)
  /\ List.length (filter diffoscope_request (os_trace (st_os st)))
     = (if args_diffoscope args then count_lines is_missmatch (st_written st) else 0).

(** The requests [compare_files] makes about a pair of paths. *)
Definition compare_call (path1 path2 : string) (c : syscall) : bool :=
  asks_about path1 c || asks_about path2 c.

(** A state in which no difference has been found. *)
Definition nothing_found {OS : Os} (st : state) : Prop :=
  st_ret st = 0
  /\ existsb (fun e => is_difference (snd e)) (st_written st) = false
  /\ stat_missmatch (st_stats st) = 0
  /\ stat_missing1 (st_stats st) = 0
  /\ stat_missing2 (st_stats st) = 0
  /\ stat_dir_missing1 (st_stats st) = 0
  /\ stat_dir_missing2 (st_stats st) = 0.

(** The "Missing Directory" line for the key [d] of [files], a listing of
    [image_a] that [image_b] lacks. *)
Definition missing_directory_line (args : Args) (files : dict (dict string))
           (image_a image_b : string) (d : string) : stream * line :=
  (output_handle args,
   MissingDirectory (List.length (Py.getitem d files [])) d image_a image_b).

(** ** Images that can be read *)








(** ** Words about a whole run *)

Definition is_unpack_error (m : Program.message) : bool :=
  match m with Program.ErrorUnpackingImage _ => true | _ => false end.

(** The calls that run diffoscope: the check of line 75 and the runs of
    line 154. *)
Definition is_diffoscope_call (c : Program.call) : bool :=
  match c with
  | Program.CallShell cmd => String.prefix "diffoscope" cmd
  | Program.CallSys c => diffoscope_request c
  | _ => false
  end.


(** Neither a directory nor an archive. *)
Definition unusable {OS : Os} {HOST : Host OS} (w : world) (path : string) : Prop :=
  host_isdir w path = false /\ host_is_tarfile w path <> Some true.

(** The process as lines 70-78 leave it, when they pass. *)
Definition checked {OS : Os} {HOST : Host OS} (args : Args) (w : world)
  : option Program.process :=
  match Program.open_output (Program.settled args) (Program.mkProcess w [] []) with
  | (Ok _, p) =>
      match Program.require_diffoscope (Program.settled args) p with
      | (Ok _, p) => Some p
      | (Raise _, _) => None
      end
  | (Raise _, _) => None
  end.

(** A line of the report, as a message of the process. *)
Definition as_message (e : stream * line) : stream * Program.message :=
  (fst e, Program.Report (snd e)).

(** A stage of [main] that writes nothing and does not run diffoscope. *)
Definition silent_stage {OS : Os} (p p' : Program.process) : Prop :=
  exists calls,
    Program.pr_calls p' = Program.pr_calls p ++ calls
    /\ filter is_diffoscope_call calls = []
    /\ Program.pr_written p' = Program.pr_written p.

(** ** What becomes of each file *)

(** The action that settles what becomes of the file [e] of the first
    listing: it is compared, reported missing by name, or missing with
    its directory.  And the same for a file of the second listing. *)
Definition classifies_left (e : string * string) (a : action) : bool :=
  match a with
  | Compare d f _ _ | OnlyLeft d f => String.eqb d (fst e) && String.eqb f (snd e)
  | DirOnlyLeft d _ => String.eqb d (fst e)
  | _ => false
  end.

Definition classifies_right (e : string * string) (a : action) : bool :=
  match a with
  | Compare d f _ _ | OnlyRight d f => String.eqb d (fst e) && String.eqb f (snd e)
  | DirOnlyRight d _ => String.eqb d (fst e)
  | _ => false
  end.

(** The "File Missmatch" lines about the name [f] under the key [d], and
    the actions that compare that file. *)
Definition is_missmatch_of (d f : string) (l : line) : bool :=
  match l with
  | FileMissmatch d' f' _ _ => String.eqb d' d && String.eqb f' f
  | _ => false
  end.

Definition compares (d f : string) (a : action) : bool :=
  match a with
  | Compare d' f' _ _ => String.eqb d' d && String.eqb f' f
  | _ => false
  end.

(** The "Missing File" lines there are to be about the name [f] under
    the key [d]: one if both listings have the key and one of them only
    has the name, none otherwise. *)
Definition missing_file_lines (args : Args) (files1 files2 : dict (dict string))
           (d f : string) : list (stream * line) :=
  let image1 := fst (args_images args) in
  let image2 := snd (args_images args) in
  if Py.mem d files1 && Py.mem d files2 then
    if has files1 (d, f) && negb (has files2 (d, f))
    then [(output_handle args, MissingFile d f image1 image2)]
    else if has files2 (d, f) && negb (has files1 (d, f))
    then [(output_handle args, MissingFile d f image2 image1)]
    else []
  else [].

(** The "Missing Directory" lines there are to be about the key [d]: one
    if one listing only has the key, with the number of its files. *)
Definition missing_directory_lines (args : Args) (files1 files2 : dict (dict string))
           (d : string) : list (stream * line) :=
  let image1 := fst (args_images args) in
  let image2 := snd (args_images args) in
  if Py.mem d files1 && negb (Py.mem d files2)
  then [(output_handle args,
         MissingDirectory (List.length (Py.getitem d files1 [])) d image1 image2)]
  else if Py.mem d files2 && negb (Py.mem d files1)
  then [(output_handle args,
         MissingDirectory (List.length (Py.getitem d files2 [])) d image2 image1)]
  else [].

(* ===================================================================== *)
(** * Facts about dictionaries *)
(* ===================================================================== *)

Lemma filter_twice {A} (p q : A -> bool) (l : list A) :
  filter p (filter q l) = filter (fun x => q x && p x) l.
Proof.
  induction l as [|x l IH]; simpl; [reflexivity|].
  destruct (q x); simpl; [destruct (p x)|]; now rewrite IH.
Qed.

Lemma flat_map_ext_in {A B} (f g : A -> list B) (l : list A) :
  (forall x, In x l -> f x = g x) -> flat_map f l = flat_map g l.
Proof.
  induction l as [|x l IH]; simpl; intros H; [reflexivity|].
  rewrite H by now left. f_equal. apply IH. intros y Hy. apply H. now right.
Qed.

Section DictFacts.

Context {V : Type}.
Implicit Types (d : dict V) (k : string) (v : V).

Lemma get_in_keys k d v : Py.get k d = Some v -> In k (keys d).
Proof.
  induction d as [|[k' v'] d IH]; simpl; [discriminate|].
  destruct (String.eqb_spec k' k); [now left | right; auto].
Qed.

Lemma get_none_iff k d : Py.get k d = None <-> ~ In k (keys d).
Proof.
  induction d as [|[k' v'] d IH]; simpl; [tauto|].
  destruct (String.eqb_spec k' k) as [->|Hne].
  - split; [discriminate | intros H; exfalso; apply H; now left].
  - rewrite IH. split; [intros H [E|I]; [congruence | auto] | intros H I; apply H; now right].
Qed.

Lemma mem_iff k d : Py.mem k d = true <-> In k (keys d).
Proof.
  unfold Py.mem. destruct (Py.get k d) eqn:E.
  - split; [intros _; eapply get_in_keys; eauto | reflexivity].
  - apply get_none_iff in E. split; [discriminate | tauto].
Qed.

Lemma mem_false_iff k d : Py.mem k d = false <-> ~ In k (keys d).
Proof.
  rewrite <- mem_iff. destruct (Py.mem k d); split; congruence.
Qed.

Lemma mem_get k d : Py.mem k d = true -> exists v, Py.get k d = Some v.
Proof. unfold Py.mem. destruct (Py.get k d); [eauto | discriminate]. Qed.

Lemma getitem_get k d default v : Py.get k d = Some v -> Py.getitem k d default = v.
Proof. unfold Py.getitem. now intros ->. Qed.

(** *** [pop] *)

Lemma get_pop_other k k' d : k' <> k -> Py.get k' (Py.pop k d) = Py.get k' d.
Proof.
  intros Hne. induction d as [|[k0 v0] d IH]; simpl; [reflexivity|].
  destruct (String.eqb_spec k0 k) as [->|Hk].
  - destruct (String.eqb_spec k k'); [congruence | reflexivity].
  - simpl. now rewrite IH.
Qed.

Lemma pop_absent k d : ~ In k (keys d) -> Py.pop k d = d.
Proof.
  induction d as [|[k0 v0] d IH]; simpl; [reflexivity|]. intros H.
  destruct (String.eqb_spec k0 k) as [->|Hk]; [tauto|]. f_equal. apply IH. tauto.
Qed.

Lemma pop_filter k d :
  wf d -> Py.pop k d = filter (fun e => negb (String.eqb (fst e) k)) d.
Proof.
  unfold wf. induction d as [|[k0 v0] d IH]; simpl; [reflexivity|].
  intros Hnd. inversion Hnd as [|? ? Hnotin Hnd']; subst.
  destruct (String.eqb_spec k0 k) as [->|Hk]; simpl.
  - rewrite <- IH by assumption. symmetry. now apply pop_absent.
  - now rewrite IH.
Qed.

Lemma keys_filter (p : string -> bool) d :
  keys (filter (fun e => p (fst e)) d) = filter p (keys d).
Proof.
  induction d as [|[k0 v0] d IH]; simpl; [reflexivity|].
  destruct (p k0); simpl; now rewrite IH.
Qed.

Lemma wf_filter (p : string * V -> bool) d : wf d -> wf (filter p d).
Proof.
  unfold wf. induction d as [|[k0 v0] d IH]; simpl; [auto|].
  intros Hnd. inversion Hnd as [|? ? Hnotin Hnd']; subst.
  destruct (p (k0, v0)); simpl; [constructor|]; auto.
  intros Hin. apply Hnotin. unfold keys in *. apply in_map_iff in Hin.
  destruct Hin as [e [He Hin]]. apply filter_In in Hin. apply in_map_iff. exists e. tauto.
Qed.

Lemma get_filter (p : string -> bool) k d :
  p k = true -> Py.get k (filter (fun e => p (fst e)) d) = Py.get k d.
Proof.
  intros Hp. induction d as [|[k0 v0] d IH]; simpl; [reflexivity|].
  destruct (p k0) eqn:E; simpl.
  - now rewrite IH.
  - destruct (String.eqb_spec k0 k); [congruence | assumption].
Qed.

(** *** [set] *)

Lemma get_set_same k v d : Py.get k (Py.set k v d) = Some v.
Proof.
  induction d as [|[k0 v0] d IH]; simpl.
  - now rewrite String.eqb_refl.
  - destruct (String.eqb_spec k0 k) as [->|Hk]; simpl.
    + now rewrite String.eqb_refl.
    + destruct (String.eqb_spec k0 k); [congruence | assumption].
Qed.

Lemma get_set_other k k' v d : k' <> k -> Py.get k' (Py.set k v d) = Py.get k' d.
Proof.
  intros Hne. induction d as [|[k0 v0] d IH]; simpl.
  - destruct (String.eqb_spec k k'); [congruence | reflexivity].
  - destruct (String.eqb_spec k0 k) as [->|Hk]; simpl.
    + destruct (String.eqb_spec k k'); [congruence | reflexivity].
    + now rewrite IH.
Qed.

Lemma getitem_set_same k v d default : Py.getitem k (Py.set k v d) default = v.
Proof. unfold Py.getitem. now rewrite get_set_same. Qed.

Lemma set_set k v v' d : Py.set k v' (Py.set k v d) = Py.set k v' d.
Proof.
  induction d as [|[k0 v0] d IH]; simpl.
  - now rewrite String.eqb_refl.
  - destruct (String.eqb_spec k0 k) as [->|Hk]; simpl.
    + now rewrite String.eqb_refl.
    + destruct (String.eqb_spec k0 k); [congruence | now rewrite IH].
Qed.

Lemma set_same k v d : Py.get k d = Some v -> Py.set k v d = d.
Proof.
  induction d as [|[k0 v0] d IH]; simpl; [discriminate|].
  destruct (String.eqb_spec k0 k) as [->|Hk].
  - now intros [= ->].
  - intros H. now rewrite IH.
Qed.

Lemma pop_set k v d : Py.pop k (Py.set k v d) = Py.pop k d.
Proof.
  induction d as [|[k0 v0] d IH]; simpl.
  - now rewrite String.eqb_refl.
  - destruct (String.eqb_spec k0 k) as [->|Hk]; simpl.
    + now rewrite String.eqb_refl.
    + destruct (String.eqb_spec k0 k); [congruence | now rewrite IH].
Qed.

Lemma keys_set_present k v d : In k (keys d) -> keys (Py.set k v d) = keys d.
Proof.
  induction d as [|[k0 v0] d IH]; simpl; [tauto|]. intros H.
  destruct (String.eqb_spec k0 k) as [->|Hk]; simpl; [reflexivity|].
  f_equal. apply IH. destruct H; [congruence | assumption].
Qed.

Lemma keys_set_absent k v d : ~ In k (keys d) -> keys (Py.set k v d) = keys d ++ [k].
Proof.
  induction d as [|[k0 v0] d IH]; simpl; [reflexivity|]. intros H.
  destruct (String.eqb_spec k0 k) as [->|Hk]; [tauto|]. simpl. f_equal. apply IH. tauto.
Qed.

Lemma in_keys_set k k' v d : In k' (keys (Py.set k v d)) <-> k' = k \/ In k' (keys d).
Proof.
  rewrite <- !mem_iff. unfold Py.mem. destruct (String.eqb_spec k' k) as [->|Hne].
  - rewrite get_set_same. tauto.
  - rewrite get_set_other by assumption. tauto.
Qed.

Lemma wf_set k v d : wf d -> wf (Py.set k v d).
Proof.
  unfold wf. intros Hnd. destruct (in_dec string_dec k (keys d)) as [Hin|Hout].
  - now rewrite keys_set_present.
  - rewrite keys_set_absent by assumption. apply NoDup_app; auto.
    + repeat constructor. simpl. tauto.
    + intros x Hx [<-|[]]. contradiction.
Qed.

(** *** Several [pop]s in a row *)

Lemma get_pops_other ks k d : ~ In k ks -> Py.get k (pops ks d) = Py.get k d.
Proof.
  revert d. induction ks as [|k0 ks IH]; simpl; intros d H; [reflexivity|].
  unfold pops in *. simpl. rewrite IH by tauto. apply get_pop_other. intros ->. tauto.
Qed.

Lemma pops_filter ks d :
  wf d ->
  pops ks d = filter (fun e => negb (existsb (String.eqb (fst e)) ks)) d.
Proof.
  revert d. induction ks as [|k0 ks IH]; intros d Hwf; unfold pops in *; simpl.
  - symmetry. apply forallb_filter_id. now apply forallb_forall.
  - rewrite IH by (rewrite pop_filter by assumption; now apply wf_filter).
    rewrite pop_filter by assumption. rewrite filter_twice.
    apply filter_ext. intros [k v]. simpl. now rewrite negb_orb.
Qed.

Lemma keys_pops ks d :
  wf d ->
  keys (pops ks d) = filter (fun k => negb (existsb (String.eqb k) ks)) (keys d).
Proof.
  intros Hwf. rewrite pops_filter by assumption.
  apply (keys_filter (fun k => negb (existsb (String.eqb k) ks))).
Qed.

Lemma existsb_eqb_iff k ks : existsb (String.eqb k) ks = true <-> In k ks.
Proof.
  rewrite existsb_exists. split.
  - intros [x [Hx E]]. apply String.eqb_eq in E. now subst.
  - intros H. exists k. split; [assumption | apply String.eqb_refl].
Qed.

End DictFacts.

(* ===================================================================== *)
(** * The comparison as a list of actions *)
(* ===================================================================== *)

(** Case analysis on every test that stands in the way. *)
Ltac break_ifs :=
  repeat match goal with
    | |- context [match ?x with _ => _ end] =>
        lazymatch x with
        | context [match _ with _ => _ end] => fail
        | _ => destruct x eqn:?; simpl
        end
    end.

Section Plan.

Context {OS : Os}.
Variable args : Args.

Lemma run_app a b st : run args (a ++ b) st = run args b (run args a st).
Proof. unfold run, for_each. apply fold_left_app. Qed.

Lemma run_cons a acts st : run args (a :: acts) st = run args acts (perform args a st).
Proof. reflexivity. Qed.

(** [image2.files] plays no part in [perform]. *)

Lemma count_files2 delta f st :
  count args delta (with_files2 f st) = with_files2 f (count args delta st).
Proof. unfold count. now destruct (args_stats args). Qed.

Lemma run_diffoscope_files2 p1 p2 f st :
  run_diffoscope args p1 p2 (with_files2 f st)
  = with_files2 f (run_diffoscope args p1 p2 st).
Proof.
  unfold run_diffoscope. destruct (args_diffoscope args); [|reflexivity].
  simpl. now destruct (os_diffoscope _ _ _).
Qed.

Lemma perform_files2 a f st :
  perform args a (with_files2 f st) = with_files2 f (perform args a st).
Proof.
  unfold perform, run_diffoscope, count, write, set_ret, with_os, with_files2,
    sys_diffoscope.
  destruct (args_images args) as [image1 image2].
  destruct a; simpl; break_ifs; reflexivity.
Qed.

Lemma run_files2 acts f st : run args acts (with_files2 f st) = with_files2 f (run args acts st).
Proof.
  revert st. induction acts as [|a acts IH]; intros st; [reflexivity|].
  rewrite !run_cons, perform_files2. apply IH.
Qed.

Lemma perform_keeps_files2 a st : st_files2 (perform args a st) = st_files2 st.
Proof.
  unfold perform, run_diffoscope, count, write, set_ret, with_os, with_files2,
    sys_diffoscope.
  destruct (args_images args) as [image1 image2].
  destruct a; simpl; break_ifs; reflexivity.
Qed.

Lemma run_keeps_files2 acts st : st_files2 (run args acts st) = st_files2 st.
Proof.
  revert st. induction acts as [|a acts IH]; intros st; [reflexivity|].
  rewrite run_cons, IH. apply perform_keeps_files2.
Qed.

Lemma with_files2_idem f g st : with_files2 f (with_files2 g st) = with_files2 f st.
Proof. reflexivity. Qed.

Lemma with_files2_same st : with_files2 (st_files2 st) st = st.
Proof. now destruct st. Qed.

(** *** The loops follow the plan *)

Variable files1 : dict (dict string).

Lemma file_step_perform dir file st files2_dir :
  Py.get dir (st_files2 st) = Some files2_dir ->
  file_step args files1 dir file st
  = with_files2 (Py.set dir (Py.pop file files2_dir) (st_files2 st))
                (perform args (file_action files1 dir files2_dir file) st).
Proof.
  intros Hdir. unfold file_step, file_action.
  rewrite (getitem_get dir (st_files2 st) _ _ Hdir).
  destruct (Py.get file files2_dir) as [path2|] eqn:Hfile.
  - unfold perform, run_diffoscope, count, write, set_ret, with_os, with_files2,
      sys_diffoscope.
    destruct (args_images args) as [image1 image2]. simpl.
    break_ifs; rewrite ?(getitem_get dir (st_files2 st) _ _ Hdir); reflexivity.
  - apply get_none_iff in Hfile. rewrite (pop_absent _ _ Hfile).
    rewrite (set_same _ _ _ Hdir).
    rewrite <- (perform_keeps_files2 (OnlyLeft dir file) st) at 1.
    rewrite with_files2_same.
    unfold perform. now destruct (args_images args).
Qed.

Lemma inner_loop_plan dir files st files2_dir :
  NoDup files ->
  Py.get dir (st_files2 st) = Some files2_dir ->
  for_each files (file_step args files1 dir) st
  = with_files2 (Py.set dir (pops files files2_dir) (st_files2 st))
                (run args (map (file_action files1 dir files2_dir) files) st).
Proof.
  intros Hnd. revert st files2_dir.
  induction Hnd as [|file files Hnotin Hnd IH]; intros st files2_dir Hdir.
  - simpl. unfold pops. simpl. rewrite (set_same _ _ _ Hdir).
    symmetry. apply with_files2_same.
  - change (for_each (file :: files) (file_step args files1 dir) st)
      with (for_each files (file_step args files1 dir)
              (file_step args files1 dir file st)).
    rewrite (file_step_perform _ file _ _ Hdir).
    rewrite (IH _ (Py.pop file files2_dir)) by (simpl; apply get_set_same).
    simpl map. rewrite run_cons, run_files2. simpl st_files2. rewrite set_set.
    rewrite with_files2_idem. f_equal. f_equal.
    apply map_ext_in. intros f Hf. unfold file_action.
    rewrite get_pop_other; [reflexivity | intros ->; contradiction].
Qed.

Lemma leftover_loop_plan dir files st :
  for_each files (leftover_file_step args dir) st
  = run args (map (OnlyRight dir) files) st.
Proof.
  revert st. induction files as [|f files IH]; intros st; [reflexivity|].
  simpl map. rewrite run_cons.
  change (for_each (f :: files) (leftover_file_step args dir) st)
    with (for_each files (leftover_file_step args dir)
            (leftover_file_step args dir f st)).
  now rewrite IH.
Qed.

Hypothesis files1_wf : listing_wf files1.

Lemma files1_dir_wf dir : wf (Py.getitem dir files1 []).
Proof.
  destruct files1_wf as [_ Hin]. specialize (Hin dir). unfold Py.getitem.
  destruct (Py.get dir files1); [now apply Hin | constructor].
Qed.

Lemma dir_step_plan dir st :
  listing_wf (st_files2 st) ->
  dir_step args files1 dir st
  = with_files2 (Py.pop dir (st_files2 st))
                (run args (plan_dir files1 (st_files2 st) dir) st).
Proof.
  intros [Hwf2 Hwf2']. unfold dir_step, plan_dir, Py.mem.
  destruct (Py.get dir (st_files2 st)) as [files2_dir|] eqn:Hdir.
  - destruct (args_images args) as [image1 image2].
    rewrite (inner_loop_plan _ _ _ _ (files1_dir_wf dir) Hdir).
    simpl st_files2. rewrite !getitem_set_same.
    rewrite leftover_loop_plan. rewrite run_files2. simpl st_files2.
    rewrite with_files2_idem, pop_set.
    rewrite run_app. f_equal. f_equal.
    rewrite keys_pops by eauto. f_equal. apply filter_ext. intros f.
    f_equal. unfold Py.mem.
    destruct (Py.get f (Py.getitem dir files1 [])) eqn:E.
    + apply existsb_eqb_iff. eapply get_in_keys; eauto.
    + apply get_none_iff in E. apply not_true_is_false.
      now rewrite existsb_eqb_iff.
  - apply get_none_iff in Hdir. rewrite (pop_absent _ _ Hdir).
    rewrite run_cons. unfold run at 1. simpl for_each.
    rewrite <- (perform_keeps_files2
                  (DirOnlyLeft dir (List.length (Py.getitem dir files1 []))) st) at 1.
    rewrite with_files2_same.
    unfold perform. now destruct (args_images args).
Qed.

Lemma listing_wf_pop dir files2 : listing_wf files2 -> listing_wf (Py.pop dir files2).
Proof.
  intros [Hwf Hin]. split.
  - rewrite pop_filter by assumption. now apply wf_filter.
  - intros d fs Hget. destruct (string_dec d dir) as [->|Hne].
    + exfalso. rewrite pop_filter in Hget by assumption.
      apply get_in_keys in Hget.
      rewrite (keys_filter (fun k => negb (String.eqb k dir))) in Hget.
      apply filter_In in Hget. rewrite String.eqb_refl in Hget.
      destruct Hget; discriminate.
    + rewrite get_pop_other in Hget by assumption. eauto.
Qed.

Lemma plan_dir_ext files2 files2' dir :
  Py.get dir files2' = Py.get dir files2 ->
  plan_dir files1 files2' dir = plan_dir files1 files2 dir.
Proof. unfold plan_dir. now intros ->. Qed.

Lemma outer_loop_plan dirs st :
  NoDup dirs ->
  listing_wf (st_files2 st) ->
  for_each dirs (dir_step args files1) st
  = with_files2 (pops dirs (st_files2 st))
                (run args (flat_map (plan_dir files1 (st_files2 st)) dirs) st).
Proof.
  intros Hnd. revert st.
  induction Hnd as [|dir dirs Hnotin Hnd IH]; intros st Hwf.
  - simpl. symmetry. apply with_files2_same.
  - change (for_each (dir :: dirs) (dir_step args files1) st)
      with (for_each dirs (dir_step args files1) (dir_step args files1 dir st)).
    rewrite dir_step_plan by assumption.
    rewrite IH by (simpl; now apply listing_wf_pop).
    simpl st_files2. rewrite run_files2, with_files2_idem.
    simpl flat_map. rewrite run_app. f_equal. f_equal.
    apply flat_map_ext_in. intros d Hd. apply plan_dir_ext.
    apply get_pop_other. intros ->. contradiction.
Qed.

Lemma final_loop_plan dirs st :
  for_each dirs (leftover_dir_step args) st
  = run args (map (fun d => DirOnlyRight d (List.length (Py.getitem d (st_files2 st) [])))
             dirs) st.
Proof.
  revert st. induction dirs as [|d dirs IH]; intros st; [reflexivity|].
  change (for_each (d :: dirs) (leftover_dir_step args) st)
    with (for_each dirs (leftover_dir_step args) (leftover_dir_step args d st)).
  rewrite IH. simpl map. rewrite run_cons.
  assert (E : leftover_dir_step args d st
              = perform args (DirOnlyRight d (List.length (Py.getitem d (st_files2 st) []))) st)
    by (unfold leftover_dir_step, perform; now destruct (args_images args)).
  rewrite E, perform_keeps_files2. reflexivity.
Qed.

(** The loops of [main] carry out [plan], action by action. *)
Theorem reconcile_plan files2 w :
  listing_wf files2 ->
  reconcile args files1 files2 w
  = with_files2 (pops (keys files1) files2)
                (run args (plan files1 files2) (initial w files2)).
Proof.
  intros Hwf2. unfold reconcile, reconcile_left, reconcile_right.
  rewrite outer_loop_plan by (try apply files1_wf; assumption).
  simpl st_files2. rewrite final_loop_plan. simpl st_files2.
  rewrite run_files2. unfold plan. rewrite run_app.
  f_equal. f_equal.
  rewrite keys_pops by apply Hwf2.
  assert (Hmem : forall d, negb (existsb (String.eqb d) (keys files1))
                           = negb (Py.mem d files1)).
  { intros d. f_equal. destruct (Py.mem d files1) eqn:E.
    - apply existsb_eqb_iff. now apply mem_iff.
    - apply mem_false_iff in E. apply not_true_is_false. now rewrite existsb_eqb_iff. }
  rewrite (filter_ext _ _ Hmem).
  apply map_ext_in. intros d Hd. apply filter_In in Hd. destruct Hd as [_ Hd].
  apply negb_true_iff, mem_false_iff in Hd.
  unfold Py.getitem. now rewrite get_pops_other.
Qed.

End Plan.

(* ===================================================================== *)
(** * What an action adds to the state *)
(* ===================================================================== *)

Lemma stats_add_zero_r (s : Stats) : stats_add s stats_zero = s.
Proof. destruct s. unfold stats_add. simpl. now rewrite !Nat.add_0_r. Qed.

Lemma stats_add_assoc (a b c : Stats) :
  stats_add (stats_add a b) c = stats_add a (stats_add b c).
Proof. unfold stats_add. simpl. now rewrite !Nat.add_assoc. Qed.

Section Effects.

Context {OS : Os}.
Variable args : Args.

Lemma absorb_blank st : absorb st (blank (st_os st)) = st.
Proof.
  unfold absorb, blank. simpl. rewrite app_nil_r, stats_add_zero_r. now destruct st.
Qed.

Lemma absorb_assoc st d e : absorb (absorb st d) e = absorb st (absorb d e).
Proof.
  unfold absorb. simpl. rewrite app_assoc, stats_add_assoc.
  destruct (Nat.eqb (st_ret e) 0) eqn:E; [reflexivity | now rewrite E].
Qed.

Lemma perform_absorb a st :
  perform args a st = absorb st (perform args a (blank (st_os st))).
Proof.
  unfold perform, run_diffoscope, count, write, set_ret, with_os, absorb, blank,
    sys_diffoscope.
  destruct (args_images args) as [image1 image2].
  destruct a; simpl; break_ifs; simpl;
    rewrite ?app_nil_r, ?stats_add_zero_r, <- ?app_assoc; try reflexivity;
    now destruct st.
Qed.

Lemma run_absorb acts st :
  run args acts st = absorb st (run args acts (blank (st_os st))).
Proof.
  revert st. induction acts as [|a acts IH]; intros st.
  - simpl. symmetry. apply absorb_blank.
  - rewrite !run_cons.
    rewrite (IH (perform args a st)), (IH (perform args a (blank (st_os st)))).
    rewrite (perform_absorb a st).
    set (p := perform args a (blank (st_os st))).
    change (st_os (absorb st p)) with (st_os p).
    apply absorb_assoc.
Qed.

Lemma ret_perform a st :
  st_ret (perform args a st) = st_ret st \/ st_ret (perform args a st) = 1.
Proof.
  unfold perform, run_diffoscope, count, write, set_ret, with_os, sys_diffoscope.
  destruct (args_images args) as [image1 image2].
  destruct a; simpl; break_ifs; simpl; auto.
Qed.

Lemma ret_sticky acts st : st_ret st = 1 -> st_ret (run args acts st) = 1.
Proof.
  revert st. induction acts as [|a acts IH]; intros st H; [assumption|].
  rewrite run_cons. apply IH. destruct (ret_perform a st); congruence.
Qed.

Lemma perform_quiet a st :
  quiet a = true ->
  perform args a st
  = mkState (st_os st)
            (st_written st ++ [(output_handle args, quiet_line args a)])
            (if args_stats args then stats_add (st_stats st) (quiet_count a)
             else st_stats st)
            1 (st_files2 st).
Proof.
  unfold perform, quiet_line, count, write, set_ret.
  destruct (args_images args) as [image1 image2].
  destruct a; simpl; try discriminate; intros _;
    destruct (args_stats args); reflexivity.
Qed.

(** One more quiet action in a run: the same requests to the system, the
    same lines around one more line, the counters raised by what the
    action counts, and [ret = 1]. *)
Lemma run_insert_quiet before a after st :
  quiet a = true ->
  let base := run args (before ++ after) st in
  let more := run args (before ++ a :: after) st in
  st_os more = st_os base
  /\ (exists w1 w2,
         st_written base = w1 ++ w2
         /\ st_written more = w1 ++ (output_handle args, quiet_line args a) :: w2)
  /\ st_stats more
     = (if args_stats args then stats_add (st_stats base) (quiet_count a)
        else st_stats base)
  /\ st_ret more = 1.
Proof.
  intros Hq base more. subst base more.
  rewrite !run_app, run_cons.
  set (s1 := run args before st).
  rewrite (run_absorb after s1), (run_absorb after (perform args a s1)).
  rewrite (perform_quiet a s1 Hq) at 2. simpl st_os.
  set (d := run args after (blank (st_os s1))).
  repeat split.
  - exists (st_written s1), (st_written d). split; [reflexivity|].
    unfold absorb. simpl. rewrite (perform_quiet a s1 Hq). simpl.
    now rewrite <- app_assoc.
  - unfold absorb. simpl. rewrite (perform_quiet a s1 Hq). simpl.
    destruct (args_stats args); [|reflexivity].
    rewrite !stats_add_assoc. f_equal.
    unfold stats_add. simpl. f_equal; apply Nat.add_comm.
  - rewrite <- run_absorb. apply ret_sticky.
    rewrite (perform_quiet a s1 Hq). reflexivity.
Qed.

End Effects.

(* ===================================================================== *)
(** * Facts about [sha256sum] and [compare_files] *)
(* ===================================================================== *)

Section HashFacts.

Context {OS : Os}.

(** With a positive block size the loop feeds the whole file, in order. *)
Lemma read_loop_all block_size rest fed :
  0 < block_size -> read_loop block_size rest fed = fed ++ rest.
Proof.
  intros Hpos. funelim (read_loop block_size rest fed).
  - destruct block_size as [|n]; [lia|]. destruct rest; [|discriminate].
    now rewrite app_nil_r.
  - rewrite H by assumption. rewrite <- app_assoc. f_equal.
    rewrite <- Hread. apply firstn_skipn.
Qed.

Lemma default_block_size_positive : 0 < 65536.
Proof. apply Nat.ltb_lt. vm_compute. reflexivity. Qed.

Lemma sha256sum_readable filename block_size retry s data :
  os_open_read (os_world s) filename = Some data ->
  sha256sum filename block_size retry s
  = (Ok (sha256_hex (read_loop block_size data [])), logged (SysOpen filename) s).
Proof.
  intros H. simp sha256sum. unfold sys_open. rewrite H. reflexivity.
Qed.

Lemma sha256sum_no_retry filename block_size s :
  os_open_read (os_world s) filename = None ->
  sha256sum filename block_size false s
  = (Raise PermissionError, logged (SysOpen filename) s).
Proof.
  intros H. simp sha256sum. unfold sys_open. rewrite H. reflexivity.
Qed.

End HashFacts.

Section CompareFacts.

Context {OS : Os}.

Lemma compare_files_links path1 path2 s :
  is_link (os_world s) path1 || is_link (os_world s) path2 = true ->
  exists calls,
    compare_files path1 path2 s
    = (Ok (match os_link (os_world s) path1, os_link (os_world s) path2 with
           | Some t1, Some t2 => String.eqb t1 t2
           | _, _ => false
           end),
       mkOs (os_world s) (os_trace s ++ calls))
    /\ forallb link_request calls = true.
Proof.
  unfold is_link, compare_files, sys_islink, sys_readlink, logged. simpl.
  destruct (os_link (os_world s) path1) as [t1|] eqn:E1;
    destruct (os_link (os_world s) path2) as [t2|] eqn:E2;
    simpl; try discriminate; intros _;
    rewrite ?E1, ?E2; simpl; rewrite ?E1, ?E2; simpl;
    try destruct (String.eqb t1 t2); simpl;
    rewrite <- ?app_assoc; simpl;
    eexists; (split; [reflexivity | reflexivity]).
Qed.

Lemma compare_files_same_content path1 path2 s data :
  os_link (os_world s) path1 = None ->
  os_link (os_world s) path2 = None ->
  os_open_read (os_world s) path1 = Some data ->
  os_open_read (os_world s) path2 = Some data ->
  exists calls,
    compare_files path1 path2 s = (Ok true, mkOs (os_world s) (os_trace s ++ calls)).
Proof.
  intros L1 L2 R1 R2.
  unfold compare_files, sys_islink. simpl. rewrite L1, L2. simpl.
  rewrite (sha256sum_readable path1 65536 true _ data) by exact R1.
  rewrite (sha256sum_readable path2 65536 true _ data) by exact R2.
  rewrite String.eqb_refl. simpl. unfold logged. simpl.
  rewrite <- !app_assoc. simpl. eexists. reflexivity.
Qed.

End CompareFacts.

(* ===================================================================== *)
(** * Properties of the script *)
(* ===================================================================== *)

(** ** Statistics on nothing *)

(** Whenever the four file counters are all zero, printing the statistics
    stops at the first share with [ZeroDivisionError]. *)
Lemma write_stats_zero_total {OS : Os} (args : Args) (st : state) :
  args_stats args = true ->
  file_total (st_stats st) = 0 ->
  fst (write_stats args st) = Raise ZeroDivisionError.
Proof.
  unfold write_stats, file_total. intros -> H.
  destruct (args_images args) as [image1 image2]. now rewrite H.
Qed.

(** With at least one file counted, or without [-s], the statistics block
    raises nothing and leaves [ret] alone. *)
Lemma write_stats_returns {OS : Os} (args : Args) (st : state) :
  args_stats args = false \/ file_total (st_stats st) <> 0 ->
  fst (write_stats args st) = Ok tt
  /\ st_ret (snd (write_stats args st)) = st_ret st.
Proof.
  unfold write_stats, file_total. intros H.
  destruct (args_stats args); [|split; reflexivity].
  destruct H as [H|H]; [discriminate|].
  destruct (args_images args) as [image1 image2]. unfold truediv.
  destruct (stat_match (st_stats st) + stat_missmatch (st_stats st)
            + stat_missing1 (st_stats st) + stat_missing2 (st_stats st));
    [contradiction | split; reflexivity].
Qed.

(** C1 (the script fails where the claim asks for a guard).  With [-s] and
    two trees that hold no file, [main] writes the header and the total and
    then raises [ZeroDivisionError] at line 192; the handler at the bottom of
    the script turns that into exit status 1, although [ret] was 0. *)
Theorem stats_of_empty_trees_raise :
  let args := mkArgs ("A", "B") false None true false in
  let run := main (OS := Toy.os) args "A" "B" (Dir []) (Dir []) [] in
  fst run = Raise ZeroDivisionError
  /\ st_written (snd run) = [(Stdout, StatsHeader); (Stdout, StatsTotal 0)]
  /\ st_ret (snd run) = 0
  /\ exit_status (fst run) = 1.
Proof. vm_compute. repeat split. Qed.

(** ** A file that cannot be read *)

(** C2 (the script counts what it could not compare).  [a.txt] is in both
    trees and unreadable on both sides, and the user may not [chmod] it:
    [sha256sum] raises [PermissionError], [main] writes the "cannot compare"
    line and leaves [ret] at 0, as the claim says, but [match] is still
    [True] and, with [-s], [stats['match']] goes up by one. *)
Theorem unreadable_file_counts_as_match :
  let args := mkArgs ("A", "B") false None true false in
  let disk := [("A/a.txt", Toy.unreadable "hello");
               ("B/a.txt", Toy.unreadable "hello")] in
  let run := main (OS := Toy.os) args "A" "B"
                  (Dir [("a.txt", File)]) (Dir [("a.txt", File)]) disk in
  fst run = Ok 0
  /\ In (Stderr, PermissionErrorLine "." "a.txt") (st_written (snd run))
  /\ stat_match (st_stats (snd run)) = 1
  /\ stat_missmatch (st_stats (snd run)) = 0.
Proof. vm_compute. repeat split. now left. Qed.

(** ** Symbolic links *)



(** ** One retry, no more *)

(** C8.  [sha256sum(filename)] opens the file.  If that is refused, it
    reads the mode and asks once for [mode | S_IRUSR]; if the system grants
    it, the file is opened a second and last time, and what that attempt
    gives is the result: the digest of the whole file, or
    [PermissionError].  If the mode cannot be read or changed, that error
    is the result and the file is not opened again.  In every case the
    file is opened at most twice and [chmod] is called at most once. *)
Theorem sha256sum_retries_once {OS : Os} (filename : string) (block_size : nat)
        (s : os_state) :
  0 < block_size ->
  exists calls,
    os_trace (snd (sha256sum filename block_size true s)) = os_trace s ++ calls
    /\ List.length (filter open_request calls) <= 2
    /\ List.length (filter chmod_request calls) <= 1
    /\ match os_open_read (os_world s) filename with
       | Some data =>
           calls = [SysOpen filename]
           /\ os_world (snd (sha256sum filename block_size true s)) = os_world s
           /\ fst (sha256sum filename block_size true s) = Ok (sha256_hex data)
       | None =>
           match os_stat_mode (os_world s) filename with
           | None =>
               calls = [SysOpen filename; SysStat filename]
               /\ fst (sha256sum filename block_size true s) = Raise PermissionError
           | Some st_mode =>
               match os_chmod (os_world s) filename (N.lor st_mode S_IRUSR) with
               | None =>
                   calls = [SysOpen filename; SysStat filename;
                            SysChmod filename (N.lor st_mode S_IRUSR)]
                   /\ fst (sha256sum filename block_size true s)
                      = Raise PermissionError
               | Some granted =>
                   calls = [SysOpen filename; SysStat filename;
                            SysChmod filename (N.lor st_mode S_IRUSR);
                            SysOpen filename]
                   /\ os_world (snd (sha256sum filename block_size true s)) = granted
                   /\ fst (sha256sum filename block_size true s)
                      = match os_open_read granted filename with
                        | Some data => Ok (sha256_hex data)
                        | None => Raise PermissionError
                        end
               end
           end
       end.
Proof.
  intros Hpos.
  destruct (os_open_read (os_world s) filename) as [data|] eqn:Hopen.
  - rewrite (sha256sum_readable filename block_size true s data Hopen).
    rewrite read_loop_all by assumption.
    exists [SysOpen filename]. simpl. repeat split; lia.
  - simp sha256sum. unfold sys_open. rewrite Hopen. simpl.
    unfold sys_stat. simpl.
    destruct (os_stat_mode (os_world s) filename) as [st_mode|] eqn:Hstat; simpl.
    + unfold sys_chmod. simpl.
      destruct (os_chmod (os_world s) filename (N.lor st_mode S_IRUSR))
        as [granted|] eqn:Hchmod; simpl.
      * destruct (os_open_read granted filename) as [data|] eqn:Hagain.
        -- rewrite (sha256sum_readable filename 65536 false _ data) by exact Hagain.
           rewrite read_loop_all by exact default_block_size_positive.
           eexists. simpl. rewrite <- !app_assoc. simpl.
           repeat split; simpl; lia.
        -- rewrite sha256sum_no_retry by exact Hagain.
           eexists. simpl. rewrite <- !app_assoc. simpl.
           repeat split; simpl; lia.
      * eexists. simpl. rewrite <- !app_assoc. simpl. repeat split; simpl; lia.
    + eexists. simpl. rewrite <- !app_assoc. simpl. repeat split; simpl; lia.
Qed.

(** A file whose owner bit is missing and that the user may [chmod]: the
    second attempt succeeds. *)
Lemma sha256sum_retries_once_witness :
  let s := mkOs (OS := Toy.os)
                [("f", Toy.mkFile None (list_byte_of_string "hello") 0 true false)] [] in
  0 < 4
  /\ os_trace (snd (sha256sum "f" 4 true s))
     = [SysOpen "f"; SysStat "f"; SysChmod "f" 256; SysOpen "f"]
  /\ fst (sha256sum "f" 4 true s) = Ok "hello".
Proof.
  intros s. split; [lia|].
  destruct (sha256sum_retries_once (OS := Toy.os) "f" 4 s) as [calls [Ht [_ [_ H]]]];
    [lia|].
  simpl in H. destruct H as [-> [_ Hr]]. split; [exact Ht | exact Hr].
Defined.

(** ** Identical trees *)

Section Identical.

Context {OS : Os}.
Variable args : Args.
Variable w : world.

Lemma compare_files_same_entry path1 path2 s :
  same_entry (os_world s) path1 path2 ->
  exists calls,
    compare_files path1 path2 s = (Ok true, mkOs (os_world s) (os_trace s ++ calls)).
Proof.
  unfold same_entry. intros H.
  destruct (os_link (os_world s) path1) as [t1|] eqn:E1;
    destruct (os_link (os_world s) path2) as [t2|] eqn:E2; try contradiction.
  - destruct (compare_files_links path1 path2 s) as [calls [E _]].
    { unfold is_link. now rewrite E1. }
    exists calls. rewrite E, E1, E2. subst. now rewrite String.eqb_refl.
  - destruct H as [data [R1 R2]].
    now apply compare_files_same_content with (data := data).
Qed.

Lemma perform_clean a st : matching w a -> clean w st -> clean w (perform args a st).
Proof.
  destruct a; simpl; try contradiction.
  intros Hsame (Hw & Hwr & Hret & H1 & H2 & H3 & H4 & H5).
  rewrite <- Hw in Hsame.
  destruct (compare_files_same_entry path1 path2 (st_os st) Hsame) as [calls E].
  unfold perform. destruct (args_images args) as [image1 image2]. rewrite E.
  unfold count, with_os, clean.
  destruct (args_stats args); simpl; repeat split; try assumption; lia.
Qed.

Lemma run_clean acts st : Forall (matching w) acts -> clean w st -> clean w (run args acts st).
Proof.
  intros H. revert st. induction H as [|a acts Ha _ IH]; intros st Hst; [assumption|].
  rewrite run_cons. apply IH. now apply perform_clean.
Qed.

End Identical.

Lemma filter_none {A} (p : A -> bool) (l : list A) :
  (forall x, In x l -> p x = false) -> filter p l = [].
Proof.
  induction l as [|x l IH]; simpl; intros H; [reflexivity|].
  rewrite H by now left. apply IH. intros y Hy. apply H. now right.
Qed.

Lemma plan_of_identical {OS : Os} (w : world) (files1 files2 : dict (dict string)) :
  identical w files1 files2 ->
  Forall (matching w) (plan files1 files2).
Proof.
  intros (Hdirs & Hfiles & Hsame). unfold plan. apply Forall_app. split.
  - apply Forall_forall. intros a Ha. apply in_flat_map in Ha.
    destruct Ha as [d [Hd Ha]]. unfold plan_dir in Ha.
    apply mem_iff in Hd. rewrite Hdirs in Hd. apply mem_get in Hd.
    destruct Hd as [files2_dir Hd]. rewrite Hd in Ha.
    assert (E2 : Py.getitem d files2 [] = files2_dir) by now apply getitem_get.
    apply in_app_or in Ha. destruct Ha as [Ha|Ha].
    + apply in_map_iff in Ha. destruct Ha as [f [<- Hf]].
      apply mem_iff in Hf. pose proof Hf as Hf1. apply mem_get in Hf1.
      destruct Hf1 as [path1 Hp1].
      rewrite Hfiles, E2 in Hf. apply mem_get in Hf. destruct Hf as [path2 Hp2].
      unfold file_action. rewrite Hp2. simpl.
      rewrite (getitem_get _ _ _ _ Hp1). apply (Hsame d f); [assumption|].
      now rewrite E2.
    + rewrite filter_none in Ha; [destruct Ha|].
      intros f Hf. apply mem_iff in Hf. rewrite <- E2, <- Hfiles in Hf.
      now rewrite Hf.
  - rewrite filter_none; [constructor|].
    intros d Hd. apply mem_iff in Hd. rewrite <- Hdirs in Hd. now rewrite Hd.
Qed.

(** ** Every file once, every directory once *)

Lemma list_sum_flat_map {A B} (wt : B -> nat) (f : A -> list B) (l : list A) :
  list_sum (map wt (flat_map f l)) = list_sum (map (fun x => list_sum (map wt (f x))) l).
Proof.
  induction l as [|x l IH]; simpl; [reflexivity|].
  now rewrite map_app, list_sum_app, IH.
Qed.

Lemma length_filter_flat_map {A B} (p : B -> bool) (f : A -> list B) (l : list A) :
  List.length (filter p (flat_map f l))
  = list_sum (map (fun x => List.length (filter p (f x))) l).
Proof.
  induction l as [|x l IH]; simpl; [reflexivity|].
  now rewrite filter_app, length_app, IH.
Qed.

Lemma list_sum_indicator {A} (p : A -> bool) (l : list A) :
  list_sum (map (fun x => if p x then 1 else 0) l) = List.length (filter p l).
Proof.
  induction l as [|x l IH]; simpl; [reflexivity|]. destruct (p x); simpl; now rewrite IH.
Qed.

Lemma list_sum_zero {A} (f : A -> nat) (l : list A) :
  (forall x, In x l -> f x = 0) -> list_sum (map f l) = 0.
Proof.
  induction l as [|x l IH]; simpl; intros H; [reflexivity|].
  rewrite H by now left. apply IH. intros y Hy. apply H. now right.
Qed.

Lemma list_sum_ext_in {A} (f g : A -> nat) (l : list A) :
  (forall x, In x l -> f x = g x) -> list_sum (map f l) = list_sum (map g l).
Proof. intros H. f_equal. now apply map_ext_in. Qed.

Lemma list_sum_split {A} (p : A -> bool) (f : A -> nat) (l : list A) :
  list_sum (map f l)
  = list_sum (map f (filter p l)) + list_sum (map f (filter (fun x => negb (p x)) l)).
Proof.
  induction l as [|x l IH]; simpl; [reflexivity|].
  destruct (p x); simpl; rewrite IH; lia.
Qed.

Lemma list_sum_perm (l l' : list nat) : Permutation l l' -> list_sum l = list_sum l'.
Proof. induction 1; simpl; lia. Qed.

Lemma list_sum_filter_indicator {A} (p : A -> bool) (f : A -> nat) (l : list A) :
  list_sum (map (fun x => if p x then f x else 0) l) = list_sum (map f (filter p l)).
Proof.
  induction l as [|x l IH]; simpl; [reflexivity|]. destruct (p x); simpl; now rewrite IH.
Qed.

Lemma filter_map_pair {A B} (p : A * B -> bool) (a : A) (l : list B) :
  List.length (filter p (map (pair a) l))
  = List.length (filter (fun b => p (a, b)) l).
Proof.
  induction l as [|b l IH]; simpl; [reflexivity|]. destruct (p (a, b)); simpl; now rewrite IH.
Qed.

Lemma keys_length {V} (d : dict V) : List.length (keys d) = List.length d.
Proof. apply length_map. Qed.

Section PlanCounts.

Variables files1 files2 : dict (dict string).

Lemma file_action_both dir files2_dir f :
  weight_both (file_action files1 dir files2_dir f)
  = if Py.mem f files2_dir then 1 else 0.
Proof. unfold file_action, Py.mem. now destruct (Py.get f files2_dir). Qed.

Lemma file_action_left dir files2_dir f :
  weight_left (file_action files1 dir files2_dir f)
  = if negb (Py.mem f files2_dir) then 1 else 0.
Proof. unfold file_action, Py.mem. now destruct (Py.get f files2_dir). Qed.

Lemma plan_dir_both dir :
  list_sum (map weight_both (plan_dir files1 files2 dir))
  = List.length (filter (fun f => has files2 (dir, f)) (keys (Py.getitem dir files1 []))).
Proof.
  unfold plan_dir, has, Py.getitem. simpl.
  destruct (Py.get dir files2) as [files2_dir|].
  - rewrite map_app, list_sum_app, !map_map.
    rewrite (list_sum_zero (fun x => weight_both (OnlyRight dir x))) by reflexivity.
    rewrite Nat.add_0_r, <- list_sum_indicator.
    apply list_sum_ext_in. intros f _. apply file_action_both.
  - simpl. symmetry. rewrite filter_none; reflexivity.
Qed.

Lemma plan_dir_left dir :
  list_sum (map weight_left (plan_dir files1 files2 dir))
  = List.length (filter (fun f => negb (has files2 (dir, f)))
                        (keys (Py.getitem dir files1 []))).
Proof.
  unfold plan_dir, has, Py.getitem. simpl.
  destruct (Py.get dir files2) as [files2_dir|].
  - rewrite map_app, list_sum_app, !map_map.
    rewrite (list_sum_zero (fun x => weight_left (OnlyRight dir x))) by reflexivity.
    rewrite Nat.add_0_r, <- list_sum_indicator.
    apply list_sum_ext_in. intros f _. apply file_action_left.
  - simpl. rewrite Nat.add_0_r. rewrite forallb_filter_id.
    + symmetry. apply keys_length.
    + apply forallb_forall. reflexivity.
Qed.

Lemma plan_dir_right dir :
  list_sum (map weight_right (plan_dir files1 files2 dir))
  = if Py.mem dir files2
    then List.length (filter (fun f => negb (has files1 (dir, f)))
                             (keys (Py.getitem dir files2 [])))
    else 0.
Proof.
  unfold plan_dir, has, Py.mem, Py.getitem. simpl.
  destruct (Py.get dir files2) as [files2_dir|]; [|reflexivity].
  rewrite map_app, list_sum_app, !map_map.
  rewrite (list_sum_zero (fun x => weight_right (file_action files1 dir files2_dir x))).
  - simpl. rewrite <- (length_map (fun _ => 1)) at 1.
    generalize (filter
       (fun f : string =>
          negb match Py.get f match Py.get dir files1 with
                              | Some v => v
                              | None => []
                              end with
               | Some _ => true
               | None => false
               end) (keys files2_dir)).
    intros l. induction l as [|x l IH]; simpl; [reflexivity | now rewrite IH].
  - intros f _. unfold file_action. now destruct (Py.get f files2_dir).
Qed.

Lemma plan_dir_dir_left dir :
  list_sum (map weight_dir_left (plan_dir files1 files2 dir))
  = if negb (Py.mem dir files2) then 1 else 0.
Proof.
  unfold plan_dir, Py.mem.
  destruct (Py.get dir files2) as [files2_dir|]; [|reflexivity].
  apply list_sum_zero. intros a Ha. apply in_app_or in Ha. destruct Ha as [Ha|Ha];
    apply in_map_iff in Ha; destruct Ha as [f [<- _]]; [|reflexivity].
  unfold file_action. now destruct (Py.get f files2_dir).
Qed.

Lemma plan_dir_dir_right dir :
  list_sum (map weight_dir_right (plan_dir files1 files2 dir)) = 0.
Proof.
  unfold plan_dir.
  destruct (Py.get dir files2) as [files2_dir|]; [|reflexivity].
  apply list_sum_zero. intros a Ha. apply in_app_or in Ha. destruct Ha as [Ha|Ha];
    apply in_map_iff in Ha; destruct Ha as [f [<- _]]; [|reflexivity].
  unfold file_action. now destruct (Py.get f files2_dir).
Qed.

Lemma plan_sum (wt : action -> nat) :
  list_sum (map wt (plan files1 files2))
  = list_sum (map (fun d => list_sum (map wt (plan_dir files1 files2 d))) (keys files1))
    + list_sum (map (fun d => wt (DirOnlyRight d (List.length (Py.getitem d files2 []))))
                    (dirs_only_in files2 files1)).
Proof.
  unfold plan. now rewrite map_app, list_sum_app, list_sum_flat_map, map_map.
Qed.

Lemma length_entries_filter (p : string * string -> bool) (files : dict (dict string)) :
  List.length (filter p (entries files))
  = list_sum (map (fun d => List.length (filter (fun f => p (d, f))
                                                (keys (Py.getitem d files []))))
                  (keys files)).
Proof.
  unfold entries. rewrite length_filter_flat_map.
  apply list_sum_ext_in. intros d _. apply filter_map_pair.
Qed.

Lemma plan_both :
  list_sum (map weight_both (plan files1 files2)) = List.length (on_both files1 files2).
Proof.
  rewrite plan_sum. rewrite (list_sum_zero (fun d => weight_both _)) by reflexivity.
  rewrite Nat.add_0_r. unfold on_both. rewrite length_entries_filter.
  apply list_sum_ext_in. intros d _. apply plan_dir_both.
Qed.

Lemma plan_left :
  list_sum (map weight_left (plan files1 files2)) = List.length (only_in files1 files2).
Proof.
  rewrite plan_sum. rewrite (list_sum_zero (fun d => weight_left _)) by reflexivity.
  rewrite Nat.add_0_r. unfold only_in. rewrite length_entries_filter.
  apply list_sum_ext_in. intros d _. apply plan_dir_left.
Qed.

Lemma plan_dir_left_total :
  list_sum (map weight_dir_left (plan files1 files2))
  = List.length (dirs_only_in files1 files2).
Proof.
  rewrite plan_sum. rewrite (list_sum_zero (fun d => weight_dir_left _)) by reflexivity.
  rewrite Nat.add_0_r. unfold dirs_only_in. rewrite <- list_sum_indicator.
  apply list_sum_ext_in. intros d _. apply plan_dir_dir_left.
Qed.

Lemma plan_dir_right_total :
  list_sum (map weight_dir_right (plan files1 files2))
  = List.length (dirs_only_in files2 files1).
Proof.
  rewrite plan_sum. rewrite (list_sum_zero (fun d => list_sum _)).
  - simpl. rewrite <- (length_map (fun _ => 1)).
    generalize (dirs_only_in files2 files1). intros l.
    induction l as [|x l IH]; simpl; [reflexivity | now rewrite IH].
  - intros d _. apply plan_dir_dir_right.
Qed.

End PlanCounts.

Lemma common_keys_perm {V} (a b : dict V) :
  wf a -> wf b ->
  Permutation (filter (fun k => Py.mem k b) (keys a))
              (filter (fun k => Py.mem k a) (keys b)).
Proof.
  intros Ha Hb. apply NoDup_Permutation.
  - now apply NoDup_filter.
  - now apply NoDup_filter.
  - intros k. rewrite !filter_In, !mem_iff. tauto.
Qed.

Lemma plan_right (files1 files2 : dict (dict string)) :
  wf files1 -> wf files2 ->
  list_sum (map weight_right (plan files1 files2))
  = List.length (only_in files2 files1).
Proof.
  intros Hwf1 Hwf2.
  set (g := fun d => List.length (filter (fun f => negb (has files1 (d, f)))
                                         (keys (Py.getitem d files2 [])))).
  rewrite plan_sum. unfold only_in. rewrite length_entries_filter. fold g.
  rewrite (list_sum_split (fun d => Py.mem d files1) g (keys files2)).
  f_equal.
  - rewrite (list_sum_ext_in _ (fun d => if Py.mem d files2 then g d else 0))
      by (intros d _; apply plan_dir_right).
    rewrite list_sum_filter_indicator.
    apply list_sum_perm, Permutation_map. now apply common_keys_perm.
  - apply list_sum_ext_in. intros d Hd. unfold dirs_only_in in Hd.
    apply filter_In in Hd. destruct Hd as [_ Hd]. apply negb_true_iff in Hd.
    simpl. unfold g, has. simpl.
    unfold Py.mem in Hd. unfold Py.getitem at 2.
    destruct (Py.get d files1); [discriminate|].
    rewrite forallb_filter_id by (apply forallb_forall; reflexivity).
    symmetry. apply keys_length.
Qed.

Section Tally.

Context {OS : Os}.
Variable args : Args.
Hypothesis stats_on : args_stats args = true.

Lemma run_measure (m : Stats -> nat) (wt : action -> nat) :
  (forall a st, m (st_stats (perform args a st)) = m (st_stats st) + wt a) ->
  forall acts st,
    m (st_stats (run args acts st)) = m (st_stats st) + list_sum (map wt acts).
Proof.
  intros Hstep acts. induction acts as [|a acts IH]; intros st.
  - simpl. now rewrite Nat.add_0_r.
  - rewrite run_cons, IH, Hstep. simpl. lia.
Qed.

Ltac tally :=
  intros a st;
  unfold perform, run_diffoscope, count, write, set_ret, with_os, sys_diffoscope;
  rewrite stats_on;
  destruct (args_images args) as [image1 image2];
  destruct a; simpl; break_ifs; simpl; lia.

Lemma perform_both a st :
  stat_match (st_stats (perform args a st)) + stat_missmatch (st_stats (perform args a st))
  = stat_match (st_stats st) + stat_missmatch (st_stats st) + weight_both a.
Proof. revert a st. tally. Qed.

Lemma perform_left a st :
  stat_missing1 (st_stats (perform args a st)) = stat_missing1 (st_stats st) + weight_left a.
Proof. revert a st. tally. Qed.

Lemma perform_right a st :
  stat_missing2 (st_stats (perform args a st)) = stat_missing2 (st_stats st) + weight_right a.
Proof. revert a st. tally. Qed.

Lemma perform_dir_left a st :
  stat_dir_missing1 (st_stats (perform args a st))
  = stat_dir_missing1 (st_stats st) + weight_dir_left a.
Proof. revert a st. tally. Qed.

Lemma perform_dir_right a st :
  stat_dir_missing2 (st_stats (perform args a st))
  = stat_dir_missing2 (st_stats st) + weight_dir_right a.
Proof. revert a st. tally. Qed.

(** The counters after the loops, when [-s] is given. *)
Lemma reconcile_counts files1 files2 w :
  listing_wf files1 -> listing_wf files2 ->
  let s := st_stats (reconcile args files1 files2 w) in
  stat_match s + stat_missmatch s = List.length (on_both files1 files2)
  /\ stat_missing1 s = List.length (only_in files1 files2)
  /\ stat_missing2 s = List.length (only_in files2 files1)
  /\ stat_dir_missing1 s = List.length (dirs_only_in files1 files2)
  /\ stat_dir_missing2 s = List.length (dirs_only_in files2 files1).
Proof.
  intros Hwf1 Hwf2. simpl.
  rewrite (reconcile_plan args files1 Hwf1 files2 w Hwf2). simpl st_stats.
  repeat split.
  - rewrite (run_measure (fun s => stat_match s + stat_missmatch s) weight_both)
      by apply perform_both.
    simpl. apply plan_both.
  - rewrite (run_measure stat_missing1 weight_left) by apply perform_left.
    simpl. apply plan_left.
  - rewrite (run_measure stat_missing2 weight_right) by apply perform_right.
    simpl. apply plan_right; [apply Hwf1 | apply Hwf2].
  - rewrite (run_measure stat_dir_missing1 weight_dir_left) by apply perform_dir_left.
    simpl. apply plan_dir_left_total.
  - rewrite (run_measure stat_dir_missing2 weight_dir_right) by apply perform_dir_right.
    simpl. apply plan_dir_right_total.
Qed.

End Tally.

(** Without [-s] no counter ever moves. *)
Lemma reconcile_counts_off {OS : Os} (args : Args) files1 files2 w :
  args_stats args = false ->
  st_stats (reconcile args files1 files2 w) = stats_zero.
Proof.
  intros Hoff. unfold reconcile, reconcile_right, reconcile_left.
  assert (Hcount : forall d st, count args d st = st)
    by (intros; unfold count; now rewrite Hoff).
  assert (Hfile : forall d f st,
             st_stats (file_step args files1 d f st) = st_stats st).
  { intros d f st. unfold file_step, run_diffoscope, count, write, set_ret, with_os,
      with_files2, sys_diffoscope.
    rewrite Hoff. destruct (args_images args). simpl.
    break_ifs; reflexivity. }
  assert (Hloop : forall {A} (body : A -> state -> state) xs st,
             (forall x st, st_stats (body x st) = st_stats st) ->
             st_stats (for_each xs body st) = st_stats st).
  { intros A body xs. induction xs as [|x xs IH]; intros st Hb; [reflexivity|].
    change (for_each (x :: xs) body st) with (for_each xs body (body x st)).
    rewrite IH by assumption. apply Hb. }
  rewrite Hloop.
  - rewrite Hloop; [reflexivity|].
    intros d st. unfold dir_step. destruct (args_images args).
    destruct (Py.mem d (st_files2 st)).
    + simpl. rewrite Hloop.
      * rewrite Hloop; [reflexivity|]. intros f st'. apply Hfile.
      * intros f st'. unfold leftover_file_step. destruct (args_images args).
        now rewrite Hcount.
    + now rewrite Hcount.
  - intros d st. unfold leftover_dir_step. destruct (args_images args).
    now rewrite Hcount.
Qed.

Lemma in_entries (files : dict (dict string)) (d f : string) :
  In (d, f) (entries files) <-> has files (d, f) = true.
Proof.
  unfold entries, has. simpl. rewrite in_flat_map, mem_iff. split.
  - intros [d' [_ Hf]]. apply in_map_iff in Hf. destruct Hf as [f' [[= -> ->] Hf]].
    assumption.
  - intros Hf. exists d. split.
    + unfold Py.getitem in Hf. destruct (Py.get d files) eqn:E; [|destruct Hf].
      eapply get_in_keys; eauto.
    + apply in_map_iff. now exists f.
Qed.

Lemma entries_nodup (files : dict (dict string)) :
  listing_wf files -> NoDup (entries files).
Proof.
  intros [Hwf Hin]. unfold entries.
  assert (Hfs : forall d, NoDup (keys (Py.getitem d files []))).
  { intros d. unfold Py.getitem. destruct (Py.get d files) eqn:E.
    - eapply Hin; eauto.
    - constructor. }
  unfold wf in Hwf. induction Hwf as [|d ds Hnotin Hnd IH]; simpl; [constructor|].
  apply NoDup_app.
  - apply Finite.Injective_map_NoDup; [|apply Hfs]. intros x y [= ->]. reflexivity.
  - assumption.
  - intros [d' f] H1 H2. apply in_map_iff in H1. destruct H1 as [f' [[= <- <-] _]].
    apply in_flat_map in H2. destruct H2 as [d'' [Hd'' H2]].
    apply in_map_iff in H2. destruct H2 as [f'' [[= -> _] _]]. contradiction.
Qed.

Lemma filter_partition_length {A} (p : A -> bool) (l : list A) :
  List.length (filter p l) + List.length (filter (fun x => negb (p x)) l) = List.length l.
Proof.
  induction l as [|x l IH]; simpl; [reflexivity|]. destruct (p x); simpl; lia.
Qed.

(** The two outer loops go through the keys of
    [image1.files] and then through what the first loop left of
    [image2.files]: together, every directory of either listing, none
    twice.  With [-s], the files found on both sides are counted once in
    [match] or [missmatch], those of the first listing only once in
    [missing1], those of the second only once in [missing2], so that the
    total is the number of distinct files; without [-s] the counters stay
    at zero. *)
Lemma listings_are_covered {OS : Os} (args : Args) (files1 files2 : dict (dict string))
        (w : world) :
  listing_wf files1 ->
  listing_wf files2 ->
  let visited :=
    keys files1 ++ keys (st_files2 (reconcile_left args files1 (initial w files2))) in
  let files := entries files1 ++ only_in files2 files1 in
  let s := st_stats (reconcile args files1 files2 w) in
  (NoDup visited
   /\ forall d, In d visited <-> In d (keys files1) \/ In d (keys files2))
  /\ (NoDup files
      /\ forall e, In e files <-> In e (entries files1) \/ In e (entries files2))
  /\ (args_stats args = true ->
      stat_match s + stat_missmatch s = List.length (on_both files1 files2)
      /\ stat_missing1 s = List.length (only_in files1 files2)
      /\ stat_missing2 s = List.length (only_in files2 files1)
      /\ file_total s = List.length files)
  /\ (args_stats args = false -> s = stats_zero).
Proof.
  intros Hwf1 Hwf2 visited files s. subst visited files s.
  unfold reconcile_left.
  rewrite outer_loop_plan by (try apply Hwf1; assumption).
  simpl st_files2. rewrite keys_pops by apply Hwf2.
  assert (Hleft : forall d, In d (filter (fun k => negb (existsb (String.eqb k) (keys files1)))
                                         (keys files2))
                            <-> In d (keys files2) /\ ~ In d (keys files1)).
  { intros d. rewrite filter_In, negb_true_iff, <- not_true_iff_false, existsb_eqb_iff.
    tauto. }
  repeat split.
  - apply NoDup_app; [apply Hwf1 | apply NoDup_filter, Hwf2 |].
    intros d H1 H2. apply Hleft in H2. tauto.
  - intros H. apply in_app_or in H. rewrite Hleft in H. tauto.
  - intros H. apply in_or_app. rewrite Hleft.
    destruct (in_dec string_dec d (keys files1)); tauto.
  - apply NoDup_app; [now apply entries_nodup
                     | apply NoDup_filter; now apply entries_nodup |].
    intros [d f] H1 H2. apply filter_In in H2. destruct H2 as [_ H2].
    apply in_entries in H1. rewrite H1 in H2. discriminate.
  - intros H. apply in_app_or in H. unfold only_in in H. rewrite filter_In in H. tauto.
  - intros H. apply in_or_app. unfold only_in. rewrite filter_In.
    destruct e as [d f]. destruct (has files1 (d, f)) eqn:E.
    + left. now apply in_entries.
    + destruct H as [H|H]; [apply in_entries in H; congruence | now right].
  - now apply reconcile_counts.
  - now apply reconcile_counts.
  - now apply reconcile_counts.
  - destruct (reconcile_counts args H files1 files2 w Hwf1 Hwf2) as (Hb & Hl & Hr & _).
    unfold file_total. rewrite Hb, Hl, Hr, length_app.
    unfold on_both, only_in at 1.
    now rewrite (filter_partition_length (has files2) (entries files1)).
  - now apply reconcile_counts_off.
Qed.

(** With [-s], the total of the statistics is the number of distinct
    files of the two listings. *)
Lemma entries_are_counted {OS : Os} (args : Args) (files1 files2 : dict (dict string))
      (w : world) :
  listing_wf files1 ->
  listing_wf files2 ->
  args_stats args = true ->
  file_total (st_stats (reconcile args files1 files2 w))
  = List.length (entries files1 ++ only_in files2 files1).
Proof.
  intros H1 H2 Es.
  destruct (listings_are_covered args files1 files2 w H1 H2) as (_ & _ & Hon & _).
  now destruct (Hon Es) as (_ & _ & _ & H).
Qed.

(** ** Identical trees, the verdict *)

Lemma on_both_of_identical {OS : Os} (w : world) (files1 files2 : dict (dict string)) :
  identical w files1 files2 -> on_both files1 files2 = entries files1.
Proof.
  intros (_ & Hfiles & _). unfold on_both. apply forallb_filter_id.
  apply forallb_forall. intros [d f] Hin. apply in_entries in Hin.
  unfold has in *. simpl in *. now rewrite <- Hfiles.
Qed.

(** C5.  On the listings of two identical trees the loops write no line,
    leave [ret] at 0 and every counter but [match] at zero, and change
    nothing on disk.  The statistics block that follows returns normally,
    so that [main] returns 0, unless [-s] is given and the trees hold no
    file at all (the case of [stats_of_empty_trees_raise]). *)
Theorem identical_trees_are_clean {OS : Os} (args : Args)
        (files1 files2 : dict (dict string)) (w : world) :
  listing_wf files1 ->
  listing_wf files2 ->
  identical w files1 files2 ->
  let st := reconcile args files1 files2 w in
  st_ret st = 0
  /\ st_written st = []
  /\ stat_missmatch (st_stats st) = 0
  /\ stat_missing1 (st_stats st) = 0
  /\ stat_missing2 (st_stats st) = 0
  /\ stat_dir_missing1 (st_stats st) = 0
  /\ stat_dir_missing2 (st_stats st) = 0
  /\ os_world (st_os st) = w
  /\ (args_stats args = false \/ entries files1 <> [] ->
      fst (write_stats args st) = Ok tt
      /\ st_ret (snd (write_stats args st)) = 0).
Proof.
  intros Hwf1 Hwf2 Hid st.
  assert (Hclean : clean w st).
  { subst st. rewrite (reconcile_plan args files1 Hwf1 files2 w Hwf2).
    pose proof (run_clean args w (plan files1 files2) (initial w files2)
                  (plan_of_identical w files1 files2 Hid)) as H.
    destruct H as (Hw & Hwr & Hret & H1 & H2 & H3 & H4 & H5).
    { unfold clean, initial. simpl. tauto. }
    unfold clean. simpl. tauto. }
  destruct Hclean as (Hw & Hwr & Hret & H1 & H2 & H3 & H4 & H5).
  repeat split; try assumption.
  - apply write_stats_returns.
    destruct (args_stats args) eqn:Hs; [right | now left].
    destruct H as [H|H]; [discriminate|].
    destruct (reconcile_counts args Hs files1 files2 w Hwf1 Hwf2) as (Hb & _).
    fold st in Hb. unfold file_total. rewrite Hb, H2, H3.
    rewrite (on_both_of_identical w files1 files2 Hid).
    destruct (entries files1); [contradiction | simpl; lia].
  - rewrite <- Hret. apply write_stats_returns.
    destruct (args_stats args) eqn:Hs; [right | now left].
    destruct H as [H|H]; [discriminate|].
    destruct (reconcile_counts args Hs files1 files2 w Hwf1 Hwf2) as (Hb & _).
    fold st in Hb. unfold file_total. rewrite Hb, H2, H3.
    rewrite (on_both_of_identical w files1 files2 Hid).
    destruct (entries files1); [contradiction | simpl; lia].
Qed.

(** ** One entry more on one side *)

Section Insertion.

Context {V : Type}.
Implicit Types (d : dict V) (k : string) (v : V).

Lemma keys_insert k v d1 d2 : keys (d1 ++ (k, v) :: d2) = keys d1 ++ k :: keys d2.
Proof. unfold keys. now rewrite map_app. Qed.

Lemma keys_app d1 d2 : keys (d1 ++ d2) = keys d1 ++ keys d2.
Proof. unfold keys. now rewrite map_app. Qed.

Lemma get_insert_other k k' v d1 d2 :
  k' <> k -> Py.get k' (d1 ++ (k, v) :: d2) = Py.get k' (d1 ++ d2).
Proof.
  intros Hne. induction d1 as [|[k0 v0] d1 IH]; simpl.
  - destruct (String.eqb_spec k k'); [congruence | reflexivity].
  - now rewrite IH.
Qed.

Lemma get_insert_same k v d1 d2 :
  ~ In k (keys d1) -> Py.get k (d1 ++ (k, v) :: d2) = Some v.
Proof.
  induction d1 as [|[k0 v0] d1 IH]; simpl; intros H.
  - now rewrite String.eqb_refl.
  - destruct (String.eqb_spec k0 k); [tauto|]. apply IH. tauto.
Qed.

Lemma wf_insert k v d1 d2 :
  wf (d1 ++ (k, v) :: d2) -> wf (d1 ++ d2) /\ ~ In k (keys (d1 ++ d2)).
Proof.
  unfold wf. rewrite keys_insert, keys_app. intros H. split.
  - eapply NoDup_remove_1; eauto.
  - eapply NoDup_remove_2; eauto.
Qed.

End Insertion.

Lemma flat_map_insert {A B} (g g' : A -> list B) (l : list A) (d : A)
      (a1 a2 : list B) (x : B) :
  (forall y, In y l -> y <> d -> g' y = g y) ->
  g' d = a1 ++ x :: a2 ->
  g d = a1 ++ a2 ->
  In d l -> NoDup l ->
  exists before after,
    flat_map g' l = before ++ x :: after /\ flat_map g l = before ++ after.
Proof.
  intros Hother Hd' Hd Hin Hnd.
  apply in_split in Hin. destruct Hin as [l1 [l2 ->]].
  assert (Hd1 : ~ In d l1 /\ ~ In d l2).
  { apply NoDup_remove_2 in Hnd. split; intros H; apply Hnd, in_or_app; tauto. }
  exists (flat_map g l1 ++ a1), (a2 ++ flat_map g l2).
  rewrite !flat_map_app. simpl. rewrite Hd', Hd.
  rewrite (flat_map_ext_in g' g l1), (flat_map_ext_in g' g l2).
  - now rewrite <- !app_assoc.
  - intros y Hy. apply Hother; [apply in_or_app; right; now right | intros ->; tauto].
  - intros y Hy. apply Hother; [apply in_or_app; now left | intros ->; tauto].
Qed.

Lemma listing_wf_insert (d : string) (fs : dict string) (l1 l2 : dict (dict string)) :
  listing_wf (l1 ++ (d, fs) :: l2) -> listing_wf (l1 ++ l2).
Proof.
  intros [Hwf Hin]. destruct (wf_insert _ _ _ _ Hwf) as [Hwf' Hnotin]. split; [assumption|].
  intros d' fs' Hget. apply (Hin d'). rewrite get_insert_other; [assumption|].
  intros ->. apply get_in_keys in Hget. contradiction.
Qed.

Lemma listing_wf_set (d : string) (fs : dict string) (files : dict (dict string)) :
  listing_wf files -> wf fs -> listing_wf (Py.set d fs files).
Proof.
  intros [Hwf Hin] Hfs. split; [now apply wf_set|].
  intros d' fs' Hget. destruct (string_dec d' d) as [->|Hne].
  - rewrite get_set_same in Hget. now injection Hget as <-.
  - rewrite get_set_other in Hget by assumption. eauto.
Qed.

Section PlanInsertion.

Variables files1 files2 : dict (dict string).

(** A directory more in the first listing. *)
Lemma plan_dir_more_left (d : string) (fs : dict string) (l1 l2 : dict (dict string)) :
  files1 = l1 ++ l2 ->
  wf (l1 ++ (d, fs) :: l2) ->
  ~ In d (keys files2) ->
  exists before after,
    plan (l1 ++ (d, fs) :: l2) files2
    = before ++ DirOnlyLeft d (List.length fs) :: after
    /\ plan files1 files2 = before ++ after.
Proof.
  intros -> Hwf Hout. destruct (wf_insert _ _ _ _ Hwf) as [Hwf' Hnotin].
  assert (Hother : forall d', d' <> d ->
             plan_dir (l1 ++ (d, fs) :: l2) files2 d' = plan_dir (l1 ++ l2) files2 d').
  { intros d' Hne. unfold plan_dir, file_action, Py.getitem, Py.mem.
    now rewrite get_insert_other. }
  rewrite keys_app in Hnotin.
  exists (flat_map (plan_dir (l1 ++ l2) files2) (keys l1)),
         (flat_map (plan_dir (l1 ++ l2) files2) (keys l2)
          ++ map (fun d' => DirOnlyRight d' (List.length (Py.getitem d' files2 [])))
                 (filter (fun d' => negb (Py.mem d' (l1 ++ l2))) (keys files2))).
  assert (Hd : plan_dir (l1 ++ (d, fs) :: l2) files2 d
               = [DirOnlyLeft d (List.length fs)]).
  { unfold plan_dir. apply get_none_iff in Hout. rewrite Hout.
    unfold Py.getitem. rewrite get_insert_same; [reflexivity|].
    intros H. apply Hnotin, in_or_app. now left. }
  unfold plan. rewrite keys_insert, keys_app, !flat_map_app. simpl. rewrite Hd.
  rewrite (flat_map_ext_in (plan_dir (l1 ++ (d, fs) :: l2) files2)
                           (plan_dir (l1 ++ l2) files2) (keys l1)).
  2:{ intros d' Hd'. apply Hother. intros ->. apply Hnotin, in_or_app. now left. }
  rewrite (flat_map_ext_in (plan_dir (l1 ++ (d, fs) :: l2) files2)
                           (plan_dir (l1 ++ l2) files2) (keys l2)).
  2:{ intros d' Hd'. apply Hother. intros ->. apply Hnotin, in_or_app. now right. }
  rewrite (filter_ext_in (fun d' => negb (Py.mem d' (l1 ++ (d, fs) :: l2)))
                         (fun d' => negb (Py.mem d' (l1 ++ l2))) (keys files2)).
  2:{ intros d' Hd'. unfold Py.mem.
      rewrite get_insert_other; [reflexivity | intros ->; contradiction]. }
  rewrite <- !app_assoc. simpl. split; reflexivity.
Qed.

(** A directory more in the second listing. *)
Lemma plan_dir_more_right (d : string) (fs : dict string) (r1 r2 : dict (dict string)) :
  files2 = r1 ++ r2 ->
  wf (r1 ++ (d, fs) :: r2) ->
  ~ In d (keys files1) ->
  exists before after,
    plan files1 (r1 ++ (d, fs) :: r2)
    = before ++ DirOnlyRight d (List.length fs) :: after
    /\ plan files1 files2 = before ++ after.
Proof.
  intros -> Hwf Hout. destruct (wf_insert _ _ _ _ Hwf) as [Hwf' Hnotin].
  rewrite keys_app in Hnotin.
  set (tail := fun (r : dict (dict string)) (ks : list string) =>
         map (fun d' => DirOnlyRight d' (List.length (Py.getitem d' r [])))
             (filter (fun d' => negb (Py.mem d' files1)) ks)).
  exists (flat_map (plan_dir files1 (r1 ++ r2)) (keys files1)
          ++ tail (r1 ++ r2) (keys r1)),
         (tail (r1 ++ r2) (keys r2)).
  assert (Hmem : Py.mem d files1 = false) by now apply mem_false_iff.
  assert (Hget : forall d', d' <> d ->
             Py.getitem d' (r1 ++ (d, fs) :: r2) [] = Py.getitem d' (r1 ++ r2) []).
  { intros d' Hne. unfold Py.getitem. now rewrite get_insert_other. }
  assert (Htail : forall ks, ~ In d ks -> tail (r1 ++ (d, fs) :: r2) ks = tail (r1 ++ r2) ks).
  { intros ks Hks. unfold tail. apply map_ext_in. intros d' Hd'. apply filter_In in Hd'.
    rewrite Hget; [reflexivity | intros ->; tauto]. }
  assert (Happ : forall r ks ks', tail r (ks ++ ks') = tail r ks ++ tail r ks').
  { intros r ks ks'. unfold tail. now rewrite filter_app, map_app. }
  assert (Hcons : forall r ks,
             tail r (d :: ks) = DirOnlyRight d (List.length (Py.getitem d r [])) :: tail r ks).
  { intros r ks. unfold tail. simpl. now rewrite Hmem. }
  unfold plan. fold (tail (r1 ++ (d, fs) :: r2) (keys (r1 ++ (d, fs) :: r2))).
  fold (tail (r1 ++ r2) (keys (r1 ++ r2))).
  rewrite (flat_map_ext_in (plan_dir files1 (r1 ++ (d, fs) :: r2))
                           (plan_dir files1 (r1 ++ r2)) (keys files1)).
  2:{ intros d' Hd'. apply plan_dir_ext. apply get_insert_other. intros ->. contradiction. }
  rewrite keys_insert, keys_app, !Happ, Hcons.
  rewrite !Htail by (intros H; apply Hnotin, in_or_app; tauto).
  unfold Py.getitem at 1. rewrite get_insert_same.
  2:{ intros H. apply Hnotin, in_or_app. now left. }
  rewrite <- !app_assoc. split; reflexivity.
Qed.

(** A file more in a directory of the first listing. *)
Lemma plan_file_more_left (d f p : string) (pre post files2_dir : dict string) :
  wf files1 ->
  Py.get d files1 = Some (pre ++ post) ->
  wf (pre ++ (f, p) :: post) ->
  Py.get d files2 = Some files2_dir ->
  ~ In f (keys files2_dir) ->
  exists before after,
    plan (Py.set d (pre ++ (f, p) :: post : dict string) files1) files2
    = before ++ OnlyLeft d f :: after
    /\ plan files1 files2 = before ++ after.
Proof.
  intros Hwf1 Hd1 Hwf Hd2 Hout. destruct (wf_insert _ _ _ _ Hwf) as [_ Hnotin].
  set (files1' := Py.set d (pre ++ (f, p) :: post : dict string) files1).
  assert (Hmem : forall d', Py.mem d' files1' = Py.mem d' files1).
  { intros d'. unfold Py.mem, files1'. destruct (string_dec d' d) as [->|Hne].
    - now rewrite get_set_same, Hd1.
    - now rewrite get_set_other. }
  assert (Hkeys : keys files1' = keys files1).
  { apply keys_set_present. eapply get_in_keys; eauto. }
  assert (Hfa : forall f', f' <> f ->
             file_action files1' d files2_dir f' = file_action files1 d files2_dir f').
  { intros f' Hne. unfold file_action, files1'.
    rewrite getitem_set_same, (getitem_get d files1 [] _ Hd1).
    unfold Py.getitem. now rewrite get_insert_other. }
  destruct (flat_map_insert (plan_dir files1 files2) (plan_dir files1' files2)
              (keys files1) d
              (map (file_action files1 d files2_dir) (keys pre))
              (map (file_action files1 d files2_dir) (keys post)
               ++ map (OnlyRight d)
                      (filter (fun f' => negb (Py.mem f' (pre ++ post))) (keys files2_dir)))
              (OnlyLeft d f))
    as [before [after [E' E]]].
  - intros d' _ Hne. unfold plan_dir, file_action, files1', Py.getitem.
    now rewrite get_set_other.
  - unfold plan_dir. rewrite Hd2. cbv zeta.
    replace (Py.getitem d files1' []) with (pre ++ (f, p) :: post : dict string)
      by (unfold files1'; now rewrite getitem_set_same).
    rewrite keys_insert, map_app. simpl.
    rewrite (map_ext_in (file_action files1' d files2_dir)
                        (file_action files1 d files2_dir) (keys pre)).
    2:{ intros f' Hf'. apply Hfa. intros ->. apply Hnotin. rewrite keys_app.
        apply in_or_app. now left. }
    rewrite (map_ext_in (file_action files1' d files2_dir)
                        (file_action files1 d files2_dir) (keys post)).
    2:{ intros f' Hf'. apply Hfa. intros ->. apply Hnotin. rewrite keys_app.
        apply in_or_app. now right. }
    rewrite (filter_ext_in (fun f' => negb (Py.mem f' (pre ++ (f, p) :: post)))
                           (fun f' => negb (Py.mem f' (pre ++ post))) (keys files2_dir)).
    2:{ intros f' Hf'. unfold Py.mem.
        rewrite get_insert_other; [reflexivity | intros ->; contradiction]. }
    assert (Ef : file_action files1' d files2_dir f = OnlyLeft d f).
    { unfold file_action. apply get_none_iff in Hout. now rewrite Hout. }
    rewrite Ef, <- app_assoc. reflexivity.
  - unfold plan_dir. rewrite Hd2, (getitem_get d files1 [] _ Hd1).
    now rewrite keys_app, map_app, <- app_assoc.
  - eapply get_in_keys; eauto.
  - exact Hwf1.
  - exists before,
      (after ++ map (fun d' => DirOnlyRight d' (List.length (Py.getitem d' files2 [])))
                    (filter (fun d' => negb (Py.mem d' files1)) (keys files2))).
    unfold plan. rewrite Hkeys, E', E.
    rewrite (filter_ext (fun d' => negb (Py.mem d' files1'))
                        (fun d' => negb (Py.mem d' files1)))
      by (intros d'; now rewrite Hmem).
    rewrite <- !app_assoc. split; reflexivity.
Qed.

(** A file more in a directory of the second listing. *)
Lemma plan_file_more_right (d f p : string) (pre post : dict string) :
  wf files1 ->
  In d (keys files1) ->
  ~ In f (keys (Py.getitem d files1 [])) ->
  Py.get d files2 = Some (pre ++ post) ->
  wf (pre ++ (f, p) :: post) ->
  exists before after,
    plan files1 (Py.set d (pre ++ (f, p) :: post : dict string) files2)
    = before ++ OnlyRight d f :: after
    /\ plan files1 files2 = before ++ after.
Proof.
  intros Hwf1 Hd1 Hout Hd2 Hwf. destruct (wf_insert _ _ _ _ Hwf) as [_ Hnotin].
  set (files2' := Py.set d (pre ++ (f, p) :: post : dict string) files2).
  assert (Hkeys : keys files2' = keys files2).
  { apply keys_set_present. eapply get_in_keys; eauto. }
  assert (Hmemf : Py.mem f (Py.getitem d files1 []) = false) by now apply mem_false_iff.
  set (rest := fun ks : list string =>
         map (OnlyRight d)
             (filter (fun f' => negb (Py.mem f' (Py.getitem d files1 []))) ks)).
  destruct (flat_map_insert (plan_dir files1 files2) (plan_dir files1 files2')
              (keys files1) d
              (map (file_action files1 d (pre ++ post)) (keys (Py.getitem d files1 []))
               ++ rest (keys pre))
              (rest (keys post))
              (OnlyRight d f))
    as [before [after [E' E]]].
  - intros d' _ Hne. apply plan_dir_ext. unfold files2'. now apply get_set_other.
  - unfold plan_dir, files2'. rewrite get_set_same.
    rewrite keys_insert, filter_app. simpl. rewrite Hmemf. simpl.
    rewrite map_app. simpl. fold (rest (keys pre)). fold (rest (keys post)).
    rewrite (map_ext_in (file_action files1 d (pre ++ (f, p) :: post))
                        (file_action files1 d (pre ++ post))
                        (keys (Py.getitem d files1 []))).
    2:{ intros f' Hf'. unfold file_action.
        rewrite get_insert_other; [reflexivity | intros ->; contradiction]. }
    now rewrite <- app_assoc.
  - unfold plan_dir. rewrite Hd2.
    rewrite keys_app, filter_app, map_app.
    fold (rest (keys pre)). fold (rest (keys post)). now rewrite <- app_assoc.
  - exact Hd1.
  - exact Hwf1.
  - exists before,
      (after ++ map (fun d' => DirOnlyRight d' (List.length (Py.getitem d' files2 [])))
                    (filter (fun d' => negb (Py.mem d' files1)) (keys files2))).
    unfold plan. rewrite Hkeys, E', E.
    rewrite (map_ext_in
               (fun d' => DirOnlyRight d' (List.length (Py.getitem d' files2' [])))
               (fun d' => DirOnlyRight d' (List.length (Py.getitem d' files2 [])))).
    2:{ intros d' Hd'. apply filter_In in Hd'. destruct Hd' as [_ Hd'].
        apply negb_true_iff, mem_false_iff in Hd'.
        unfold Py.getitem, files2'.
        rewrite get_set_other; [reflexivity | intros ->; contradiction]. }
    rewrite <- !app_assoc. split; reflexivity.
Qed.

End PlanInsertion.

(** The lines about a missing file or directory come from the actions of
    that name. *)

Section Lines.

Context {OS : Os}.
Variable args : Args.

Lemma filter_snoc {A} (p : A -> bool) (l : list A) (x : A) :
  filter p (l ++ [x]) = filter p l ++ (if p x then [x] else []).
Proof. rewrite filter_app. reflexivity. Qed.

Lemma perform_lines (p : line -> bool) (q : action -> bool) :
  (forall a, q a = false -> forall st,
     filter (fun e => p (snd e)) (st_written (perform args a st))
     = filter (fun e => p (snd e)) (st_written st)) ->
  forall acts st,
    forallb (fun a => negb (q a)) acts = true ->
    filter (fun e => p (snd e)) (st_written (run args acts st))
    = filter (fun e => p (snd e)) (st_written st).
Proof.
  intros Hstep acts. induction acts as [|a acts IH]; intros st Hall; [reflexivity|].
  simpl in Hall. apply andb_true_iff in Hall. destruct Hall as [Ha Hall].
  rewrite run_cons, IH by assumption. apply Hstep. now apply negb_true_iff.
Qed.

Ltac lines :=
  intros a Hq st;
  unfold perform, run_diffoscope, count, write, set_ret, with_os, sys_diffoscope;
  destruct (args_images args) as [image1 image2];
  destruct a; simpl in *; break_ifs; simpl;
  rewrite ?filter_app; simpl; rewrite ?Hq, ?app_nil_r; reflexivity.

Lemma perform_missing_file d f a :
  reports_file d f a = false -> forall st,
  filter (fun e => is_missing_file d f (snd e)) (st_written (perform args a st))
  = filter (fun e => is_missing_file d f (snd e)) (st_written st).
Proof. revert a. lines. Qed.

Lemma perform_missing_directory d a :
  reports_directory d a = false -> forall st,
  filter (fun e => is_missing_directory d (snd e)) (st_written (perform args a st))
  = filter (fun e => is_missing_directory d (snd e)) (st_written st).
Proof. revert a. lines. Qed.

End Lines.

Lemma plan_reports_file (files1 files2 : dict (dict string)) (d f : string) (a : action) :
  In a (plan files1 files2) ->
  reports_file d f a = true ->
  In f (keys (Py.getitem d files1 [])) \/ In f (keys (Py.getitem d files2 [])).
Proof.
  unfold plan. intros Ha Hr. apply in_app_or in Ha. destruct Ha as [Ha|Ha].
  - apply in_flat_map in Ha. destruct Ha as [d' [_ Ha]]. unfold plan_dir in Ha.
    destruct (Py.get d' files2) as [files2_dir|] eqn:E.
    + apply in_app_or in Ha. destruct Ha as [Ha|Ha];
        apply in_map_iff in Ha; destruct Ha as [f' [<- Hf']].
      * unfold file_action in Hr. destruct (Py.get f' files2_dir); [discriminate|].
        simpl in Hr. apply andb_true_iff in Hr. destruct Hr as [Hd Hf].
        apply String.eqb_eq in Hd, Hf. subst. now left.
      * simpl in Hr. apply andb_true_iff in Hr. destruct Hr as [Hd Hf].
        apply String.eqb_eq in Hd, Hf. subst. right.
        apply filter_In in Hf'. unfold Py.getitem. rewrite E. tauto.
    + destruct Ha as [<-|[]]. discriminate.
  - apply in_map_iff in Ha. destruct Ha as [d' [<- _]]. discriminate.
Qed.

Lemma plan_reports_directory (files1 files2 : dict (dict string)) (d : string)
      (a : action) :
  In a (plan files1 files2) ->
  reports_directory d a = true ->
  In d (keys files1) \/ In d (keys files2).
Proof.
  unfold plan. intros Ha Hr. apply in_app_or in Ha. destruct Ha as [Ha|Ha].
  - apply in_flat_map in Ha. destruct Ha as [d' [Hd' Ha]]. unfold plan_dir in Ha.
    destruct (Py.get d' files2) as [files2_dir|] eqn:E.
    + apply in_app_or in Ha. destruct Ha as [Ha|Ha];
        apply in_map_iff in Ha; destruct Ha as [f' [<- Hf']]; [|discriminate].
      unfold file_action in Hr. destruct (Py.get f' files2_dir); discriminate.
    + destruct Ha as [<-|[]]. simpl in Hr. apply String.eqb_eq in Hr. subst. now left.
  - apply in_map_iff in Ha. destruct Ha as [d' [<- Hd']]. simpl in Hr.
    apply String.eqb_eq in Hr. subst. apply filter_In in Hd'. tauto.
Qed.

Lemma wf_insert_inv {V} (k : string) (v : V) (d1 d2 : dict V) :
  wf (d1 ++ d2) -> ~ In k (keys (d1 ++ d2)) -> wf (d1 ++ (k, v) :: d2).
Proof.
  unfold wf. rewrite keys_insert, keys_app. intros Hnd Hout.
  induction (keys d1) as [|k0 ks IH]; simpl in *.
  - now constructor.
  - inversion Hnd as [|? ? Hk0 Hnd']; subst. constructor.
    + intros H. apply in_app_or in H. destruct H as [H|[->|H]].
      * apply Hk0, in_or_app. now left.
      * tauto.
      * apply Hk0, in_or_app. now right.
    + apply IH; [assumption | tauto].
Qed.

Lemma one_more_action {OS : Os} (args : Args) (kind : line -> bool) (q : action -> bool)
      (files1 files1' files2 files2' : dict (dict string)) (w : world)
      (x : action) (before after : list action) :
  listing_wf files1 -> listing_wf files1' ->
  listing_wf files2 -> listing_wf files2' ->
  plan files1' files2' = before ++ x :: after ->
  plan files1 files2 = before ++ after ->
  quiet x = true ->
  kind (quiet_line args x) = true ->
  (forall a, q a = false -> forall st,
     filter (fun e => kind (snd e)) (st_written (perform args a st))
     = filter (fun e => kind (snd e)) (st_written st)) ->
  (forall a, In a (plan files1 files2) -> q a = false) ->
  one_line_more args kind (quiet_line args x) (quiet_count x)
                (reconcile args files1 files2 w)
                (reconcile args files1' files2' w).
Proof.
  intros Hwf1 Hwf1' Hwf2 Hwf2' Eplan' Eplan Hquiet Hkind Hstep Hnone.
  rewrite (reconcile_plan args files1 Hwf1 files2 w Hwf2).
  rewrite (reconcile_plan args files1' Hwf1' files2' w Hwf2').
  change (initial w files2') with (with_files2 files2' (initial w files2)).
  rewrite run_files2, Eplan', Eplan.
  destruct (run_insert_quiet args before x after (initial w files2) Hquiet)
    as (Hos & (w1 & w2 & Eb & Em) & Hstats & Hret).
  unfold one_line_more. simpl.
  repeat split; try assumption.
  - now exists w1, w2.
  - assert (Hbase : filter (fun e => kind (snd e))
                      (st_written (run args (before ++ after) (initial w files2))) = []).
    { rewrite (perform_lines args kind q Hstep); [reflexivity|].
      apply forallb_forall. intros a Ha. rewrite <- Eplan in Ha.
      now rewrite (Hnone a Ha). }
    rewrite Eb, filter_app in Hbase. apply app_eq_nil in Hbase.
    destruct Hbase as [H1 H2].
    rewrite Em, filter_app. simpl. now rewrite Hkind, H1, H2.
Qed.

Lemma not_reported {A} (q : A -> bool) (l : list A) (P : Prop) :
  (forall a, In a l -> q a = true -> P) -> ~ P -> forall a, In a l -> q a = false.
Proof.
  intros H HP a Ha. destruct (q a) eqn:E; [|reflexivity]. exfalso. eauto.
Qed.

(** C6, as the script has it.  Take two listings with a directory [d] on
    both sides and a name [f] in neither, and put [f] into [d] on one
    side, anywhere.  The run is as before but for one more "Missing File"
    line about [d] and [f], the only one; with [-s] the missing-file
    counter of that side is one higher and the others are as they were
    (without [-s] no counter moves); [ret] is 1. *)
Theorem one_extra_file {OS : Os} (args : Args) (files1 files2 : dict (dict string))
        (w : world) (d f p : string) (pre post : dict string) :
  listing_wf files1 ->
  listing_wf files2 ->
  In d (keys files1) ->
  In d (keys files2) ->
  ~ In f (keys (Py.getitem d files1 [])) ->
  ~ In f (keys (Py.getitem d files2 [])) ->
  let base := reconcile args files1 files2 w in
  let image1 := fst (args_images args) in
  let image2 := snd (args_images args) in
  (Py.getitem d files1 [] = pre ++ post ->
   one_line_more args (is_missing_file d f)
     (MissingFile d f image1 image2) (mkStats 0 0 1 0 0 0) base
     (reconcile args (Py.set d (pre ++ (f, p) :: post : dict string) files1) files2 w))
  /\ (Py.getitem d files2 [] = pre ++ post ->
      one_line_more args (is_missing_file d f)
        (MissingFile d f image2 image1) (mkStats 0 0 0 1 0 0) base
        (reconcile args files1 (Py.set d (pre ++ (f, p) :: post : dict string) files2) w)).
Proof.
  intros Hwf1 Hwf2 Hd1 Hd2 Hf1 Hf2 base image1 image2. subst base image1 image2.
  assert (Hnone : forall a, In a (plan files1 files2) -> reports_file d f a = false).
  { apply not_reported with (P := In f (keys (Py.getitem d files1 []))
                                  \/ In f (keys (Py.getitem d files2 []))).
    - intros a. apply plan_reports_file.
    - tauto. }
  apply mem_iff in Hd1, Hd2. apply mem_get in Hd1, Hd2.
  destruct Hd1 as [fs1 Hg1]. destruct Hd2 as [fs2 Hg2].
  rewrite (getitem_get d files1 [] _ Hg1) in *.
  rewrite (getitem_get d files2 [] _ Hg2) in *.
  split; intros ->.
  - assert (Hwf : wf (pre ++ (f, p) :: post))
      by (apply wf_insert_inv; [eapply Hwf1; eauto | assumption]).
    destruct (plan_file_more_left files1 files2 d f p pre post fs2)
      as [before [after [E' E]]]; try assumption; try apply Hwf1.
    pose proof (one_more_action args (is_missing_file d f) (reports_file d f)
                  files1 (Py.set d (pre ++ (f, p) :: post : dict string) files1)
                  files2 files2 w (OnlyLeft d f) before after) as H.
    unfold quiet_line, quiet_count in H. destruct (args_images args) as [i1 i2].
    apply H; try assumption; try reflexivity.
    + now apply listing_wf_set.
    + simpl. now rewrite !String.eqb_refl.
    + intros a Ha st. now apply perform_missing_file.
  - assert (Hwf : wf (pre ++ (f, p) :: post))
      by (apply wf_insert_inv; [eapply Hwf2; eauto | assumption]).
    destruct (plan_file_more_right files1 files2 d f p pre post)
      as [before [after [E' E]]]; try assumption; try apply Hwf1.
    { eapply get_in_keys; eauto. }
    { now rewrite (getitem_get d files1 [] _ Hg1). }
    pose proof (one_more_action args (is_missing_file d f) (reports_file d f)
                  files1 files1 files2
                  (Py.set d (pre ++ (f, p) :: post : dict string) files2)
                  w (OnlyRight d f) before after) as H.
    unfold quiet_line, quiet_count in H. destruct (args_images args) as [i1 i2].
    apply H; try assumption; try reflexivity.
    + now apply listing_wf_set.
    + simpl. now rewrite !String.eqb_refl.
    + intros a Ha st. now apply perform_missing_file.
Qed.

Lemma listing_wf_insert_inv (d : string) (fs : dict string) (l1 l2 : dict (dict string)) :
  listing_wf (l1 ++ l2) -> ~ In d (keys (l1 ++ l2)) -> wf fs ->
  listing_wf (l1 ++ (d, fs) :: l2).
Proof.
  intros [Hwf Hin] Hout Hfs. split; [now apply wf_insert_inv|].
  intros d' fs' Hget. destruct (string_dec d' d) as [->|Hne].
  - rewrite get_insert_same in Hget.
    + now injection Hget as <-.
    + intros H. apply Hout. rewrite keys_app. apply in_or_app. now left.
  - rewrite get_insert_other in Hget by assumption. eauto.
Qed.

(** C7, as the script has it.  Take two listings and a directory [d] that
    is a key of neither, and add [d] with its files [fs] to one side,
    anywhere.  The run is as before but for one more "Missing Directory"
    line, the only one about [d], which carries the number of files of
    [d]; the requests made to the system are exactly those of the run
    without [d], so no file of [d] is inspected or hashed; with [-s] the
    directory counter of that side is one higher and its missing-file
    counter higher by the number of files (without [-s] no counter
    moves); [ret] is 1. *)
Theorem one_extra_directory {OS : Os} (args : Args) (files1 files2 : dict (dict string))
        (w : world) (d : string) (fs : dict string) (l1 l2 : dict (dict string)) :
  listing_wf files1 ->
  listing_wf files2 ->
  wf fs ->
  ~ In d (keys files1) ->
  ~ In d (keys files2) ->
  let base := reconcile args files1 files2 w in
  let image1 := fst (args_images args) in
  let image2 := snd (args_images args) in
  (files1 = l1 ++ l2 ->
   one_line_more args (is_missing_directory d)
     (MissingDirectory (List.length fs) d image1 image2)
     (mkStats 0 0 (List.length fs) 0 1 0) base
     (reconcile args (l1 ++ (d, fs) :: l2) files2 w))
  /\ (files2 = l1 ++ l2 ->
      one_line_more args (is_missing_directory d)
        (MissingDirectory (List.length fs) d image2 image1)
        (mkStats 0 0 0 (List.length fs) 0 1) base
        (reconcile args files1 (l1 ++ (d, fs) :: l2) w)).
Proof.
  intros Hwf1 Hwf2 Hfs Hd1 Hd2 base image1 image2. subst base image1 image2.
  assert (Hnone : forall a, In a (plan files1 files2) -> reports_directory d a = false).
  { apply not_reported with (P := In d (keys files1) \/ In d (keys files2)).
    - intros a. apply plan_reports_directory.
    - tauto. }
  split; intros E0.
  - assert (Hwf' : listing_wf (l1 ++ (d, fs) :: l2))
      by (subst files1; now apply listing_wf_insert_inv).
    destruct (plan_dir_more_left files1 files2 d fs l1 l2)
      as [before [after [E' E]]]; try assumption; try apply Hwf'.
    pose proof (one_more_action args (is_missing_directory d) (reports_directory d)
                  files1 (l1 ++ (d, fs) :: l2) files2 files2 w
                  (DirOnlyLeft d (List.length fs)) before after) as H.
    unfold quiet_line, quiet_count in H. destruct (args_images args) as [i1 i2].
    apply H; try assumption; try reflexivity.
    + simpl. now rewrite String.eqb_refl.
    + intros a Ha st. now apply perform_missing_directory.
  - assert (Hwf' : listing_wf (l1 ++ (d, fs) :: l2))
      by (subst files2; now apply listing_wf_insert_inv).
    destruct (plan_dir_more_right files1 files2 d fs l1 l2)
      as [before [after [E' E]]]; try assumption; try apply Hwf'.
    pose proof (one_more_action args (is_missing_directory d) (reports_directory d)
                  files1 files1 files2 (l1 ++ (d, fs) :: l2) w
                  (DirOnlyRight d (List.length fs)) before after) as H.
    unfold quiet_line, quiet_count in H. destruct (args_images args) as [i1 i2].
    apply H; try assumption; try reflexivity.
    + simpl. now rewrite String.eqb_refl.
    + intros a Ha st. now apply perform_missing_directory.
Qed.

(** ** One action for each file, one line for each difference *)

Lemma filter_map_at {B} (g : string -> B) (q : B -> bool) (l : list string) (f : string) :
  NoDup l ->
  (forall x, In x l -> x <> f -> q (g x) = false) ->
  filter q (map g l) = if in_dec string_dec f l then filter q [g f] else [].
Proof.
  induction l as [|x l IH]; intros Hnd Hq; [reflexivity|].
  inversion Hnd as [|? ? Hx Hnd']; subst.
  cbn [map filter]. destruct (string_dec x f) as [->|Hne].
  - rewrite (filter_none q (map g l)).
    + destruct (in_dec string_dec f (f :: l)) as [_|H]; [|exfalso; apply H; now left].
      simpl. now destruct (q (g f)).
    + intros b Hb. apply in_map_iff in Hb. destruct Hb as [y [<- Hy]].
      apply Hq; [now right | intros ->; contradiction].
  - rewrite (Hq x) by (auto; now left). rewrite IH; auto.
    + destruct (in_dec string_dec f l) as [H|H];
        destruct (in_dec string_dec f (x :: l)) as [H'|H']; try reflexivity.
      * exfalso. apply H'. now right.
      * exfalso. destruct H' as [E|H']; [congruence | contradiction].
    + intros y Hy. apply Hq. now right.
Qed.

Lemma filter_flat_map_at {B} (g : string -> list B) (q : B -> bool) (l : list string)
      (f : string) :
  NoDup l ->
  (forall x, In x l -> x <> f -> filter q (g x) = []) ->
  filter q (flat_map g l) = if in_dec string_dec f l then filter q (g f) else [].
Proof.
  induction l as [|x l IH]; intros Hnd Hq; [reflexivity|].
  inversion Hnd as [|? ? Hx Hnd']; subst.
  cbn [flat_map]. rewrite filter_app. destruct (string_dec x f) as [->|Hne].
  - assert (E : filter q (flat_map g l) = []).
    { apply filter_none. intros b Hb. apply in_flat_map in Hb.
      destruct Hb as [y [Hy Hb]].
      assert (Hyf : y <> f) by (intros ->; contradiction).
      assert (H0 : filter q (g y) = []) by (apply Hq; [now right | assumption]).
      destruct (q b) eqn:Eb; [|reflexivity].
      assert (Hin : In b (filter q (g y))) by (apply filter_In; auto).
      rewrite H0 in Hin. destruct Hin. }
    rewrite E, app_nil_r.
    destruct (in_dec string_dec f (f :: l)) as [_|H]; [reflexivity|].
    exfalso. apply H. now left.
  - rewrite (Hq x) by (auto; now left). cbn [app]. rewrite IH; auto.
    + destruct (in_dec string_dec f l) as [H|H];
        destruct (in_dec string_dec f (x :: l)) as [H'|H']; try reflexivity.
      * exfalso. apply H'. now right.
      * exfalso. destruct H' as [E|H']; [congruence | contradiction].
    + intros y Hy. apply Hq. now right.
Qed.

Lemma plan_dir_action_dir (files1 files2 : dict (dict string)) (x : string) (a : action) :
  In a (plan_dir files1 files2 x) -> action_dir a = x.
Proof.
  unfold plan_dir. destruct (Py.get x files2) as [fs2|].
  - rewrite in_app_iff, !in_map_iff. intros [[f [<- _]]|[f [<- _]]]; [|reflexivity].
    unfold file_action. now destruct (Py.get f fs2).
  - intros [<-|[]]. reflexivity.
Qed.

Section PlanAt.

Variables files1 files2 : dict (dict string).
Hypothesis files1_wf : listing_wf files1.
Hypothesis files2_wf : listing_wf files2.
Variable q : action -> bool.
Variable d : string.
Hypothesis q_dir : forall a, q a = true -> action_dir a = d.

(** A test that holds of actions about [d] only finds, in the plan, what
    it finds in the part for [d]. *)
Lemma filter_plan_at :
  filter q (plan files1 files2)
  = (if in_dec string_dec d (keys files1)
     then filter q (plan_dir files1 files2 d) else [])
    ++ (if in_dec string_dec d (dirs_only_in files2 files1)
        then filter q [DirOnlyRight d (List.length (Py.getitem d files2 []))]
        else []).
Proof.
  unfold plan. rewrite filter_app. f_equal.
  - apply filter_flat_map_at; [apply files1_wf|].
    intros x _ Hne. apply filter_none. intros a Ha.
    destruct (q a) eqn:E; [|reflexivity].
    apply q_dir in E. apply plan_dir_action_dir in Ha. congruence.
  - apply (filter_map_at
             (fun x => DirOnlyRight x (List.length (Py.getitem x files2 [])))).
    + apply NoDup_filter, files2_wf.
    + intros x _ Hne. destruct (q (DirOnlyRight x _)) eqn:E; [|reflexivity].
      apply q_dir in E. simpl in E. congruence.
Qed.

End PlanAt.

Section EachFile.

Variables files1 files2 : dict (dict string).
Hypothesis files1_wf : listing_wf files1.
Hypothesis files2_wf : listing_wf files2.

Lemma has_get (files : dict (dict string)) (d f : string) :
  has files (d, f) = true ->
  exists fs, Py.get d files = Some fs /\ Py.getitem d files [] = fs /\ In f (keys fs).
Proof.
  unfold has, Py.getitem. simpl. intros H. apply mem_iff in H.
  destruct (Py.get d files) as [fs|]; [eauto | destruct H].
Qed.

Lemma plan_dir_common (d : string) (fs2 : dict string) (q : action -> bool) :
  Py.get d files2 = Some fs2 ->
  filter q (plan_dir files1 files2 d)
  = filter q (map (file_action files1 d fs2) (keys (Py.getitem d files1 [])))
    ++ filter q (map (OnlyRight d)
                     (filter (fun f => negb (Py.mem f (Py.getitem d files1 [])))
                             (keys fs2))).
Proof. intros H. unfold plan_dir. rewrite H. apply filter_app. Qed.

Lemma in_dirs_only (a b : dict (dict string)) (d : string) :
  In d (dirs_only_in a b) <-> In d (keys a) /\ Py.mem d b = false.
Proof. unfold dirs_only_in. rewrite filter_In, negb_true_iff. tauto. Qed.

(** Every file of the first listing has its one action. *)
Lemma classified_left_once (d f : string) :
  has files1 (d, f) = true ->
  List.length (filter (classifies_left (d, f)) (plan files1 files2)) = 1.
Proof.
  intros H. destruct (has_get files1 d f H) as [fs1 (G1 & I1 & F1)].
  rewrite (filter_plan_at files1 files2 files1_wf files2_wf _ d).
  2:{ intros [d' f' p1 p2|d' f'|d' f'|d' n|d' n]; simpl; try discriminate;
      intros E; try (apply andb_prop in E; destruct E as [E _]);
      now apply String.eqb_eq in E. }
  assert (Hd : In d (keys files1)) by (eapply get_in_keys; eauto).
  destruct (in_dec string_dec d (keys files1)) as [_|N]; [|contradiction].
  assert (E2 : forall l, (if in_dec string_dec d l
                          then filter (classifies_left (d, f))
                                 [DirOnlyRight d (List.length (Py.getitem d files2 []))]
                          else []) = []) by (intros l; now destruct (in_dec _ _ _)).
  rewrite E2, app_nil_r.
  destruct (Py.get d files2) as [fs2|] eqn:G2.
  - rewrite (plan_dir_common d fs2 _ G2), I1.
    rewrite (filter_map_at (file_action files1 d fs2) _ (keys fs1) f).
    + destruct (in_dec string_dec f (keys fs1)) as [_|N]; [|contradiction].
      rewrite (filter_none _ (map (OnlyRight d) _)).
      * cbn [filter]. unfold file_action.
        destruct (Py.get f fs2); simpl; rewrite !String.eqb_refl; reflexivity.
      * intros a Ha. apply in_map_iff in Ha. now destruct Ha as [x [<- _]].
    + apply (proj2 files1_wf d fs1 G1).
    + intros x _ Hne. unfold file_action.
      destruct (Py.get x fs2); simpl; rewrite String.eqb_refl; simpl;
        now apply String.eqb_neq.
  - unfold plan_dir. rewrite G2. simpl. now rewrite String.eqb_refl.
Qed.

(** Every file of the second listing has its one action. *)
Lemma classified_right_once (d f : string) :
  has files2 (d, f) = true ->
  List.length (filter (classifies_right (d, f)) (plan files1 files2)) = 1.
Proof.
  intros H. destruct (has_get files2 d f H) as [fs2 (G2 & I2 & F2)].
  rewrite (filter_plan_at files1 files2 files1_wf files2_wf _ d).
  2:{ intros [d' f' p1 p2|d' f'|d' f'|d' n|d' n]; simpl; try discriminate;
      intros E; try (apply andb_prop in E; destruct E as [E _]);
      now apply String.eqb_eq in E. }
  assert (Hd2 : In d (keys files2)) by (eapply get_in_keys; eauto).
  destruct (in_dec string_dec d (keys files1)) as [Hd1|Hd1].
  - destruct (in_dec string_dec d (dirs_only_in files2 files1)) as [Y|_].
    { apply in_dirs_only in Y. destruct Y as [_ Y]. apply mem_false_iff in Y.
      contradiction. }
    rewrite app_nil_r, (plan_dir_common d fs2 _ G2).
    set (fs1 := Py.getitem d files1 []).
    assert (W1 : NoDup (keys fs1)) by apply (files1_dir_wf files1 files1_wf d).
    assert (W2 : NoDup (keys fs2)) by apply (proj2 files2_wf d fs2 G2).
    rewrite (filter_map_at (file_action files1 d fs2) _ (keys fs1) f W1).
    2:{ intros x _ Hne. unfold file_action.
        destruct (Py.get x fs2); simpl; [|reflexivity].
        rewrite String.eqb_refl. simpl. now apply String.eqb_neq. }
    rewrite (filter_map_at (OnlyRight d) _ _ f (NoDup_filter _ W2)).
    2:{ intros x _ Hne. simpl. rewrite String.eqb_refl. simpl.
        now apply String.eqb_neq. }
    assert (Hf : Py.get f fs2 <> None).
    { apply mem_iff in F2. unfold Py.mem in F2. now destruct (Py.get f fs2). }
    destruct (in_dec string_dec f (keys fs1)) as [Y1|N1];
      destruct (in_dec string_dec f (filter _ (keys fs2))) as [Y2|N2].
    + apply filter_In in Y2. destruct Y2 as [_ Y2]. apply negb_true_iff in Y2.
      apply mem_false_iff in Y2. contradiction.
    + unfold file_action. destruct (Py.get f fs2); [|congruence].
      simpl. now rewrite !String.eqb_refl.
    + simpl. now rewrite !String.eqb_refl.
    + exfalso. apply N2. apply filter_In. split; [assumption|].
      apply negb_true_iff. now apply mem_false_iff.
  - destruct (in_dec string_dec d (dirs_only_in files2 files1)) as [_|N].
    + simpl. now rewrite String.eqb_refl.
    + exfalso. apply N. apply in_dirs_only. split; [assumption|].
      now apply mem_false_iff.
Qed.

End EachFile.

Section EachLine.

Context {OS : Os}.
Variable args : Args.

(** The lines of a kind that only quiet actions write are the lines of
    those actions, in their order. *)
Lemma run_lines_of (p : line -> bool) (q : action -> bool) :
  (forall a, q a = false -> forall st,
     filter (fun e => p (snd e)) (st_written (perform args a st))
     = filter (fun e => p (snd e)) (st_written st)) ->
  (forall a, q a = true -> quiet a = true /\ p (quiet_line args a) = true) ->
  forall acts st,
    filter (fun e => p (snd e)) (st_written (run args acts st))
    = filter (fun e => p (snd e)) (st_written st)
      ++ map (fun a => (output_handle args, quiet_line args a)) (filter q acts).
Proof.
  intros Hno Hyes acts. induction acts as [|a acts IH]; intros st.
  - simpl. now rewrite app_nil_r.
  - rewrite run_cons, IH. cbn [filter]. destruct (q a) eqn:E.
    + destruct (Hyes a E) as [Hq Hp]. rewrite (perform_quiet args a st Hq).
      cbn [st_written map]. rewrite filter_app. cbn [filter snd]. rewrite Hp.
      now rewrite <- app_assoc.
    + now rewrite (Hno a E).
Qed.

Variables files1 files2 : dict (dict string).
Hypothesis files1_wf : listing_wf files1.
Hypothesis files2_wf : listing_wf files2.

Lemma reports_file_dir d f a : reports_file d f a = true -> action_dir a = d.
Proof.
  destruct a; simpl; try discriminate; intros E; apply andb_prop in E;
    destruct E as [E _]; now apply String.eqb_eq in E.
Qed.

Lemma reports_directory_dir d a : reports_directory d a = true -> action_dir a = d.
Proof.
  destruct a; simpl; try discriminate; intros E; now apply String.eqb_eq in E.
Qed.

Lemma mem_in_dec {V} (k : string) (m : dict V) :
  Py.mem k m = if in_dec string_dec k (keys m) then true else false.
Proof.
  destruct (in_dec string_dec k (keys m)) as [H|H];
    [now apply mem_iff | now apply mem_false_iff].
Qed.

(** The actions that report the name [f] under [d], and their lines. *)
Lemma missing_file_actions (d f : string) :
  map (fun a => (output_handle args, quiet_line args a))
      (filter (reports_file d f) (plan files1 files2))
  = missing_file_lines args files1 files2 d f.
Proof.
  rewrite (filter_plan_at files1 files2 files1_wf files2_wf _ d (reports_file_dir d f)).
  assert (E2 : forall l, (if in_dec string_dec d l
                          then filter (reports_file d f)
                                 [DirOnlyRight d (List.length (Py.getitem d files2 []))]
                          else []) = []) by (intros l; now destruct (in_dec _ _ _)).
  rewrite E2, app_nil_r. unfold missing_file_lines.
  rewrite (mem_in_dec d files1).
  destruct (in_dec string_dec d (keys files1)) as [Hd1|Hd1]; [|reflexivity].
  cbn [andb]. destruct (Py.get d files2) as [fs2|] eqn:G2.
  - assert (M2 : Py.mem d files2 = true) by (unfold Py.mem; now rewrite G2).
    rewrite M2, (plan_dir_common files1 files2 d fs2 _ G2).
    set (fs1 := Py.getitem d files1 []).
    assert (W1 : NoDup (keys fs1)) by apply (files1_dir_wf files1 files1_wf d).
    assert (W2 : NoDup (keys fs2)) by apply (proj2 files2_wf d fs2 G2).
    rewrite (filter_map_at (file_action files1 d fs2) _ (keys fs1) f W1).
    2:{ intros x _ Hne. unfold file_action.
        destruct (Py.get x fs2); simpl; [reflexivity|].
        rewrite String.eqb_refl. simpl. now apply String.eqb_neq. }
    rewrite (filter_map_at (OnlyRight d) _ _ f (NoDup_filter _ W2)).
    2:{ intros x _ Hne. simpl. rewrite String.eqb_refl. simpl.
        now apply String.eqb_neq. }
    assert (H1 : has files1 (d, f) = Py.mem f fs1) by reflexivity.
    assert (H2 : has files2 (d, f) = Py.mem f fs2).
    { unfold has, Py.getitem. simpl. now rewrite G2. }
    rewrite H1, H2, (mem_in_dec f fs1), (mem_in_dec f fs2).
    unfold quiet_line. destruct (args_images args) as [image1 image2]. simpl fst. simpl snd.
    destruct (in_dec string_dec f (keys fs1)) as [Y1|N1];
      destruct (in_dec string_dec f (keys fs2)) as [Y2|N2];
      destruct (in_dec string_dec f (filter _ (keys fs2))) as [Y3|N3];
      try (apply filter_In in Y3; destruct Y3 as [Y3 Y4];
           apply negb_true_iff in Y4; apply mem_false_iff in Y4);
      try contradiction; cbn [andb negb app].
    + unfold file_action.
      assert (G : Py.get f fs2 <> None).
      { apply mem_iff in Y2. unfold Py.mem in Y2. now destruct (Py.get f fs2). }
      destruct (Py.get f fs2); [reflexivity | congruence].
    + unfold file_action.
      assert (G : Py.get f fs2 = None) by now apply get_none_iff.
      rewrite G. simpl. now rewrite !String.eqb_refl.
    + simpl. now rewrite !String.eqb_refl.
    + exfalso. apply N3. apply filter_In. split; [assumption|].
      apply negb_true_iff. now apply mem_false_iff.
    + reflexivity.
  - assert (M2 : Py.mem d files2 = false) by (unfold Py.mem; now rewrite G2).
    rewrite M2. unfold plan_dir. rewrite G2. reflexivity.
Qed.

(** The actions that report the key [d], and their lines. *)
Lemma missing_directory_actions (d : string) :
  map (fun a => (output_handle args, quiet_line args a))
      (filter (reports_directory d) (plan files1 files2))
  = missing_directory_lines args files1 files2 d.
Proof.
  rewrite (filter_plan_at files1 files2 files1_wf files2_wf _ d (reports_directory_dir d)).
  unfold missing_directory_lines, quiet_line.
  destruct (args_images args) as [image1 image2]. simpl fst. simpl snd.
  rewrite (mem_in_dec d files1).
  destruct (in_dec string_dec d (keys files1)) as [Hd1|Hd1].
  - destruct (in_dec string_dec d (dirs_only_in files2 files1)) as [Y|_].
    { apply in_dirs_only in Y. destruct Y as [_ Y]. apply mem_false_iff in Y.
      contradiction. }
    rewrite app_nil_r. cbn [andb negb]. rewrite andb_false_r.
    destruct (Py.get d files2) as [fs2|] eqn:G2.
    + assert (M2 : Py.mem d files2 = true) by (unfold Py.mem; now rewrite G2).
      rewrite M2. cbn [negb]. rewrite filter_none; [reflexivity|].
      intros a Ha. unfold plan_dir in Ha. rewrite G2 in Ha.
      apply in_app_or in Ha. destruct Ha as [Ha|Ha]; apply in_map_iff in Ha;
        destruct Ha as [x [<- _]]; [|reflexivity].
      unfold file_action. now destruct (Py.get x fs2).
    + assert (M2 : Py.mem d files2 = false) by (unfold Py.mem; now rewrite G2).
      rewrite M2. unfold plan_dir. rewrite G2. simpl. now rewrite String.eqb_refl.
  - cbn [andb app]. rewrite (mem_in_dec d files2).
    destruct (in_dec string_dec d (dirs_only_in files2 files1)) as [Y|N];
      destruct (in_dec string_dec d (keys files2)) as [Y2|N2]; cbn [andb negb].
    + simpl. now rewrite String.eqb_refl.
    + apply in_dirs_only in Y. tauto.
    + exfalso. apply N. apply in_dirs_only. split; [assumption|].
      now apply mem_false_iff.
    + reflexivity.
Qed.

End EachLine.

Section EachMissmatch.

Context {OS : Os}.
Variable args : Args.

Lemma perform_missmatch_of (d f : string) (a : action) (st : state) :
  List.length (filter (fun e => is_missmatch_of d f (snd e))
                      (st_written (perform args a st)))
  <= List.length (filter (fun e => is_missmatch_of d f (snd e)) (st_written st))
     + (if compares d f a then 1 else 0).
Proof.
  unfold perform. destruct (args_images args) as [image1 image2].
  destruct a as [d' f' p1 p2|d' f'|d' f'|d' n|d' n];
    try (unfold count, write, set_ret; destruct (args_stats args); simpl;
         rewrite filter_app, length_app; simpl; lia).
  destruct (compare_files p1 p2 (st_os st)) as [[[|]|[]] o];
    unfold count, write, set_ret, run_diffoscope, with_os, sys_diffoscope;
    destruct (args_stats args), (args_diffoscope args); simpl;
    try destruct (os_diffoscope _ p1 p2); simpl;
    rewrite ?filter_app, ?length_app; simpl;
    destruct (String.eqb d' d && String.eqb f' f); simpl; lia.
Qed.

Lemma run_missmatch_of (d f : string) (acts : list action) (st : state) :
  List.length (filter (fun e => is_missmatch_of d f (snd e))
                      (st_written (run args acts st)))
  <= List.length (filter (fun e => is_missmatch_of d f (snd e)) (st_written st))
     + List.length (filter (compares d f) acts).
Proof.
  revert st. induction acts as [|a acts IH]; intros st; [simpl; lia|].
  rewrite run_cons. specialize (IH (perform args a st)).
  pose proof (perform_missmatch_of d f a st) as H. cbn [filter].
  destruct (compares d f a); simpl in *; lia.
Qed.

End EachMissmatch.

Lemma length_filter_le {A} (p q : A -> bool) (l : list A) :
  (forall x, p x = true -> q x = true) ->
  List.length (filter p l) <= List.length (filter q l).
Proof.
  intros H. induction l as [|x l IH]; simpl; [lia|].
  destruct (p x) eqn:E.
  - rewrite (H x E). simpl. lia.
  - destruct (q x); simpl; lia.
Qed.

Lemma compared_is_common (files1 files2 : dict (dict string)) (d f : string) (a : action) :
  In a (plan files1 files2) ->
  compares d f a = true ->
  has files1 (d, f) = true /\ has files2 (d, f) = true.
Proof.
  intros Hin Hc. destruct a as [d' f' p1 p2| | | |]; try discriminate.
  simpl in Hc. apply andb_prop in Hc. destruct Hc as [Ed Ef].
  apply String.eqb_eq in Ed. apply String.eqb_eq in Ef. subst d' f'.
  unfold plan in Hin. apply in_app_or in Hin. destruct Hin as [Hin|Hin].
  - apply in_flat_map in Hin. destruct Hin as [x [_ Hin]]. unfold plan_dir in Hin.
    destruct (Py.get x files2) as [fs2|] eqn:G2.
    + apply in_app_or in Hin. destruct Hin as [Hin|Hin]; apply in_map_iff in Hin;
        destruct Hin as [y [E Hy]]; [|discriminate].
      unfold file_action in E. destruct (Py.get y fs2) as [p|] eqn:Gy; [|discriminate].
      injection E as -> -> _ _. unfold has, Py.getitem. simpl. split.
      * now apply mem_iff.
      * rewrite G2. unfold Py.mem. now rewrite Gy.
    + destruct Hin as [E|[]]. discriminate.
  - apply in_map_iff in Hin. destruct Hin as [x [E _]]. discriminate.
Qed.

(** C4, as the script has it.  The two outer loops go through the keys of
    [image1.files] and then through what the first loop left of
    [image2.files]: together, every directory of either listing, none
    twice.  What the loops do is the run of [plan], and in it, with [-s]
    or without, every file of either listing is settled by one action and
    no more: the file is compared, reported missing by name, or missing
    with its directory.  So the report has its one "Missing File" line for
    a name that one side only has under a common key and none for another
    name, its one "Missing Directory" line for a key that one side only
    has and none for another key, and at most one "File Missmatch" line
    for a file of both sides, none for another.  The counters are another
    matter: with [-s], the files found on both sides are counted once in
    [match] or [missmatch], those of the first listing only once in
    [missing1], those of the second only once in [missing2], so that the
    total is the number of distinct files; without [-s] the counters stay
    at zero. *)
Theorem every_entry_once {OS : Os} (args : Args) (files1 files2 : dict (dict string))
        (w : world) :
  listing_wf files1 ->
  listing_wf files2 ->
  let visited :=
    keys files1 ++ keys (st_files2 (reconcile_left args files1 (initial w files2))) in
  let files := entries files1 ++ only_in files2 files1 in
  let st := reconcile args files1 files2 w in
  let s := st_stats st in
  (NoDup visited
   /\ forall d, In d visited <-> In d (keys files1) \/ In d (keys files2))
  /\ (NoDup files
      /\ forall e, In e files <-> In e (entries files1) \/ In e (entries files2))
  /\ st = with_files2 (pops (keys files1) files2)
                      (run args (plan files1 files2) (initial w files2))
  /\ (forall e, In e (entries files1) ->
        List.length (filter (classifies_left e) (plan files1 files2)) = 1)
  /\ (forall e, In e (entries files2) ->
        List.length (filter (classifies_right e) (plan files1 files2)) = 1)
  /\ (forall d f,
        filter (fun e => is_missing_file d f (snd e)) (st_written st)
        = missing_file_lines args files1 files2 d f)
  /\ (forall d,
        filter (fun e => is_missing_directory d (snd e)) (st_written st)
        = missing_directory_lines args files1 files2 d)
  /\ (forall d f,
        List.length (filter (fun e => is_missmatch_of d f (snd e)) (st_written st))
        <= (if has files1 (d, f) && has files2 (d, f) then 1 else 0))
  /\ (args_stats args = true ->
      stat_match s + stat_missmatch s = List.length (on_both files1 files2)
      /\ stat_missing1 s = List.length (only_in files1 files2)
      /\ stat_missing2 s = List.length (only_in files2 files1)
      /\ file_total s = List.length files)
  /\ (args_stats args = false -> s = stats_zero).
Proof.
  intros Hwf1 Hwf2 visited files st s.
  destruct (listings_are_covered args files1 files2 w Hwf1 Hwf2) as (Hdirs & Hfiles & Hon & Hoff).
  split; [exact Hdirs|]. split; [exact Hfiles|].
  assert (Hplan : st = with_files2 (pops (keys files1) files2)
                                   (run args (plan files1 files2) (initial w files2)))
    by (apply reconcile_plan; assumption).
  split; [exact Hplan|].
  split; [intros [d f] He; apply classified_left_once; auto; now apply in_entries|].
  split; [intros [d f] He; apply classified_right_once; auto; now apply in_entries|].
  split; [|split; [|split; [|split; [exact Hon | exact Hoff]]]].
  - intros d f. rewrite Hplan. cbn [st_written with_files2].
    rewrite (run_lines_of args (is_missing_file d f) (reports_file d f)).
    + now apply missing_file_actions.
    + intros a Ha st0. now apply perform_missing_file.
    + intros a Ha. unfold quiet_line. destruct (args_images args).
      destruct a; simpl in *; try discriminate; auto.
  - intros d. rewrite Hplan. cbn [st_written with_files2].
    rewrite (run_lines_of args (is_missing_directory d) (reports_directory d)).
    + now apply missing_directory_actions.
    + intros a Ha st0. now apply perform_missing_directory.
    + intros a Ha. unfold quiet_line. destruct (args_images args).
      destruct a; simpl in *; try discriminate; auto.
  - intros d f. rewrite Hplan. cbn [st_written with_files2].
    pose proof (run_missmatch_of args d f (plan files1 files2) (initial w files2)) as H.
    simpl in H.
    destruct (has files1 (d, f) && has files2 (d, f)) eqn:E.
    + apply andb_prop in E. destruct E as [E1 _].
      pose proof (classified_left_once files1 files2 Hwf1 Hwf2 d f E1) as H1.
      pose proof (length_filter_le (compares d f) (classifies_left (d, f))
                    (plan files1 files2)) as H2.
      assert (H3 : forall x, compares d f x = true -> classifies_left (d, f) x = true)
        by (intros x; destruct x; simpl; auto; discriminate).
      specialize (H2 H3). lia.
    + rewrite (filter_none (compares d f) (plan files1 files2)) in H; [simpl in H; lia|].
      intros a Ha. destruct (compares d f a) eqn:Ec; [|reflexivity].
      destruct (compared_is_common files1 files2 d f a Ha Ec) as [E1 E2].
      rewrite E1, E2 in E. discriminate.
Qed.

(* ===================================================================== *)
(** * What the scanner records *)
(* ===================================================================== *)

Lemma node_induction (P : node -> Prop) :
  P File ->
  (forall target dest, P (Symlink target dest)) ->
  (forall es, Forall (fun e => P (snd e)) es -> P (Dir es)) ->
  forall n, P n.
Proof.
  intros HF HS HD. fix IH 1. intros [|target dest|es].
  - exact HF.
  - apply HS.
  - apply HD. induction es as [|[name child] es IHes]; constructor.
    + apply IH.
    + exact IHes.
Qed.

Lemma get_in {V} (k : string) (v : V) (d : dict V) : Py.get k d = Some v -> In (k, v) d.
Proof.
  induction d as [|[k' v'] d IH]; simpl; [discriminate|].
  destruct (String.eqb_spec k' k) as [->|Hne].
  - intros [= ->]. now left.
  - intros H. right. auto.
Qed.

Lemma get_map_values {V W} (g : string -> V -> W) (k : string) (d : dict V) :
  Py.get k (map (fun e => (fst e, g (fst e) (snd e))) d)
  = option_map (g k) (Py.get k d).
Proof.
  induction d as [|[k' v'] d IH]; simpl; [reflexivity|].
  destruct (String.eqb_spec k' k) as [->|Hne]; [reflexivity | assumption].
Qed.

Lemma walk_dir (edit : list string -> list string) (top : string)
      (es : list (string * node)) :
  walk edit top (Dir es)
  = (top, dir_names es, file_names es)
      :: flat_map (fun d =>
                     match Py.get d es with
                     | Some child => walk edit (path_join top d) child
                     | None => []
                     end)
                  (edit (dir_names es)).
Proof.
  simpl. f_equal. apply flat_map_ext. intros d.
  assert (E : (fix below (es0 : list (string * node)) : dict (list walk_item) :=
                 match es0 with
                 | [] => []
                 | (name, child) :: es' =>
                     (name, walk edit (path_join top name) child) :: below es'
                 end) es
              = map (fun e => (fst e, walk edit (path_join top (fst e)) (snd e))) es).
  { induction es as [|[name child] es IH]; [reflexivity|]. now rewrite IH. }
  rewrite E. unfold Py.getitem.
  rewrite (get_map_values (fun name child => walk edit (path_join top name) child)).
  now destruct (Py.get d es).
Qed.

Section WalkItems.

Variable edit : list string -> list string.
Hypothesis edit_in : forall l x, In x (edit l) <-> In x l.

Lemma walk_sound (n : node) :
  forall top item,
    In item (walk edit top n) ->
    exists comps es,
      subdir comps n = Some es
      /\ item = (walk_root top comps, dir_names es, file_names es).
Proof.
  induction n as [| |es IH] using node_induction; intros top item Hin;
    try (simpl in Hin; contradiction).
  rewrite walk_dir in Hin. destruct Hin as [<-|Hin].
  - exists [], es. split; reflexivity.
  - apply in_flat_map in Hin. destruct Hin as [d [_ Hin]].
    destruct (Py.get d es) as [child|] eqn:Hget; [|contradiction].
    rewrite Forall_forall in IH.
    destruct (IH (d, child) (get_in _ _ _ Hget) _ _ Hin) as [comps [es' [Hsub ->]]].
    exists (d :: comps), es'. simpl. rewrite Hget. split; [assumption | reflexivity].
Qed.

Lemma subdir_is_dir comps n es : subdir comps n = Some es -> is_dir n = true.
Proof. destruct n, comps; simpl; congruence. Qed.

Lemma walk_complete comps :
  forall n top es,
    subdir comps n = Some es ->
    In (walk_root top comps, dir_names es, file_names es) (walk edit top n).
Proof.
  induction comps as [|d comps IH]; intros n top es Hsub.
  - destruct n; try discriminate. injection Hsub as ->.
    rewrite walk_dir. now left.
  - destruct n as [| |es0]; try discriminate. simpl in Hsub.
    destruct (Py.get d es0) as [child|] eqn:Hget; [|discriminate].
    rewrite walk_dir. right. apply in_flat_map. exists d. split.
    + apply edit_in. unfold dir_names. apply in_map_iff. exists (d, child).
      split; [reflexivity|]. apply filter_In. split; [now apply get_in|].
      simpl. eapply subdir_is_dir; eauto.
    + rewrite Hget. simpl. now apply IH.
Qed.

End WalkItems.

Lemma insert_sorted_in (x y : string) (l : list string) :
  In y (insert_sorted x l) <-> y = x \/ In y l.
Proof.
  induction l as [|z l IH]; simpl; [intuition|].
  destruct (String.leb x z); simpl; [intuition|]. rewrite IH. intuition.
Qed.

Lemma sort_in (l : list string) (x : string) : In x (Py.sort l) <-> In x l.
Proof.
  induction l as [|y l IH]; simpl; [tauto|].
  rewrite insert_sorted_in, IH. intuition.
Qed.

Lemma get_contents_loops (top_dir : string) (sorted : bool) (tree : node) :
  get_contents top_dir sorted tree
  = fold_left (add_item (rstrip_slash top_dir) sorted)
              (os_walk (if sorted then Py.sort else fun dirs => dirs)
                       (rstrip_slash top_dir) tree)
              [].
Proof. reflexivity. Qed.

Section Listing.

Variable top : string.

Lemma add_file_listed root file fd k name :
  listed (add_file top root file fd) k name
  <-> listed fd k name \/ (k = relpath root top /\ name = file).
Proof.
  unfold add_file, listed. set (path := relpath root top).
  destruct (string_dec k path) as [->|Hne].
  - rewrite get_set_same. unfold Py.mem, Py.getitem.
    destruct (Py.get path fd) as [fs|] eqn:E.
    + rewrite E. split.
      * intros [fs' [[= <-] Hin]]. apply in_keys_set in Hin.
        destruct Hin as [->|Hin]; [now right | left; eauto].
      * intros [[fs' [[= <-] Hin]]|[_ ->]]; eexists; (split; [reflexivity|]);
          apply in_keys_set; tauto.
    + rewrite get_set_same. split.
      * intros [fs' [[= <-] Hin]]. simpl in Hin. destruct Hin as [<-|[]]. now right.
      * intros [[fs' [[=] _]]|[_ ->]]. eexists. split; [reflexivity|].
        simpl. now left.
  - rewrite get_set_other by assumption.
    assert (E : Py.get k (if Py.mem path fd then fd else Py.set path ([] : dict string) fd)
                = Py.get k fd).
    { destruct (Py.mem path fd); [reflexivity | now apply get_set_other]. }
    rewrite E. split; [tauto | intros [H|[H _]]; [assumption | contradiction]].
Qed.

Lemma add_file_keys root file fd k :
  In k (keys (add_file top root file fd)) <-> In k (keys fd) \/ k = relpath root top.
Proof.
  unfold add_file. set (path := relpath root top).
  rewrite in_keys_set. destruct (Py.mem path fd) eqn:E.
  - tauto.
  - rewrite in_keys_set. tauto.
Qed.

Lemma add_files_listed root files fd k name :
  listed (fold_left (fun fd file => add_file top root file fd) files fd) k name
  <-> listed fd k name \/ (k = relpath root top /\ In name files).
Proof.
  revert fd. induction files as [|file files IH]; intros fd; simpl; [tauto|].
  rewrite IH, add_file_listed. intuition (subst; auto).
Qed.

Lemma add_files_keys root files fd k :
  In k (keys (fold_left (fun fd file => add_file top root file fd) files fd))
  <-> In k (keys fd) \/ (k = relpath root top /\ files <> []).
Proof.
  revert fd. induction files as [|file files IH]; intros fd; simpl; [tauto|].
  rewrite IH, add_file_keys. split.
  - intros [[H|H]|[H _]]; [now left | right | right]; split; auto; discriminate.
  - intros [H|[H _]]; [tauto|]. left. now right.
Qed.

Variable sorted : bool.

Lemma add_item_listed item fd k name :
  listed (add_item top sorted fd item) k name
  <-> listed fd k name
      \/ (k = relpath (fst (fst item)) top /\ In name (snd item)).
Proof.
  destruct item as [[root dirs] files]. unfold add_item. simpl.
  rewrite add_files_listed. destruct sorted; [rewrite sort_in|]; reflexivity.
Qed.

Lemma add_item_keys item fd k :
  In k (keys (add_item top sorted fd item))
  <-> In k (keys fd) \/ (k = relpath (fst (fst item)) top /\ snd item <> []).
Proof.
  destruct item as [[root dirs] files]. unfold add_item. simpl.
  rewrite add_files_keys. destruct sorted; [|reflexivity].
  assert (E : Py.sort files <> [] <-> files <> []).
  { destruct files as [|f files]; [simpl; tauto|]. split; [discriminate|].
    intros _ H. assert (Hin : In f (Py.sort (f :: files))) by (apply sort_in; now left).
    rewrite H in Hin. destruct Hin. }
  now rewrite E.
Qed.

Lemma add_items_listed items fd k name :
  listed (fold_left (add_item top sorted) items fd) k name
  <-> listed fd k name
      \/ exists item, In item items
                      /\ k = relpath (fst (fst item)) top /\ In name (snd item).
Proof.
  revert fd. induction items as [|item items IH]; intros fd; simpl.
  - split; [tauto | intros [H|[item [[] _]]]; assumption].
  - rewrite IH, add_item_listed. split.
    + intros [[H|H]|[it [Hin H]]]; [now left | right; exists item; tauto
                                   | right; exists it; tauto].
    + intros [H|[it [[<-|Hin] H]]]; [tauto | tauto | right; exists it; tauto].
Qed.

Lemma add_items_keys items fd k :
  In k (keys (fold_left (add_item top sorted) items fd))
  <-> In k (keys fd)
      \/ exists item, In item items
                      /\ k = relpath (fst (fst item)) top /\ snd item <> [].
Proof.
  revert fd. induction items as [|item items IH]; intros fd; simpl.
  - split; [tauto | intros [H|[item [[] _]]]; assumption].
  - rewrite IH, add_item_keys. split.
    + intros [[H|H]|[it [Hin H]]]; [now left | right; exists item; tauto
                                   | right; exists it; tauto].
    + intros [H|[it [[<-|Hin] H]]]; [tauto | tauto | right; exists it; tauto].
Qed.

End Listing.

Lemma in_file_names (es : list (string * node)) (name : string) :
  In name (file_names es) <-> exists c, In (name, c) es /\ is_dir c = false.
Proof.
  unfold file_names. rewrite in_map_iff. split.
  - intros [[n c] [<- H]]. apply filter_In in H. destruct H as [H1 H2].
    exists c. split; [assumption | now apply negb_true_iff].
  - intros [c [H1 H2]]. exists (name, c). split; [reflexivity|].
    apply filter_In. split; [assumption | now apply negb_true_iff].
Qed.

Lemma edit_in_of (sorted : bool) (l : list string) (x : string) :
  In x ((if sorted then Py.sort else fun dirs => dirs) l) <-> In x l.
Proof. destruct sorted; [apply sort_in | reflexivity]. Qed.

(** What is recorded under which key: the names of the entries that are
    not directories (and do not resolve to one), of every directory that
    can be reached without passing through a link. *)
Lemma get_contents_listed (top_dir : string) (sorted : bool) (tree : node)
      (k name : string) :
  rstrip_slash top_dir <> "" ->
  listed (get_contents top_dir sorted tree) k name
  <-> exists comps es c,
        subdir comps tree = Some es
        /\ In (name, c) es /\ is_dir c = false
        /\ k = relpath (walk_root (rstrip_slash top_dir) comps) (rstrip_slash top_dir).
Proof.
  intros Htop. rewrite get_contents_loops, add_items_listed. unfold os_walk.
  apply String.eqb_neq in Htop. rewrite Htop. split.
  - intros [[fs [[=] _]]|[item [Hin [-> Hname]]]].
    apply walk_sound in Hin. destruct Hin as [comps [es [Hsub ->]]]. simpl in *.
    apply in_file_names in Hname. destruct Hname as [c [Hc Hd]].
    exists comps, es, c. tauto.
  - intros [comps [es [c [Hsub [Hc [Hd ->]]]]]]. right.
    exists (walk_root (rstrip_slash top_dir) comps, dir_names es, file_names es).
    split; [|split; [reflexivity|]].
    + apply walk_complete; [apply edit_in_of | assumption].
    + simpl. apply in_file_names. eauto.
Qed.

Lemma get_contents_keys (top_dir : string) (sorted : bool) (tree : node) (k : string) :
  rstrip_slash top_dir <> "" ->
  In k (keys (get_contents top_dir sorted tree))
  <-> exists comps es name c,
        subdir comps tree = Some es
        /\ In (name, c) es /\ is_dir c = false
        /\ k = relpath (walk_root (rstrip_slash top_dir) comps) (rstrip_slash top_dir).
Proof.
  intros Htop. rewrite get_contents_loops, add_items_keys. unfold os_walk.
  apply String.eqb_neq in Htop. rewrite Htop. split.
  - intros [[]|[item [Hin [-> Hne]]]].
    apply walk_sound in Hin. destruct Hin as [comps [es [Hsub ->]]]. simpl in *.
    destruct (file_names es) as [|name names] eqn:E; [congruence|].
    assert (Hname : In name (file_names es)) by (rewrite E; now left).
    apply in_file_names in Hname. destruct Hname as [c [Hc Hd]].
    exists comps, es, name, c. tauto.
  - intros [comps [es [name [c [Hsub [Hc [Hd ->]]]]]]]. right.
    exists (walk_root (rstrip_slash top_dir) comps, dir_names es, file_names es).
    split; [|split; [reflexivity|]].
    + apply walk_complete; [apply edit_in_of | assumption].
    + simpl. intros E. assert (Hname : In name (file_names es))
        by (apply in_file_names; eauto).
      rewrite E in Hname. destruct Hname.
Qed.

(** ** Symbolic links in the scan *)

(** C9, as the script has it.  A symbolic link that does not resolve to a
    directory (a link to a file, or a dangling one) is recorded by name
    under the key of the directory that holds it, like any file.  Nothing
    else is recorded than such entries of the directories reached from the
    root through real directories: no link is followed.  A link that
    resolves to a directory is in the [dirs] list of [os.walk], which
    [get_contents] does not read: see [directory_link_is_not_recorded]. *)
Theorem links_are_leaves (top_dir : string) (sorted : bool) (tree : node) :
  rstrip_slash top_dir <> "" ->
  let top := rstrip_slash top_dir in
  let files := get_contents top_dir sorted tree in
  (forall comps es name target dest,
      subdir comps tree = Some es ->
      In (name, Symlink target dest) es ->
      is_dir (Symlink target dest) = false ->
      listed files (relpath (walk_root top comps) top) name)
  /\ (forall k name,
         listed files k name ->
         exists comps es c,
           subdir comps tree = Some es
           /\ In (name, c) es /\ is_dir c = false
           /\ k = relpath (walk_root top comps) top).
Proof.
  intros Htop top files. subst top files. split.
  - intros comps es name target dest Hsub Hin Hd.
    apply get_contents_listed; [assumption|].
    exists comps, es, (Symlink target dest). tauto.
  - intros k name H. now apply get_contents_listed in H.
Qed.

(** The root [A] holds a dangling link and a link to a file, and in [sub]
    the same: all four are recorded. *)
Lemma links_are_leaves_witness :
  let tree := Dir [("dangling", Symlink "nowhere" None);
                   ("to_file", Symlink "sub/x" (Some File));
                   ("sub", Dir [("x", File); ("up", Symlink "../dangling" None)])] in
  let files := get_contents "A/" true tree in
  rstrip_slash "A/" <> ""
  /\ listed files "." "dangling"
  /\ listed files "." "to_file"
  /\ listed files "sub" "up".
Proof.
  intros tree files.
  assert (Htop : rstrip_slash "A/" <> "") by discriminate.
  destruct (links_are_leaves "A/" true tree Htop) as [H _].
  split; [exact Htop|]. repeat split.
  - refine (H [] _ "dangling" "nowhere" None eq_refl _ eq_refl). now left.
  - refine (H [] _ "to_file" "sub/x" (Some File) eq_refl _ eq_refl). right. now left.
  - refine (H ["sub"] _ "up" "../dangling" None eq_refl _ eq_refl). right. now left.
Defined.

(** C9 as stated fails on a link to a directory: [lnk] points to the
    directory [sub]; the listing has the files of the root and of [sub],
    and no entry named [lnk] anywhere, in either traversal order. *)
Lemma directory_link_is_not_recorded :
  let tree := Dir [("lnk", Symlink "sub" (Some (Dir [("x", File)])));
                   ("a.txt", File);
                   ("sub", Dir [("x", File)])] in
  get_contents "A" false tree
  = [(".", [("a.txt", "A/a.txt")]); ("sub", [("x", "A/sub/x")])]
  /\ get_contents "A" true tree
     = [(".", [("a.txt", "A/a.txt")]); ("sub", [("x", "A/sub/x")])]
  /\ ~ listed (get_contents "A" false tree) "." "lnk"
  /\ ~ listed (get_contents "A" true tree) "." "lnk".
Proof.
  intros tree. vm_compute. repeat split.
  - intros [fs [[= <-] [H|[]]]]. discriminate.
  - intros [fs [[= <-] [H|[]]]]. discriminate.
Qed.

(* ===================================================================== *)
(** * The theorems at work on small trees *)
(* ===================================================================== *)

Lemma nodupb_sound (l : list string) : nodupb l = true -> NoDup l.
Proof.
  induction l as [|x l IH]; simpl; [constructor|].
  intros H. apply andb_true_iff in H. destruct H as [Hx Hl].
  constructor; [|auto]. apply negb_true_iff in Hx. intros Hin.
  apply existsb_eqb_iff in Hin. congruence.
Qed.

Lemma listing_ok_sound (files : dict (dict string)) :
  listing_ok files = true -> listing_wf files.
Proof.
  unfold listing_ok. intros H. apply andb_true_iff in H. destruct H as [Hk Hin].
  split; [now apply nodupb_sound|]. intros d fs Hget.
  apply get_in in Hget. rewrite forallb_forall in Hin.
  apply nodupb_sound. apply (Hin (d, fs) Hget).
Qed.

(** [every_entry_once] on [a.txt, b.txt] against [a.txt]: two files are
    counted. *)
Lemma every_entry_once_witness :
  listing_wf Example.left_with_b
  /\ listing_wf Example.right
  /\ file_total (st_stats (reconcile (OS := Toy.os) Example.with_stats
                                     Example.left_with_b Example.right
                                     Example.files_on_disk)) = 2.
Proof.
  assert (H1 : listing_wf Example.left_with_b) by (apply listing_ok_sound; reflexivity).
  assert (H2 : listing_wf Example.right) by (apply listing_ok_sound; reflexivity).
  split; [exact H1|]. split; [exact H2|].
  destruct (every_entry_once (OS := Toy.os) Example.with_stats Example.left_with_b
              Example.right Example.files_on_disk H1 H2)
    as (_ & _ & _ & _ & _ & _ & _ & _ & Hon & _).
  destruct (Hon eq_refl) as (_ & _ & _ & Htotal). exact Htotal.
Defined.

(** C4 as stated fails without [-s]: [b.txt] is in the first listing
    only, the loops report it in its one line, and no counter has
    moved. *)
Lemma files_are_not_counted_without_stats :
  let st := reconcile (OS := Toy.os) Example.without_stats
                      Example.left_with_b Example.right Example.files_on_disk in
  In (".", "b.txt") (entries Example.left_with_b)
  /\ st_written st = [(Stdout, MissingFile "." "b.txt" "A" "B")]
  /\ st_stats st = stats_zero
  /\ file_total (st_stats st) <> List.length (entries Example.left_with_b).
Proof. vm_compute. repeat split; [right; now left | discriminate]. Qed.

(** [identical_trees_are_clean] on two trees that hold the same [a.txt]. *)
Lemma identical_trees_are_clean_witness :
  listing_wf Example.left
  /\ listing_wf Example.right
  /\ identical (OS := Toy.os) Example.files_on_disk Example.left Example.right
  /\ st_ret (reconcile (OS := Toy.os) Example.with_stats Example.left Example.right
                       Example.files_on_disk) = 0.
Proof.
  assert (H1 : listing_wf Example.left) by (apply listing_ok_sound; reflexivity).
  assert (H2 : listing_wf Example.right) by (apply listing_ok_sound; reflexivity).
  assert (H3 : identical (OS := Toy.os) Example.files_on_disk Example.left Example.right).
  { unfold identical, Example.left, Example.right, Py.mem, Py.getitem.
    cbn -[String.eqb]. repeat split.
    - intros d. destruct (String.eqb "." d); reflexivity.
    - intros d f. destruct (String.eqb "." d); cbn -[String.eqb]; [|reflexivity].
      destruct (String.eqb "a.txt" f); reflexivity.
    - intros d f path1 path2.
      destruct (String.eqb "." d); cbn -[String.eqb]; [|discriminate].
      destruct (String.eqb "a.txt" f); [|discriminate].
      intros [= <-] [= <-]. exists (list_byte_of_string "hello"). split; reflexivity. }
  split; [exact H1|]. split; [exact H2|]. split; [exact H3|].
  exact (proj1 (identical_trees_are_clean (OS := Toy.os) Example.with_stats
                  Example.left Example.right Example.files_on_disk H1 H2 H3)).
Defined.

(** [one_extra_file]: [b.txt] added after [a.txt] on the left. *)
Lemma one_extra_file_witness :
  listing_wf Example.left
  /\ listing_wf Example.right
  /\ In "." (keys Example.left)
  /\ In "." (keys Example.right)
  /\ ~ In "b.txt" (keys (Py.getitem "." Example.left []))
  /\ ~ In "b.txt" (keys (Py.getitem "." Example.right []))
  /\ one_line_more (OS := Toy.os) Example.with_stats (is_missing_file "." "b.txt")
       (MissingFile "." "b.txt" "A" "B") (mkStats 0 0 1 0 0 0)
       (reconcile (OS := Toy.os) Example.with_stats Example.left Example.right Example.files_on_disk)
       (reconcile (OS := Toy.os) Example.with_stats Example.left_with_b Example.right
                  Example.files_on_disk).
Proof.
  assert (H1 : listing_wf Example.left) by (apply listing_ok_sound; reflexivity).
  assert (H2 : listing_wf Example.right) by (apply listing_ok_sound; reflexivity).
  assert (H3 : In "." (keys Example.left)) by (now left).
  assert (H4 : In "." (keys Example.right)) by (now left).
  assert (H5 : ~ In "b.txt" (keys (Py.getitem "." Example.left [])))
    by (intros [H|[]]; discriminate).
  assert (H6 : ~ In "b.txt" (keys (Py.getitem "." Example.right [])))
    by (intros [H|[]]; discriminate).
  repeat (split; [assumption|]).
  exact (proj1 (one_extra_file (OS := Toy.os) Example.with_stats Example.left
                  Example.right Example.files_on_disk "." "b.txt" "A/b.txt"
                  [("a.txt", "A/a.txt")] [] H1 H2 H3 H4 H5 H6) eq_refl).
Defined.

(** C6 as stated fails in two ways.  Without [-s] the extra [b.txt] is
    reported and [missing1] is what it was.  And with [-s], when the
    directory of the extra file holds nothing else, it is a key of one
    listing only: [sub] is a directory of both trees, [sub/x] is the one
    extra file, and the script reports a missing directory, not a missing
    file, and raises [dir_missing1]. *)
Lemma extra_file_is_not_always_counted_as_a_file :
  (let base := reconcile (OS := Toy.os) Example.without_stats Example.left Example.right
                         Example.files_on_disk in
   let more := reconcile (OS := Toy.os) Example.without_stats Example.left_with_b
                         Example.right Example.files_on_disk in
   st_written base = []
   /\ st_written more = [(Stdout, MissingFile "." "b.txt" "A" "B")]
   /\ stat_missing1 (st_stats more) <> stat_missing1 (st_stats base) + 1)
  /\ (let tree1 := Dir [("a.txt", File); ("sub", Dir [("x", File)])] in
      let tree2 := Dir [("a.txt", File); ("sub", Dir [])] in
      let st := reconcile (OS := Toy.os) Example.with_stats
                          (get_contents "A" true tree1) (get_contents "B" true tree2)
                          (("A/sub/x", Toy.regular "x") :: Example.files_on_disk) in
      st_written st = [(Stdout, MissingDirectory 1 "sub" "A" "B")]
      /\ stat_dir_missing1 (st_stats st) = 1).
Proof. vm_compute. repeat split. discriminate. Qed.

(** [one_extra_directory]: [sub] with three files added on the left. *)
Lemma one_extra_directory_witness :
  listing_wf Example.left
  /\ listing_wf Example.right
  /\ wf Example.sub
  /\ ~ In "sub" (keys Example.left)
  /\ ~ In "sub" (keys Example.right)
  /\ one_line_more (OS := Toy.os) Example.with_stats (is_missing_directory "sub")
       (MissingDirectory 3 "sub" "A" "B") (mkStats 0 0 3 0 1 0)
       (reconcile (OS := Toy.os) Example.with_stats Example.left Example.right Example.files_on_disk)
       (reconcile (OS := Toy.os) Example.with_stats Example.left_with_sub Example.right
                  Example.files_on_disk).
Proof.
  assert (H1 : listing_wf Example.left) by (apply listing_ok_sound; reflexivity).
  assert (H2 : listing_wf Example.right) by (apply listing_ok_sound; reflexivity).
  assert (H3 : wf Example.sub) by (apply nodupb_sound; reflexivity).
  assert (H4 : ~ In "sub" (keys Example.left)) by (intros [H|[]]; discriminate).
  assert (H5 : ~ In "sub" (keys Example.right)) by (intros [H|[]]; discriminate).
  repeat (split; [assumption|]).
  exact (proj1 (one_extra_directory (OS := Toy.os) Example.with_stats Example.left
                  Example.right Example.files_on_disk "sub" Example.sub
                  Example.left [] H1 H2 H3 H4 H5) eq_refl).
Defined.

(** C7 as stated fails in two ways.  Without [-s] the missing directory is
    reported with its three files and neither counter has moved.  And with
    [-s], a directory that is in one tree only and holds no file is no key
    of the listing: nothing is written about [empty] and no counter
    moves. *)
Lemma extra_directory_is_not_always_counted :
  (let base := reconcile (OS := Toy.os) Example.without_stats Example.left Example.right
                         Example.files_on_disk in
   let more := reconcile (OS := Toy.os) Example.without_stats Example.left_with_sub
                         Example.right Example.files_on_disk in
   st_written more = [(Stdout, MissingDirectory 3 "sub" "A" "B")]
   /\ stat_dir_missing1 (st_stats more) <> stat_dir_missing1 (st_stats base) + 1
   /\ stat_missing1 (st_stats more) <> stat_missing1 (st_stats base) + 3)
  /\ (let tree1 := Dir [("a.txt", File); ("empty", Dir [])] in
      let tree2 := Dir [("a.txt", File)] in
      let st := reconcile (OS := Toy.os) Example.with_stats
                          (get_contents "A" true tree1) (get_contents "B" true tree2)
                          Example.files_on_disk in
      st_written st = []
      /\ stat_dir_missing1 (st_stats st) = 0
      /\ st_ret st = 0).
Proof. vm_compute. repeat split; discriminate. Qed.

(* ===================================================================== *)
(** * A directory without files leaves no trace *)
(* ===================================================================== *)

(** ** The order of [str] *)

Lemma ascii_compare_eq (a b : ascii) : Ascii.compare a b = Eq -> a = b.
Proof. apply Ascii.compare_eq_iff. Qed.

Lemma ascii_compare_trans_lt (a b c : ascii) :
  Ascii.compare a b = Lt -> Ascii.compare b c = Lt -> Ascii.compare a c = Lt.
Proof.
  unfold Ascii.compare. rewrite !N.compare_lt_iff. apply N.lt_trans.
Qed.

Lemma string_leb_trans (a b c : string) :
  String.leb a b = true -> String.leb b c = true -> String.leb a c = true.
Proof.
  unfold String.leb. revert b c.
  induction a as [|ca a IH]; intros b c Hab Hbc.
  - destruct c; reflexivity.
  - destruct b as [|cb b]; [discriminate|]. destruct c as [|cc c].
    + simpl in Hbc. discriminate.
    + simpl in *.
      destruct (Ascii.compare ca cb) eqn:E1; try discriminate.
      * apply ascii_compare_eq in E1. subst cb.
        destruct (Ascii.compare ca cc) eqn:E2; try assumption.
        now apply IH with (b := b).
      * destruct (Ascii.compare cb cc) eqn:E2; try discriminate.
        -- apply ascii_compare_eq in E2. subst cc. now rewrite E1.
        -- now rewrite (ascii_compare_trans_lt _ _ _ E1 E2).
Qed.

Lemma insert_sorted_split (x : string) (l : list string) :
  exists a b, insert_sorted x l = a ++ x :: b /\ l = a ++ b.
Proof.
  induction l as [|y l IH]; simpl.
  - now exists [], [].
  - destruct (String.leb x y).
    + now exists [], (y :: l).
    + destruct IH as [a [b [E1 E2]]]. exists (y :: a), b. simpl. now rewrite E1, E2 at 1.
Qed.

Lemma insert_sorted_keeps (x : string) (l : list string) :
  Sorted le_str l -> Sorted le_str (insert_sorted x l).
Proof.
  induction 1 as [|y l Hs IH Hhd]; simpl.
  - repeat constructor.
  - destruct (String.leb x y) eqn:E.
    + constructor; [now constructor | now constructor].
    + constructor; [assumption|].
      assert (Hyx : le_str y x).
      { destruct (String.leb_total x y) as [H|H]; [congruence | exact H]. }
      destruct l as [|z l]; simpl.
      * now constructor.
      * destruct (String.leb x z); constructor; [assumption|].
        now inversion Hhd.
Qed.

Lemma sort_sorted (l : list string) : Sorted le_str (Py.sort l).
Proof.
  induction l as [|x l IH]; simpl; [constructor | now apply insert_sorted_keeps].
Qed.

(** Inserting [y] goes the same way with and without an [x] in the list. *)
Lemma insert_sorted_around (y x : string) (s1 s2 : list string) :
  Sorted le_str (s1 ++ x :: s2) ->
  exists s1' s2',
    insert_sorted y (s1 ++ x :: s2) = s1' ++ x :: s2'
    /\ insert_sorted y (s1 ++ s2) = s1' ++ s2'.
Proof.
  induction s1 as [|z s1 IH]; simpl; intros Hs.
  - destruct (String.leb y x) eqn:E.
    + exists [y], s2. split; [reflexivity|].
      destruct s2 as [|z s2]; [reflexivity|]. simpl.
      assert (Hxz : le_str x z).
      { inversion Hs as [|? ? _ Hhd]; subst. now inversion Hhd. }
      now rewrite (string_leb_trans y x z E Hxz).
    + exists [], (insert_sorted y s2). split; reflexivity.
  - destruct (String.leb y z) eqn:E.
    + exists (y :: z :: s1), s2. split; reflexivity.
    + destruct IH as [s1' [s2' [E1 E2]]]; [now inversion Hs|].
      exists (z :: s1'), s2'. simpl. now rewrite E1, E2.
Qed.

(** Sorting with one more name: the others come out in the same order. *)
Lemma sort_around (l1 l2 : list string) (x : string) :
  exists s1 s2,
    Py.sort (l1 ++ x :: l2) = s1 ++ x :: s2 /\ Py.sort (l1 ++ l2) = s1 ++ s2.
Proof.
  induction l1 as [|y l1 IH]; simpl.
  - apply insert_sorted_split.
  - destruct IH as [s1 [s2 [E1 E2]]].
    fold (Py.sort (l1 ++ x :: l2)). fold (Py.sort (l1 ++ l2)).
    rewrite E1, E2. apply insert_sorted_around. rewrite <- E1. apply sort_sorted.
Qed.

(** ** Adding a directory that holds no file *)

Lemma flat_map_none {A B} (g : A -> list B) (l : list A) :
  (forall x, In x l -> g x = []) -> flat_map g l = [].
Proof.
  induction l as [|x l IH]; simpl; intros H; [reflexivity|].
  rewrite H by now left. apply IH. intros y Hy. apply H. now right.
Qed.

Lemma with_files_app (a b : list walk_item) :
  with_files (a ++ b) = with_files a ++ with_files b.
Proof. unfold with_files. apply flat_map_app. Qed.

Lemma with_files_flat_map {A} (g : A -> list walk_item) (l : list A) :
  with_files (flat_map g l) = flat_map (fun x => with_files (g x)) l.
Proof.
  induction l as [|x l IH]; simpl; [reflexivity|]. now rewrite with_files_app, IH.
Qed.

Lemma add_item_no_files (top : string) (sorted : bool) (fd : dict (dict string))
      (root : string) (dirs : list string) :
  add_item top sorted fd (root, dirs, []) = fd.
Proof. unfold add_item. now destruct sorted. Qed.

Lemma fold_with_files (top : string) (sorted : bool) (items : list walk_item)
      (fd : dict (dict string)) :
  fold_left (add_item top sorted) items fd
  = fold_left (fun fd rf => add_item top sorted fd (fst rf, [], snd rf))
              (with_files items) fd.
Proof.
  revert fd. induction items as [|[[root dirs] files] items IH]; intros fd;
    [reflexivity|].
  change (fold_left (add_item top sorted) ((root, dirs, files) :: items) fd)
    with (fold_left (add_item top sorted) items
                    (add_item top sorted fd (root, dirs, files))).
  rewrite IH. destruct files as [|f files].
  - now rewrite add_item_no_files.
  - reflexivity.
Qed.

Lemma file_free_silent (edit : list string -> list string) (top : string) (n : node) :
  file_free n -> with_files (walk edit top n) = [].
Proof.
  intros Hfree. unfold with_files. apply flat_map_none.
  intros item Hin. apply walk_sound in Hin.
  destruct Hin as [comps [es [Hsub ->]]]. simpl.
  now rewrite (Hfree comps es Hsub).
Qed.

Section AddEntry.

Variable edit : list string -> list string.
Hypothesis edit_around :
  forall l1 x l2, exists s1 s2,
    edit (l1 ++ x :: l2) = s1 ++ x :: s2 /\ edit (l1 ++ l2) = s1 ++ s2.

Variable pos : nat.
Variable name : string.
Variable added : node.
Hypothesis added_is_dir : is_dir added = true.
Hypothesis added_file_free : file_free added.

Lemma with_files_cons (item : walk_item) (items : list walk_item) :
  with_files (item :: items)
  = match snd item with
    | [] => []
    | _ :: _ => [(fst (fst item), snd item)]
    end ++ with_files items.
Proof. reflexivity. Qed.

Lemma walk_insert_entry (top : string) (es1 es2 : list (string * node)) :
  ~ In name (map fst (es1 ++ es2)) ->
  with_files (walk edit top (Dir (es1 ++ (name, added) :: es2)))
  = with_files (walk edit top (Dir (es1 ++ es2))).
Proof.
  intros Hfresh. rewrite !walk_dir, !with_files_cons. simpl snd. simpl fst.
  assert (Hfn : file_names (es1 ++ (name, added) :: es2) = file_names (es1 ++ es2)).
  { unfold file_names. rewrite !filter_app. simpl. now rewrite added_is_dir. }
  assert (Hdn : dir_names (es1 ++ (name, added) :: es2)
                = dir_names es1 ++ name :: dir_names es2).
  { unfold dir_names. rewrite filter_app. simpl. rewrite added_is_dir.
    now rewrite map_app. }
  assert (Hdn0 : dir_names (es1 ++ es2) = dir_names es1 ++ dir_names es2).
  { unfold dir_names. now rewrite filter_app, map_app. }
  rewrite Hfn. f_equal. rewrite !with_files_flat_map, Hdn, Hdn0.
  set (g := fun d => with_files
                       match Py.get d (es1 ++ es2) with
                       | Some child => walk edit (path_join top d) child
                       | None => []
                       end).
  assert (Hname : g name = []).
  { unfold g. apply get_none_iff in Hfresh. now rewrite Hfresh. }
  rewrite (flat_map_ext_in _ g).
  - destruct (edit_around (dir_names es1) name (dir_names es2)) as [s1 [s2 [E1 E2]]].
    rewrite E1, E2, !flat_map_app. simpl. now rewrite Hname.
  - intros d _. unfold g. destruct (string_dec d name) as [->|Hne].
    + rewrite get_insert_same.
      * rewrite file_free_silent by assumption. apply get_none_iff in Hfresh.
        now rewrite Hfresh.
      * intros H. apply Hfresh. unfold keys in H. rewrite map_app.
        apply in_or_app. now left.
    + now rewrite get_insert_other.
Qed.

Lemma is_dir_add_entry (comps : list string) (e : string * node) (n : node) :
  is_dir (add_entry comps pos e n) = is_dir n.
Proof. destruct n, comps; reflexivity. Qed.

Lemma walk_add_entry (comps : list string) :
  forall tree top es,
    subdir comps tree = Some es ->
    ~ In name (map fst es) ->
    with_files (walk edit top (add_entry comps pos (name, added) tree))
    = with_files (walk edit top tree).
Proof.
  induction comps as [|c comps IH]; intros tree top es Hsub Hfresh.
  - destruct tree as [| |es0]; try discriminate. injection Hsub as ->. simpl add_entry.
    rewrite <- (firstn_skipn pos es) at 3.
    apply walk_insert_entry. now rewrite firstn_skipn.
  - destruct tree as [| |es0]; try discriminate. simpl in Hsub.
    destruct (Py.get c es0) as [child|] eqn:Hget; [|discriminate].
    simpl add_entry. rewrite !walk_dir, !with_files_cons. simpl snd. simpl fst.
    set (es0' := map (fun x => (fst x, if String.eqb (fst x) c
                                       then add_entry comps pos (name, added) (snd x)
                                       else snd x)) es0).
    assert (Hfn : file_names es0' = file_names es0).
    { unfold file_names, es0'. clear. induction es0 as [|[n0 c0] es0 IH0];
        [reflexivity|]. simpl.
      replace (is_dir (if String.eqb n0 c then add_entry comps pos (name, added) c0 else c0))
        with (is_dir c0) by (destruct (String.eqb n0 c); now rewrite ?is_dir_add_entry).
      destruct (is_dir c0); simpl; now rewrite IH0. }
    assert (Hdn : dir_names es0' = dir_names es0).
    { unfold dir_names, es0'. clear. induction es0 as [|[n0 c0] es0 IH0];
        [reflexivity|]. simpl.
      replace (is_dir (if String.eqb n0 c then add_entry comps pos (name, added) c0 else c0))
        with (is_dir c0) by (destruct (String.eqb n0 c); now rewrite ?is_dir_add_entry).
      destruct (is_dir c0); simpl; now rewrite IH0. }
    rewrite Hfn, Hdn. f_equal. rewrite !with_files_flat_map.
    apply flat_map_ext. intros d. unfold es0'.
    rewrite (get_map_values
               (fun k v => if String.eqb k c
                           then add_entry comps pos (name, added) v else v)).
    destruct (String.eqb_spec d c) as [->|Hne].
    + rewrite Hget. simpl. now apply IH with (es := es).
    + now destruct (Py.get d es0).
Qed.

End AddEntry.

Lemma get_contents_add_entry (top_dir : string) (sorted : bool) (tree : node)
      (comps : list string) (pos : nat) (name : string) (added : node)
      (es : list (string * node)) :
  subdir comps tree = Some es ->
  ~ In name (map fst es) ->
  is_dir added = true ->
  file_free added ->
  get_contents top_dir sorted (add_entry comps pos (name, added) tree)
  = get_contents top_dir sorted tree.
Proof.
  intros Hsub Hfresh Hdir Hfree. rewrite !get_contents_loops. unfold os_walk.
  destruct (String.eqb (rstrip_slash top_dir) ""); [reflexivity|].
  rewrite !fold_with_files. f_equal.
  apply walk_add_entry with (es := es); try assumption.
  destruct sorted; [intros l1 x l2; apply sort_around|].
  intros l1 x l2. now exists l1, l2.
Qed.

(** ** No line without a key *)

Lemma plan_dirs (files1 files2 : dict (dict string)) (a : action) :
  In a (plan files1 files2) ->
  In (action_dir a) (keys files1) \/ In (action_dir a) (keys files2).
Proof.
  unfold plan. intros Ha. apply in_app_or in Ha. destruct Ha as [Ha|Ha].
  - apply in_flat_map in Ha. destruct Ha as [d [Hd Ha]]. left.
    replace (action_dir a) with d; [assumption|].
    unfold plan_dir in Ha. destruct (Py.get d files2) as [files2_dir|].
    + apply in_app_or in Ha. destruct Ha as [Ha|Ha];
        apply in_map_iff in Ha; destruct Ha as [f [<- _]]; [|reflexivity].
      unfold file_action. now destruct (Py.get f files2_dir).
    + destruct Ha as [<-|[]]. reflexivity.
  - apply in_map_iff in Ha. destruct Ha as [d [<- Hd]]. right.
    apply filter_In in Hd. tauto.
Qed.

Lemma perform_about {OS : Os} (args : Args) (k : string) (a : action) :
  String.eqb (action_dir a) k = false -> forall st,
  filter (fun e => is_about k (snd e)) (st_written (perform args a st))
  = filter (fun e => is_about k (snd e)) (st_written st).
Proof.
  intros Hq st.
  unfold perform, run_diffoscope, count, write, set_ret, with_os, sys_diffoscope.
  destruct (args_images args) as [image1 image2].
  destruct a; simpl in *; break_ifs; simpl;
    rewrite ?filter_app; simpl; unfold is_about; simpl;
    rewrite ?Hq, ?app_nil_r; reflexivity.
Qed.

(** The loops write nothing about a directory that is a key of neither
    listing. *)
Lemma reconcile_silent_about {OS : Os} (args : Args)
      (files1 files2 : dict (dict string)) (w : world) (k : string) :
  listing_wf files1 -> listing_wf files2 ->
  ~ In k (keys files1) -> ~ In k (keys files2) ->
  filter (fun e => is_about k (snd e)) (st_written (reconcile args files1 files2 w)) = [].
Proof.
  intros Hwf1 Hwf2 H1 H2.
  rewrite (reconcile_plan args files1 Hwf1 files2 w Hwf2). simpl st_written.
  rewrite (perform_lines args (is_about k) (fun a => String.eqb (action_dir a) k)).
  - reflexivity.
  - intros a Ha st. now apply perform_about.
  - apply forallb_forall. intros a Ha. apply negb_true_iff, String.eqb_neq.
    intros E. apply plan_dirs in Ha. rewrite E in Ha. tauto.
Qed.

(** ** What [get_contents] returns is a proper listing *)

Lemma add_file_wf (top root file : string) (fd : dict (dict string)) :
  listing_wf fd -> listing_wf (add_file top root file fd).
Proof.
  intros Hwf. unfold add_file. set (path := relpath root top).
  assert (Hwf' : listing_wf (if Py.mem path fd then fd
                             else Py.set path ([] : dict string) fd)).
  { destruct (Py.mem path fd); [assumption|]. apply listing_wf_set; [assumption|].
    constructor. }
  apply listing_wf_set; [assumption|]. apply wf_set.
  unfold Py.getitem.
  destruct (Py.get path (if Py.mem path fd then fd
                         else Py.set path ([] : dict string) fd)) eqn:E.
  - eapply Hwf'; eauto.
  - constructor.
Qed.

Lemma get_contents_wf (top_dir : string) (sorted : bool) (tree : node) :
  listing_wf (get_contents top_dir sorted tree).
Proof.
  rewrite get_contents_loops.
  assert (H : forall items fd, listing_wf fd ->
                listing_wf (fold_left (add_item (rstrip_slash top_dir) sorted) items fd)).
  { induction items as [|[[root dirs] files] items IH]; intros fd Hfd; [assumption|].
    simpl. apply IH. unfold add_item.
    generalize (if sorted then Py.sort files else files). intros fs. revert fd Hfd.
    induction fs as [|f fs IHf]; intros fd Hfd; [assumption|].
    simpl. apply IHf. now apply add_file_wf. }
  apply H. split; [constructor | intros d fs [=]].
Qed.

(** ** Which directories are keys *)

(** C10, as the script has it.  A relative directory path is a key of the
    listing exactly when the directory, reached from the root through real
    directories, holds an entry that [os.walk] puts in [files]: one that is
    neither a directory nor a link to one.  The loops write no line about a
    path that is a key of neither listing.  And a directory without files
    (or a link to a directory), added anywhere in a tree, changes neither
    the listing nor, therefore, anything [main] writes, counts or
    returns. *)
Theorem keys_are_directories_with_files {OS : Os} (top_dir : string) (sorted : bool)
        (tree : node) :
  let top := rstrip_slash top_dir in
  let files := get_contents top_dir sorted tree in
  (top <> "" ->
   forall k,
     In k (keys files)
     <-> exists comps es name c,
           subdir comps tree = Some es
           /\ In (name, c) es /\ is_dir c = false
           /\ k = relpath (walk_root top comps) top)
  /\ (forall args other w k,
         listing_wf other ->
         ~ In k (keys files) -> ~ In k (keys other) ->
         filter (fun e => is_about k (snd e))
                (st_written (reconcile args files other w)) = []
         /\ filter (fun e => is_about k (snd e))
                   (st_written (reconcile args other files w)) = [])
  /\ (forall comps pos name added es,
         subdir comps tree = Some es ->
         ~ In name (map fst es) ->
         is_dir added = true ->
         file_free added ->
         let tree' := add_entry comps pos (name, added) tree in
         get_contents top_dir sorted tree' = files
         /\ forall args root2 other w,
              args_sort args = sorted ->
              main args top_dir root2 tree' other w = main args top_dir root2 tree other w
              /\ main args root2 top_dir other tree' w
                 = main args root2 top_dir other tree w).
Proof.
  intros top files. subst top files. repeat split.
  - now apply get_contents_keys.
  - now apply get_contents_keys.
  - apply reconcile_silent_about; try assumption. apply get_contents_wf.
  - apply reconcile_silent_about; try assumption. apply get_contents_wf.
  - now apply get_contents_add_entry with (es := es).
  - unfold main. rewrite H3.
    now rewrite (get_contents_add_entry top_dir sorted tree comps pos name added es).
  - unfold main. rewrite H3.
    now rewrite (get_contents_add_entry top_dir sorted tree comps pos name added es).
Qed.

Lemma empty_is_file_free : file_free (Dir []).
Proof. intros [|c comps] es; simpl; [intros [= <-]; reflexivity | discriminate]. Qed.

(** The tree [A] holds [a.txt]; an empty directory is put in front of it. *)
Lemma keys_are_directories_with_files_witness :
  let tree := Dir [("a.txt", File)] in
  rstrip_slash "A" <> ""
  /\ subdir [] tree = Some [("a.txt", File)]
  /\ ~ In "empty" (map fst [("a.txt", File)])
  /\ is_dir (Dir []) = true
  /\ file_free (Dir [])
  /\ In "." (keys (get_contents "A" true tree))
  /\ get_contents "A" true (add_entry [] 0 ("empty", Dir []) tree)
     = get_contents "A" true tree.
Proof.
  intros tree.
  assert (H1 : rstrip_slash "A" <> "") by discriminate.
  assert (H2 : subdir [] tree = Some [("a.txt", File)]) by reflexivity.
  assert (H3 : ~ In "empty" (map fst [("a.txt", File)]))
    by (intros [H|[]]; discriminate).
  assert (H4 : is_dir (Dir []) = true) by reflexivity.
  pose proof empty_is_file_free as H5.
  destruct (keys_are_directories_with_files (OS := Toy.os) "A" true tree)
    as (Hkeys & _ & Hadd).
  repeat (split; [assumption|]). split.
  - apply (Hkeys H1). exists [], [("a.txt", File)], "a.txt", File.
    repeat split. now left.
  - exact (proj1 (Hadd [] 0 "empty" (Dir []) _ H2 H3 H4 H5)).
Defined.

(** C10 as stated fails on a directory whose only entry is a link to a
    directory: the root holds a symbolic link, and ["."] is no key. *)
Lemma directory_with_only_a_directory_link_is_no_key :
  let tree := Dir [("lnk", Symlink "/srv" (Some (Dir [("x", File)])))] in
  subdir [] tree = Some [("lnk", Symlink "/srv" (Some (Dir [("x", File)])))]
  /\ keys (get_contents "A" false tree) = []
  /\ keys (get_contents "A" true tree) = []
  /\ ~ In "." (keys (get_contents "A" false tree)).
Proof. vm_compute. repeat split. intros []. Qed.

(* ===================================================================== *)
(** * More about [sha256sum] *)
(* ===================================================================== *)

Section HashMore.

Context {OS : Os}.

(** What a caller of [sha256sum] gets when the first [open] is refused
    does not depend on the block size it passed: the second attempt is
    made with the default. *)
Lemma sha256sum_refused filename block_size retry s :
  os_open_read (os_world s) filename = None ->
  sha256sum filename block_size retry s = sha256sum filename 65536 retry s.
Proof.
  intros H. simp sha256sum. unfold sys_open. rewrite H. simpl.
  destruct retry; reflexivity.
Qed.

(** X1: The digest is that of the whole file whatever the size of the blocks
    it is read in, and so is everything else [sha256sum] does: the value
    or the exception, the requests made, the state of the system. *)
Theorem sha256sum_block_size_is_immaterial (filename : string) (block_size1 block_size2 : nat)
        (retry : bool) (s : os_state) :
  0 < block_size1 ->
  0 < block_size2 ->
  sha256sum filename block_size1 retry s = sha256sum filename block_size2 retry s.
Proof.
  intros H1 H2.
  destruct (os_open_read (os_world s) filename) as [data|] eqn:E.
  - rewrite !(sha256sum_readable filename _ retry s data E).
    now rewrite !read_loop_all.
  - rewrite (sha256sum_refused filename block_size1), (sha256sum_refused filename block_size2);
      auto.
Qed.

(** X2: [block_size=0]: the first [read] returns nothing and the loop ends at
    once, so a file that can be opened gets the digest of the empty input,
    whatever it holds.  A file that cannot be opened is retried with the
    default block size, the caller's being dropped at line 32. *)
Theorem sha256sum_block_size_zero (filename : string) (retry : bool) (s : os_state) :
  sha256sum filename 0 retry s
  = match os_open_read (os_world s) filename with
    | Some _ => (Ok (sha256_hex []), logged (SysOpen filename) s)
    | None => sha256sum filename 65536 retry s
    end.
Proof.
  destruct (os_open_read (os_world s) filename) as [data|] eqn:E.
  - rewrite (sha256sum_readable filename 0 retry s data E).
    now simp read_loop.
  - now apply sha256sum_refused.
Qed.

End HashMore.

Lemma sha256sum_block_size_is_immaterial_witness :
  0 < 1 /\ 0 < 3
  /\ sha256sum (OS := Toy.os) "A/a.txt" 1 true (mkOs (OS := Toy.os) Example.files_on_disk [])
     = sha256sum (OS := Toy.os) "A/a.txt" 3 true (mkOs (OS := Toy.os) Example.files_on_disk []).
Proof.
  assert (H1 : 0 < 1) by lia.
  assert (H2 : 0 < 3) by lia.
  split; [exact H1|]. split; [exact H2|].
  exact (sha256sum_block_size_is_immaterial (OS := Toy.os) "A/a.txt" 1 3 true
           (mkOs (OS := Toy.os) Example.files_on_disk []) H1 H2).
Defined.

(* ===================================================================== *)
(** * More about [get_contents] *)
(* ===================================================================== *)

(** ** Trailing slashes *)

Lemma rstrip_slash_slash (s : string) : rstrip_slash (s ++ "/") = rstrip_slash s.
Proof.
  induction s as [|c s IH]; [reflexivity|].
  simpl. now rewrite IH.
Qed.

Lemma rstrip_slash_idem (s : string) : rstrip_slash (rstrip_slash s) = rstrip_slash s.
Proof.
  induction s as [|c s IH]; [reflexivity|].
  simpl. destruct (rstrip_slash s) as [|c' r] eqn:E.
  - destruct (Ascii.eqb c "/") eqn:Ec; [reflexivity|]. simpl. now rewrite Ec.
  - simpl in *. now rewrite IH.
Qed.

(** X3: [get_contents] reads its argument up to trailing slashes: the
    listing of ["A/"], keys and recorded paths, is that of ["A"], and
    stripping twice is stripping once. *)
Theorem get_contents_ignores_trailing_slashes (top_dir : string) (sorted : bool)
        (tree : node) :
  get_contents (top_dir ++ "/") sorted tree = get_contents top_dir sorted tree
  /\ get_contents (rstrip_slash top_dir) sorted tree = get_contents top_dir sorted tree.
Proof.
  rewrite !get_contents_loops, rstrip_slash_slash, rstrip_slash_idem. now split.
Qed.

(** ** The recorded paths *)

Section Recorded.

Variable top : string.

Lemma add_file_recorded root file fd k name path :
  recorded (add_file top root file fd) k name path ->
  recorded fd k name path
  \/ (k = relpath root top /\ name = file /\ path = path_join root file).
Proof.
  unfold add_file, recorded. set (p := relpath root top).
  destruct (string_dec k p) as [->|Hne].
  - rewrite get_set_same. intros [fs [[= <-] Hget]].
    destruct (string_dec name file) as [->|Hn].
    + rewrite get_set_same in Hget. injection Hget as <-. right. auto.
    + rewrite get_set_other in Hget by assumption. left.
      unfold Py.getitem, Py.mem in Hget.
      destruct (Py.get p fd) as [fs|] eqn:E.
      * rewrite E in Hget. eauto.
      * rewrite get_set_same in Hget. discriminate.
  - rewrite get_set_other by assumption. intros [fs [Hk Hget]]. left.
    destruct (Py.mem p fd); [eauto|].
    rewrite get_set_other in Hk by assumption. eauto.
Qed.

Lemma add_files_recorded root files fd k name path :
  recorded (fold_left (fun fd file => add_file top root file fd) files fd) k name path ->
  recorded fd k name path
  \/ (k = relpath root top /\ In name files /\ path = path_join root name).
Proof.
  revert fd. induction files as [|file files IH]; intros fd; simpl; [tauto|].
  intros H. apply IH in H. destruct H as [H|[-> [Hin ->]]].
  - apply add_file_recorded in H. destruct H as [H|[-> [-> ->]]]; [tauto|].
    right. auto.
  - right. auto.
Qed.

Lemma add_items_recorded sorted items fd k name path :
  recorded (fold_left (add_item top sorted) items fd) k name path ->
  recorded fd k name path
  \/ exists item, In item items
                  /\ k = relpath (fst (fst item)) top
                  /\ In name (snd item)
                  /\ path = path_join (fst (fst item)) name.
Proof.
  revert fd. induction items as [|item items IH]; intros fd; simpl; [tauto|].
  intros H. apply IH in H. destruct H as [H|[it [Hin H]]].
  - destruct item as [[root dirs] files]. unfold add_item in H.
    apply add_files_recorded in H. destruct H as [H|[-> [Hin ->]]]; [tauto|].
    right. exists (root, dirs, files). simpl. repeat split; auto.
    destruct sorted; [now apply sort_in|assumption].
  - right. exists it. tauto.
Qed.

End Recorded.

(** X4: the path [get_contents] records for a name is
    [os.path.join(root, name)] for a directory [root] of the walk that
    holds the name as a non-directory and whose path relative to the top
    is the key: the comparison opens the file the key and the name speak
    of. *)
Theorem recorded_paths_are_joined (top_dir : string) (sorted : bool) (tree : node)
        (k name path : string) :
  recorded (get_contents top_dir sorted tree) k name path ->
  exists comps es,
    subdir comps tree = Some es
    /\ In name (file_names es)
    /\ k = relpath (walk_root (rstrip_slash top_dir) comps) (rstrip_slash top_dir)
    /\ path = path_join (walk_root (rstrip_slash top_dir) comps) name.
Proof.
  rewrite get_contents_loops. intros H. apply add_items_recorded in H.
  destruct H as [[fs [H _]]|[item [Hin [-> [Hname ->]]]]]; [discriminate|].
  unfold os_walk in Hin.
  destruct (String.eqb (rstrip_slash top_dir) ""); [contradiction|].
  apply walk_sound in Hin. destruct Hin as [comps [es [Hsub ->]]].
  exists comps, es. simpl in *. auto.
Qed.

Lemma recorded_paths_are_joined_witness :
  recorded (get_contents "A/" false (Dir [("sub", Dir [("x", File)])])) "sub" "x" "A/sub/x"
  /\ exists comps es,
       subdir comps (Dir [("sub", Dir [("x", File)])]) = Some es
       /\ In "x" (file_names es)
       /\ "sub" = relpath (walk_root (rstrip_slash "A/") comps) (rstrip_slash "A/")
       /\ "A/sub/x" = path_join (walk_root (rstrip_slash "A/") comps) "x".
Proof.
  assert (H : recorded (get_contents "A/" false (Dir [("sub", Dir [("x", File)])]))
                       "sub" "x" "A/sub/x").
  { exists [("x", "A/sub/x")]. split; reflexivity. }
  split; [exact H|].
  exact (recorded_paths_are_joined "A/" false (Dir [("sub", Dir [("x", File)])])
           "sub" "x" "A/sub/x" H).
Defined.

(** ** The shape of the listing *)

Section DictEnd.

Context {V : Type}.
Implicit Types (d : dict V) (k : string) (v : V).

Lemma set_absent_app k v d : ~ In k (keys d) -> Py.set k v d = d ++ [(k, v)].
Proof.
  induction d as [|[k' v'] d IH]; simpl; intros H; [reflexivity|].
  destruct (String.eqb_spec k' k) as [->|Hne]; [tauto|].
  f_equal. apply IH. tauto.
Qed.

Lemma get_last k v d : ~ In k (keys d) -> Py.get k (d ++ [(k, v)]) = Some v.
Proof.
  induction d as [|[k' v'] d IH]; simpl; intros H.
  - now rewrite String.eqb_refl.
  - destruct (String.eqb_spec k' k) as [->|Hne]; [tauto|]. apply IH. tauto.
Qed.

Lemma set_last k v v' d :
  ~ In k (keys d) -> Py.set k v' (d ++ [(k, v)]) = d ++ [(k, v')].
Proof.
  induction d as [|[k0 v0] d IH]; simpl; intros H.
  - now rewrite String.eqb_refl.
  - destruct (String.eqb_spec k0 k) as [->|Hne]; [tauto|]. f_equal. apply IH. tauto.
Qed.

Lemma get_app_map {A} (key : A -> string) (val : A -> V) (l : list A) k v :
  Py.get k (map (fun x => (key x, val x)) l) = Some v ->
  exists x, In x l /\ k = key x /\ v = val x.
Proof.
  induction l as [|x l IH]; simpl; [discriminate|].
  destruct (String.eqb_spec (key x) k) as [<-|Hne].
  - intros [= <-]. exists x. auto.
  - intros H. destruct (IH H) as [y [Hin Hy]]. exists y. auto.
Qed.

End DictEnd.

Section Shape.

Variable top : string.

Lemma add_files_last root files fd cur :
  ~ In (relpath root top) (keys fd) ->
  fold_left (fun fd file => add_file top root file fd) files
            (fd ++ [(relpath root top, cur)])
  = fd ++ [(relpath root top,
            fold_left (fun d file => Py.set file (path_join root file) d) files cur)].
Proof.
  intros Hfresh. revert cur. induction files as [|file files IH]; intros cur; simpl;
    [reflexivity|].
  rewrite <- IH. f_equal. unfold add_file, Py.mem, Py.getitem.
  rewrite (get_last _ cur fd Hfresh). rewrite (get_last _ cur fd Hfresh).
  now apply set_last.
Qed.

Lemma add_file_fresh root file fd :
  ~ In (relpath root top) (keys fd) ->
  add_file top root file fd
  = fd ++ [(relpath root top, Py.set file (path_join root file) [])].
Proof.
  intros Hfresh. unfold add_file.
  assert (E : Py.mem (relpath root top) fd = false) by now apply mem_false_iff.
  rewrite E. rewrite (set_absent_app _ ([] : dict string) fd Hfresh).
  unfold Py.getitem. rewrite (get_last _ ([] : dict string) fd Hfresh).
  now apply set_last.
Qed.

Lemma sort_nil (l : list string) : Py.sort l = [] -> l = [].
Proof.
  destruct l as [|x l]; [reflexivity|]. intros H.
  assert (Hin : In x (Py.sort (x :: l))) by (apply sort_in; now left).
  rewrite H in Hin. destruct Hin.
Qed.

Variable sorted : bool.

Lemma add_item_fresh root dirs files fd :
  ~ In (relpath root top) (keys fd) ->
  files <> [] ->
  add_item top sorted fd (root, dirs, files)
  = fd ++ [(relpath root top,
            entry_of root (if sorted then Py.sort files else files))].
Proof.
  intros Hfresh Hfiles. unfold add_item, entry_of.
  assert (Hne : (if sorted then Py.sort files else files) <> []).
  { destruct sorted; [|assumption]. intros H. now apply sort_nil in H. }
  destruct (if sorted then Py.sort files else files) as [|file rest]; [congruence|].
  simpl. rewrite add_file_fresh by assumption. now apply add_files_last.
Qed.

Lemma add_items_fresh (l : list (string * list string)) fd :
  (forall rf, In rf l -> snd rf <> []) ->
  NoDup (keys fd ++ map (fun rf => relpath (fst rf) top) l) ->
  fold_left (fun fd rf => add_item top sorted fd (fst rf, [], snd rf)) l fd
  = fd ++ map (fun rf => (relpath (fst rf) top,
                          entry_of (fst rf)
                                   (if sorted then Py.sort (snd rf) else snd rf))) l.
Proof.
  revert fd. induction l as [|[root files] l IH]; intros fd Hne Hnd;
    cbn [fold_left map fst snd] in *.
  - now rewrite app_nil_r.
  - rewrite add_item_fresh.
    + rewrite IH.
      * now rewrite <- app_assoc.
      * intros rf Hin. apply Hne. now right.
      * unfold keys in *. rewrite map_app. simpl. rewrite <- app_assoc. exact Hnd.
    + apply NoDup_remove_2 in Hnd. intros H. apply Hnd. apply in_or_app. now left.
    + apply (Hne (root, files)). now left.
Qed.

End Shape.

Lemma with_files_nonempty (items : list walk_item) rf :
  In rf (with_files items) -> snd rf <> [].
Proof.
  unfold with_files. rewrite in_flat_map. intros [[[root dirs] files] [_ H]].
  simpl in H. destruct files; [destruct H|]. destruct H as [<-|[]]. discriminate.
Qed.

(** When no two directories of the walk have the same key, the listing is
    the walk itself: one entry for each walked directory that has files,
    in the order of the walk, holding its files in the order they were
    read or sorted into. *)
Lemma get_contents_shape (top_dir : string) (sorted : bool) (tree : node) :
  NoDup (walk_keys top_dir sorted tree) ->
  get_contents top_dir sorted tree
  = map (fun rf => (relpath (fst rf) (rstrip_slash top_dir),
                    entry_of (fst rf) (if sorted then Py.sort (snd rf) else snd rf)))
        (walked top_dir sorted tree).
Proof.
  intros Hnd. rewrite get_contents_loops, fold_with_files.
  rewrite add_items_fresh; [reflexivity | apply with_files_nonempty | exact Hnd].
Qed.

(** ** Sorted names *)

Lemma sorted_snoc (l : list string) (x : string) :
  Sorted le_str l -> (forall y, In y l -> le_str y x) -> Sorted le_str (l ++ [x]).
Proof.
  induction l as [|a l IH]; simpl; intros Hs Hle.
  - repeat constructor.
  - inversion Hs as [|? ? Hs' Hhd]; subst. constructor.
    + apply IH; auto.
    + destruct l as [|b l]; simpl.
      * constructor. apply Hle. now left.
      * constructor. now inversion Hhd.
Qed.

Lemma le_str_trans (a b c : string) : le_str a b -> le_str b c -> le_str a c.
Proof. unfold le_str. apply string_leb_trans. Qed.

Lemma entry_keys_sorted (root : string) (files : list string) (d : dict string) :
  StronglySorted le_str files ->
  Sorted le_str (keys d) ->
  (forall y x, In y (keys d) -> In x files -> le_str y x) ->
  Sorted le_str
    (keys (fold_left (fun d file => Py.set file (path_join root file) d) files d)).
Proof.
  revert d. induction files as [|file files IH]; intros d Hss Hd Hle; simpl;
    [assumption|].
  inversion Hss as [|? ? Hss' Hall]; subst. rewrite Forall_forall in Hall.
  apply IH; [assumption| |].
  - destruct (in_dec string_dec file (keys d)) as [Hin|Hout].
    + now rewrite keys_set_present.
    + rewrite keys_set_absent by assumption. apply sorted_snoc; [assumption|].
      intros y Hy. apply Hle; [assumption | now left].
  - intros y x Hy Hx. apply in_keys_set in Hy. destruct Hy as [->|Hy].
    + now apply Hall.
    + apply Hle; [assumption | now right].
Qed.

Lemma sort_strongly_sorted (l : list string) : StronglySorted le_str (Py.sort l).
Proof.
  apply Sorted_StronglySorted; [|apply sort_sorted].
  intros a b c. apply le_str_trans.
Qed.

(** X5: with [sorted=True], and no two directories of the walk sharing a
    key (as on every file system), the keys of the listing are the walked
    directories that have files, in the order of the walk, and the names
    of each entry are in ascending order of [str]: the loops of [main],
    which follow the listing, report the files of a directory in that
    order. *)
Theorem sorted_listing_is_in_order (top_dir : string) (tree : node) :
  NoDup (walk_keys top_dir true tree) ->
  keys (get_contents top_dir true tree) = walk_keys top_dir true tree
  /\ forall k fs,
       Py.get k (get_contents top_dir true tree) = Some fs ->
       Sorted le_str (keys fs).
Proof.
  intros Hnd. rewrite (get_contents_shape _ _ _ Hnd). split.
  - unfold keys, walk_keys. rewrite map_map. reflexivity.
  - intros k fs Hget.
    apply (get_app_map (fun rf => relpath (fst rf) (rstrip_slash top_dir))
             (fun rf => entry_of (fst rf) (Py.sort (snd rf)))) in Hget.
    destruct Hget as [rf [_ [_ ->]]]. unfold entry_of.
    apply entry_keys_sorted.
    + apply sort_strongly_sorted.
    + constructor.
    + intros y x [].
Qed.

Lemma sorted_listing_is_in_order_witness :
  let tree := Dir [("z", File); ("sub", Dir [("b", File); ("a", File)]); ("c", File)] in
  NoDup (walk_keys "A" true tree)
  /\ keys (get_contents "A" true tree) = walk_keys "A" true tree
  /\ forall k fs,
       Py.get k (get_contents "A" true tree) = Some fs -> Sorted le_str (keys fs).
Proof.
  intros tree.
  assert (H : NoDup (walk_keys "A" true tree)) by (apply nodupb_sound; reflexivity).
  split; [exact H|].
  exact (sorted_listing_is_in_order "A" tree H).
Defined.

(** ** What [-r] does not change *)

Lemma has_listed (files : dict (dict string)) (d f : string) :
  has files (d, f) = true <-> listed files d f.
Proof.
  unfold has, listed, Py.getitem. simpl. rewrite mem_iff.
  destruct (Py.get d files) as [fs|].
  - split; [eauto | now intros [fs' [[= <-] H]]].
  - split; [intros [] | now intros [fs' [[=] _]]].
Qed.

Lemma filter_length_perm {A} (p q : A -> bool) (l l' : list A) :
  NoDup l -> NoDup l' ->
  (forall x, In x l <-> In x l') ->
  (forall x, In x l -> p x = q x) ->
  List.length (filter p l) = List.length (filter q l').
Proof.
  intros Hl Hl' Hin Hpq. apply Permutation_length. apply NoDup_Permutation.
  - now apply NoDup_filter.
  - now apply NoDup_filter.
  - intros x. rewrite !filter_In, <- Hin. split; intros [H1 H2]; split; auto.
    + now rewrite <- Hpq.
    + now rewrite Hpq.
Qed.

Lemma bool_ext (a b : bool) : (a = true <-> b = true) -> a = b.
Proof. destruct a, b; intuition congruence. Qed.

Lemma counts_of_same_content (a a' b b' : dict (dict string)) :
  listing_wf a -> listing_wf a' -> listing_wf b -> listing_wf b' ->
  same_content a a' -> same_content b b' ->
  List.length (on_both a b) = List.length (on_both a' b')
  /\ List.length (only_in a b) = List.length (only_in a' b')
  /\ List.length (dirs_only_in a b) = List.length (dirs_only_in a' b').
Proof.
  intros Ha Ha' Hb Hb' [Ka La] [Kb Lb].
  assert (Hent : forall e, In e (entries a) <-> In e (entries a')).
  { intros [d f]. now rewrite !in_entries, !has_listed. }
  assert (Hhas : forall e, has b e = has b' e).
  { intros [d f]. apply bool_ext. now rewrite !has_listed. }
  repeat split.
  - apply filter_length_perm; auto using entries_nodup.
  - apply filter_length_perm; auto using entries_nodup.
    intros e _. now rewrite Hhas.
  - apply filter_length_perm; [apply Ha | apply Ha' | assumption|].
    intros k _. f_equal. apply bool_ext. now rewrite !mem_iff.
Qed.

Lemma get_contents_same_content (top_dir : string) (tree : node) :
  same_content (get_contents top_dir true tree) (get_contents top_dir false tree).
Proof.
  destruct (string_dec (rstrip_slash top_dir) "") as [E|Hne].
  - rewrite !get_contents_loops, E. split; reflexivity.
  - split.
    + intros k. now rewrite !get_contents_keys.
    + intros k name. now rewrite !get_contents_listed.
Qed.

Lemma write_stats_keeps {OS : Os} (args : Args) (st : state) :
  st_stats (snd (write_stats args st)) = st_stats st
  /\ st_os (snd (write_stats args st)) = st_os st
  /\ st_ret (snd (write_stats args st)) = st_ret st.
Proof.
  unfold write_stats. destruct (args_stats args); [|auto].
  destruct (args_images args) as [image1 image2].
  repeat match goal with
         | |- context [match truediv ?a ?b with _ => _ end] =>
             destruct (truediv a b)
         end; simpl; auto.
Qed.

Lemma main_state {OS : Os} (args : Args) (root1 root2 : string) (tree1 tree2 : node)
      (w : world) :
  snd (main args root1 root2 tree1 tree2 w)
  = snd (write_stats args
           (reconcile args (get_contents root1 (args_sort args) tree1)
                      (get_contents root2 (args_sort args) tree2) w)).
Proof.
  unfold main. now destruct (write_stats args _) as [[[]|e] st].
Qed.

Lemma main_stats {OS : Os} (args : Args) (root1 root2 : string) (tree1 tree2 : node)
      (w : world) :
  st_stats (snd (main args root1 root2 tree1 tree2 w))
  = st_stats (reconcile args (get_contents root1 (args_sort args) tree1)
                        (get_contents root2 (args_sort args) tree2) w).
Proof. rewrite main_state. apply write_stats_keeps. Qed.

(** X6: [-r] changes the order of the listings and nothing else in them:
    the same keys, the same names under each.  The counters of a run with
    [-r] and of a run without agree on the files missing from either
    side, the directories missing from either side and the number of
    files compared. *)
Theorem sort_changes_the_order_only {OS : Os} (args : Args) (root1 root2 : string)
        (tree1 tree2 : node) (w : world) :
  let sorted := st_stats (snd (main (sorting true args) root1 root2 tree1 tree2 w)) in
  let plain := st_stats (snd (main (sorting false args) root1 root2 tree1 tree2 w)) in
  same_content (get_contents root1 true tree1) (get_contents root1 false tree1)
  /\ stat_match sorted + stat_missmatch sorted = stat_match plain + stat_missmatch plain
  /\ stat_missing1 sorted = stat_missing1 plain
  /\ stat_missing2 sorted = stat_missing2 plain
  /\ stat_dir_missing1 sorted = stat_dir_missing1 plain
  /\ stat_dir_missing2 sorted = stat_dir_missing2 plain.
Proof.
  intros sorted plain. split; [apply get_contents_same_content|].
  subst sorted plain. rewrite !main_stats. cbn [sorting args_sort].
  destruct (args_stats args) eqn:Es.
  - pose proof (get_contents_same_content root1 tree1) as S1.
    pose proof (get_contents_same_content root2 tree2) as S2.
    assert (S1' : same_content (get_contents root1 false tree1) (get_contents root1 true tree1))
      by (destruct S1 as [A B]; split; intros; symmetry; auto).
    assert (S2' : same_content (get_contents root2 false tree2) (get_contents root2 true tree2))
      by (destruct S2 as [A B]; split; intros; symmetry; auto).
    destruct (reconcile_counts (sorting true args) Es
                (get_contents root1 true tree1) (get_contents root2 true tree2) w
                (get_contents_wf _ _ _) (get_contents_wf _ _ _))
      as (A1 & A2 & A3 & A4 & A5).
    destruct (reconcile_counts (sorting false args) Es
                (get_contents root1 false tree1) (get_contents root2 false tree2) w
                (get_contents_wf _ _ _) (get_contents_wf _ _ _))
      as (B1 & B2 & B3 & B4 & B5).
    destruct (counts_of_same_content _ _ _ _
                (get_contents_wf root1 true tree1) (get_contents_wf root1 false tree1)
                (get_contents_wf root2 true tree2) (get_contents_wf root2 false tree2)
                S1 S2) as (C1 & C2 & C3).
    destruct (counts_of_same_content _ _ _ _
                (get_contents_wf root2 true tree2) (get_contents_wf root2 false tree2)
                (get_contents_wf root1 true tree1) (get_contents_wf root1 false tree1)
                S2 S1) as (D1 & D2 & D3).
    rewrite A1, A2, A3, A4, A5, B1, B2, B3, B4, B5. auto.
  - rewrite !reconcile_counts_off by exact Es. simpl. auto.
Qed.

(* ===================================================================== *)
(** * The keys of a listing are relative paths *)
(* ===================================================================== *)

Section Paths.

Local Open Scope string_scope.

Lemma append_assoc (a b c : string) : (a ++ b) ++ c = a ++ (b ++ c).
Proof. induction a as [|x a IH]; simpl; [reflexivity | now rewrite IH]. Qed.

Lemma append_length (a b : string) :
  String.length (a ++ b) = String.length a + String.length b.
Proof. induction a as [|x a IH]; simpl; [reflexivity | now rewrite IH]. Qed.

Lemma append_empty_r (a : string) : a ++ "" = a.
Proof. induction a as [|x a IH]; simpl; [reflexivity | now rewrite IH]. Qed.

Lemma substring_all (s : string) : String.substring 0 (String.length s) s = s.
Proof. induction s as [|x s IH]; simpl; [reflexivity | now rewrite IH]. Qed.

Lemma substring_skip (a b : string) (n : nat) :
  String.substring (String.length a) n (a ++ b) = String.substring 0 n b.
Proof. induction a as [|x a IH]; simpl; [reflexivity | exact IH]. Qed.

Lemma ends_with_slash_cons (x : ascii) (s : string) :
  s <> "" -> ends_with_slash (String x s) = ends_with_slash s.
Proof.
  unfold ends_with_slash. destruct s as [|y s]; [congruence|]. intros _.
  simpl String.length. rewrite !Nat.sub_1_r. simpl Nat.pred. reflexivity.
Qed.

Lemma ends_with_slash_app (a c : string) :
  c <> "" -> ends_with_slash (a ++ c) = ends_with_slash c.
Proof.
  intros Hc. induction a as [|x a IH]; [reflexivity|]. simpl.
  rewrite ends_with_slash_cons; [exact IH|].
  destruct a; simpl; [assumption | discriminate].
Qed.

Lemma name_not_empty (c : string) : is_name c = true -> c <> "".
Proof.
  unfold is_name. intros H. apply andb_prop in H. destruct H as [H _].
  intros ->. discriminate.
Qed.

Lemma no_slash_end (c : string) : c <> "" -> no_slash c = true -> ends_with_slash c = false.
Proof.
  induction c as [|x c IH]; [congruence|]. intros _ H. simpl in H.
  apply andb_prop in H. destruct H as [Hx Hc].
  destruct c as [|y c].
  - unfold ends_with_slash. simpl. apply negb_true_iff in Hx. now rewrite Hx.
  - rewrite ends_with_slash_cons by discriminate. apply IH; [discriminate | assumption].
Qed.

Lemma name_end (c : string) : is_name c = true -> ends_with_slash c = false.
Proof.
  intros H. apply no_slash_end; [now apply name_not_empty|].
  unfold is_name in H. apply andb_prop in H. tauto.
Qed.

Lemma name_start (c : string) : is_name c = true -> String.prefix "/" c = false.
Proof.
  unfold is_name. destruct c as [|x c]; [discriminate|]. intros H.
  apply andb_prop in H. destruct H as [_ H]. cbn [no_slash] in H.
  apply andb_prop in H. destruct H as [Hx _]. apply negb_true_iff in Hx.
  cbn [String.prefix]. destruct (ascii_dec "/" x) as [<-|Hne]; [|reflexivity].
  rewrite Ascii.eqb_refl in Hx. discriminate.
Qed.

Lemma path_join_name (a c : string) :
  a <> "" -> ends_with_slash a = false -> is_name c = true ->
  path_join a c = a ++ "/" ++ c.
Proof.
  intros Ha He Hc. unfold path_join. rewrite (name_start c Hc).
  destruct (String.eqb_spec a "") as [->|_]; [congruence|].
  unfold ends_with_slash in He. now rewrite He.
Qed.

Lemma walk_root_names (comps : list string) :
  forall a,
    a <> "" -> ends_with_slash a = false ->
    Forall (fun c => is_name c = true) comps ->
    walk_root a comps = a ++ below comps.
Proof.
  unfold walk_root. induction comps as [|c comps IH]; intros a Ha He Hn; simpl.
  - now rewrite append_empty_r.
  - inversion Hn as [|? ? Hc Hn']; subst.
    rewrite (path_join_name a c Ha He Hc). rewrite IH; [| | |assumption].
    + now rewrite !append_assoc.
    + destruct a; [congruence | discriminate].
    + rewrite <- append_assoc. rewrite ends_with_slash_app by now apply name_not_empty.
      now apply name_end.
Qed.

Lemma below_concat (c : string) (comps : list string) :
  c ++ below comps = String.concat "/" (c :: comps).
Proof.
  revert c. induction comps as [|d comps IH]; intros c; simpl.
  - apply append_empty_r.
  - f_equal. f_equal. apply IH.
Qed.

Lemma relpath_below (a : string) (comps : list string) :
  relpath (a ++ below comps) a = relative comps.
Proof.
  destruct comps as [|c comps].
  - simpl. rewrite append_empty_r. unfold relpath. now rewrite String.eqb_refl.
  - unfold relative. rewrite <- below_concat. unfold relpath.
    destruct (String.eqb_spec (a ++ below (c :: comps)) a) as [E|_].
    + exfalso. apply (f_equal String.length) in E. rewrite append_length in E.
      simpl in E. lia.
    + simpl below. change ("/" ++ c ++ below comps) with (String "/" (c ++ below comps)).
      replace (a ++ String "/" (c ++ below comps))
        with ((a ++ "/") ++ (c ++ below comps))
        by (rewrite append_assoc; reflexivity).
      replace (S (String.length a)) with (String.length (a ++ "/"))
        by (rewrite append_length; simpl; lia).
      rewrite substring_skip.
      replace (String.length ((a ++ "/") ++ c ++ below comps) - String.length (a ++ "/"))
        with (String.length (c ++ below comps))
        by (rewrite (append_length (a ++ "/")); lia).
      apply substring_all.
Qed.

Lemma rstrip_slash_end (s : string) :
  rstrip_slash s <> "" -> ends_with_slash (rstrip_slash s) = false.
Proof.
  induction s as [|x s IH]; simpl; [congruence|].
  destruct (rstrip_slash s) as [|y r] eqn:E.
  - destruct (Ascii.eqb x "/") eqn:Ex; [congruence|]. intros _.
    unfold ends_with_slash. simpl. now rewrite Ex.
  - intros _. rewrite ends_with_slash_cons by discriminate. apply IH. discriminate.
Qed.

End Paths.

(** X7: the key under which [get_contents] lists the files of a directory
    is the path of that directory relative to the top: ["."] for the top
    itself, and the names that lead to it joined by slashes for a
    directory below, the names being what a file system allows (not empty,
    no slash in them).  Whether the top was given with trailing slashes
    makes no difference. *)
Theorem keys_are_relative_paths (top_dir : string) (sorted : bool) (tree : node)
        (k : string) :
  rstrip_slash top_dir <> "" ->
  In k (keys (get_contents top_dir sorted tree)) ->
  exists comps es,
    subdir comps tree = Some es
    /\ file_names es <> []
    /\ k = relpath (walk_root (rstrip_slash top_dir) comps) (rstrip_slash top_dir)
    /\ (Forall (fun c => is_name c = true) comps -> k = relative comps).
Proof.
  intros Htop Hk. apply get_contents_keys in Hk; [|assumption].
  destruct Hk as (comps & es & name & c & Hsub & Hin & Hdir & ->).
  exists comps, es. repeat split; [assumption| |].
  - intros E. assert (H : In name (file_names es)) by (apply in_file_names; eauto).
    rewrite E in H. destruct H.
  - intros Hn. rewrite walk_root_names; auto using rstrip_slash_end.
    apply relpath_below.
Qed.

Lemma keys_are_relative_paths_witness :
  let tree := Dir [("usr", Dir [("lib", Dir [("libc.so", File)])])] in
  rstrip_slash "A/" <> ""
  /\ In "usr/lib" (keys (get_contents "A/" false tree))
  /\ exists comps es,
       subdir comps tree = Some es
       /\ file_names es <> []
       /\ "usr/lib" = relpath (walk_root (rstrip_slash "A/") comps) (rstrip_slash "A/")
       /\ (Forall (fun c => is_name c = true) comps -> "usr/lib" = relative comps).
Proof.
  intros tree.
  assert (H1 : rstrip_slash "A/" <> "") by discriminate.
  assert (H2 : In "usr/lib" (keys (get_contents "A/" false tree))) by (now left).
  split; [exact H1|]. split; [exact H2|].
  exact (keys_are_relative_paths "A/" false tree "usr/lib" H1 H2).
Defined.

(* ===================================================================== *)
(** * More about the loops of [main] *)
(* ===================================================================== *)

Section Requests.

Context {OS : Os}.

Lemma sha256sum_calls filename block_size retry s :
  exists calls w',
    snd (sha256sum filename block_size retry s) = mkOs w' (os_trace s ++ calls)
    /\ forallb (asks_about filename) calls = true.
Proof.
  assert (Hend : forall w' calls,
             forallb (asks_about filename) calls = true ->
             exists calls0 w0,
               mkOs w' (os_trace s ++ calls) = mkOs w0 (os_trace s ++ calls0)
               /\ forallb (asks_about filename) calls0 = true) by eauto.
  simp sha256sum. unfold sys_open.
  destruct (os_open_read (os_world s) filename) as [data|] eqn:Hopen; simpl.
  - unfold logged. simpl. apply Hend. simpl. now rewrite String.eqb_refl.
  - destruct retry; simpl.
    + unfold sys_stat. simpl.
      destruct (os_stat_mode (os_world s) filename) as [st_mode|]; simpl.
      * unfold sys_chmod. simpl.
        destruct (os_chmod (os_world s) filename (N.lor st_mode S_IRUSR)) as [granted|];
          simpl.
        -- simp sha256sum. unfold sys_open. simpl.
           destruct (os_open_read granted filename); unfold logged; simpl;
             rewrite <- ?app_assoc; apply Hend; simpl;
             now rewrite String.eqb_refl.
        -- unfold logged. simpl. rewrite <- ?app_assoc. apply Hend. simpl.
           now rewrite String.eqb_refl.
      * unfold logged. simpl. rewrite <- ?app_assoc. apply Hend. simpl.
        now rewrite String.eqb_refl.
    + unfold logged. simpl. apply Hend. simpl. now rewrite String.eqb_refl.
Qed.

Lemma asks_about_touches path1 path2 c :
  asks_about path1 c || asks_about path2 c = true ->
  touches path1 path2 c = true /\ diffoscope_request c = false.
Proof. destruct c; simpl; intros H; try discriminate; auto. Qed.

Lemma compare_files_calls path1 path2 s :
  exists calls w',
    snd (compare_files path1 path2 s) = mkOs w' (os_trace s ++ calls)
    /\ forallb (compare_call path1 path2) calls = true.
Proof.
  unfold compare_files, sys_islink, sys_readlink, logged. simpl.
  destruct (os_link (os_world s) path1) as [t1|] eqn:E1;
    destruct (os_link (os_world s) path2) as [t2|] eqn:E2;
    simpl; rewrite ?E1, ?E2; simpl; rewrite ?E1, ?E2; simpl;
    try (try destruct (String.eqb t1 t2); simpl;
         eexists; eexists; rewrite <- ?app_assoc; simpl;
         (split; [reflexivity|]); unfold compare_call; simpl;
         rewrite ?String.eqb_refl, ?orb_true_r; reflexivity).
  match goal with
  | |- context [sha256sum path1 ?b true ?s0] =>
      destruct (sha256sum_calls path1 b true s0) as [c1 [w1 [H1 A1]]];
      destruct (sha256sum path1 b true s0) as [[sum1|e1] s1]; simpl in H1; subst s1
  end.
  - match goal with
    | |- context [sha256sum path2 ?b true ?s1] =>
        destruct (sha256sum_calls path2 b true s1) as [c2 [w2 [H2 A2]]];
        destruct (sha256sum path2 b true s1) as [[sum2|e2] s2]; simpl in H2; subst s2
    end.
    all: assert (Hall : forallb (compare_call path1 path2)
                          ([SysIslink path1; SysIslink path2] ++ c1 ++ c2) = true)
      by (rewrite !forallb_app; unfold compare_call at 1; simpl;
          rewrite !String.eqb_refl, orb_true_r; simpl;
          apply andb_true_intro; split; apply forallb_forall; intros c Hc;
          unfold compare_call;
          [ rewrite forallb_forall in A1; now rewrite (A1 c Hc)
          | rewrite forallb_forall in A2; rewrite (A2 c Hc); apply orb_true_r ]).
    all: try destruct (String.eqb sum1 sum2); simpl;
      exists ([SysIslink path1; SysIslink path2] ++ c1 ++ c2), w2;
      (split; [|exact Hall]); simpl; now rewrite <- !app_assoc.
  - exists ([SysIslink path1; SysIslink path2] ++ c1), w1. split.
    + simpl. now rewrite <- !app_assoc.
    + rewrite forallb_app. unfold compare_call at 1. simpl.
      rewrite !String.eqb_refl, orb_true_r. simpl.
      apply forallb_forall; intros c Hc. unfold compare_call.
      rewrite forallb_forall in A1. now rewrite (A1 c Hc).
Qed.

End Requests.

Lemma compare_calls_no_diffoscope path1 path2 calls :
  forallb (compare_call path1 path2) calls = true ->
  filter diffoscope_request calls = []
  /\ forallb (touches path1 path2) calls = true.
Proof.
  induction calls as [|c calls IH]; simpl; [auto|].
  intros H. apply andb_prop in H. destruct H as [Hc H].
  destruct (asks_about_touches _ _ _ Hc) as [Ht Hd]. rewrite Hd, Ht.
  destruct (IH H). auto.
Qed.

Section Tidy.

Context {OS : Os}.
Variable args : Args.

Lemma tidy_initial w files2 : tidy args (initial w files2).
Proof.
  unfold tidy, initial, count_lines. simpl.
  repeat split; try constructor; destruct (args_stats args), (args_diffoscope args); auto.
Qed.

(** What one action adds keeps the report tidy. *)
Lemma tidy_absorb st d calls :
  tidy args st ->
  os_trace (st_os d) = os_trace (st_os st) ++ calls ->
  tidy args (mkState (mkOs (os_world (st_os d)) calls) (st_written d) (st_stats d)
                     (st_ret d) []) ->
  tidy args (absorb st d).
Proof.
  intros (Hh & Hr & Hs & Hd) Ht (Eh & Er & Es & Ed). simpl in *.
  unfold tidy, absorb, count_lines in *. simpl.
  rewrite Ht, !existsb_app, !filter_app, !length_app, !map_app, !list_sum_app.
  repeat split.
  - apply Forall_app. now split.
  - rewrite Er, Hr.
    destruct (existsb _ (st_written st)), (existsb _ (st_written d)); reflexivity.
  - destruct (args_stats args).
    + destruct Hs as (S1 & S2 & S3), Es as (T1 & T2 & T3). simpl. repeat split; lia.
    + rewrite Hs, Es. reflexivity.
  - rewrite Hd, Ed. destruct (args_diffoscope args); reflexivity.
Qed.

Lemma perform_blank_tidy a o :
  exists calls,
    os_trace (st_os (perform args a (blank o))) = os_trace o ++ calls
    /\ (match a with
        | Compare _ _ path1 path2 => forallb (touches path1 path2) calls = true
        | _ => calls = []
        end)
    /\ tidy args (mkState (mkOs (os_world (st_os (perform args a (blank o)))) calls)
                         (st_written (perform args a (blank o)))
                         (st_stats (perform args a (blank o)))
                         (st_ret (perform args a (blank o))) []).
Proof.
  unfold perform, tidy, count, handle_of, count_lines.
  destruct (args_images args) as [image1 image2].
  destruct (args_stats args) eqn:Es, (args_diffoscope args) eqn:Ed;
    destruct a as [dir file path1 path2|dir file|dir file|dir n|dir n];
    try (exists []; simpl; rewrite app_nil_r;
         repeat split; repeat constructor; simpl; lia).
  all: destruct (compare_files_calls path1 path2 (st_os (blank o)))
      as [calls [w' [Ho Hc]]];
    apply compare_calls_no_diffoscope in Hc; destruct Hc as [Hc Ht];
    destruct (compare_files path1 path2 (st_os (blank o))) as [outcome o'];
    simpl in Ho; subst o';
    destruct outcome as [[|]|[]]; unfold run_diffoscope, sys_diffoscope; rewrite ?Ed;
      simpl.
  all: try (exists calls; simpl; rewrite ?Hc;
            repeat split; repeat constructor; auto; simpl; lia).
  all: destruct (os_diffoscope w' path1 path2); simpl;
    exists (calls ++ [SysDiffoscope path1 path2]); simpl;
    rewrite ?filter_app, ?forallb_app, ?Hc, ?Ht, <- ?app_assoc; simpl;
    rewrite ?String.eqb_refl;
    repeat split; repeat constructor; auto; simpl; lia.
Qed.

Lemma perform_tidy a st : tidy args st -> tidy args (perform args a st).
Proof.
  intros H. rewrite perform_absorb.
  destruct (perform_blank_tidy a (st_os st)) as [calls [Ht [_ Hd]]].
  now apply (tidy_absorb st _ calls).
Qed.

Lemma run_tidy acts st : tidy args st -> tidy args (run args acts st).
Proof.
  revert st. induction acts as [|a acts IH]; intros st H; [exact H|].
  rewrite run_cons. apply IH. now apply perform_tidy.
Qed.

End Tidy.

Section MainTidy.

Context {OS : Os}.
Variable args : Args.

Lemma write_stats_written (st : state) :
  exists lines,
    st_written (snd (write_stats args st)) = st_written st ++ lines
    /\ Forall (fun e => fst e = output_handle args
                        /\ is_error (snd e) = false
                        /\ is_difference (snd e) = false
                        /\ missing_files (snd e) = 0) lines.
Proof.
  unfold write_stats. destruct (args_stats args).
  - destruct (args_images args) as [image1 image2].
    repeat match goal with
           | |- context [match truediv ?a ?b with _ => _ end] =>
               destruct (truediv a b)
           end; unfold write; simpl; rewrite <- ?app_assoc; simpl;
      eexists; (split; [reflexivity|]); repeat constructor.
  - exists []. simpl. rewrite app_nil_r. split; [reflexivity | constructor].
Qed.

Lemma filter_none_of {A} (p : A -> bool) (l : list A) :
  Forall (fun x => p x = false) l -> filter p l = [].
Proof.
  induction 1 as [|x l Hx _ IH]; simpl; [reflexivity|]. now rewrite Hx.
Qed.

Lemma write_stats_tidy (st : state) :
  tidy args st -> tidy args (snd (write_stats args st)).
Proof.
  intros (Hh & Hr & Hs & Hd).
  destruct (write_stats_keeps args st) as (Ks & Ko & Kr).
  destruct (write_stats_written st) as [lines [Hw Hl]].
  assert (Hdiff : existsb (fun e => is_difference (snd e)) lines = false).
  { clear Hw. induction Hl as [|e l (_ & _ & He & _) _ IH]; simpl; [reflexivity|].
    now rewrite He. }
  assert (Hmm : filter (fun e : stream * line => is_missmatch (snd e)) lines = []).
  { apply filter_none_of. eapply Forall_impl; [|exact Hl].
    intros [h l] (_ & _ & He & _). simpl in *. now destruct l. }
  assert (Hmd : filter (fun e : stream * line => is_missing_any_directory (snd e)) lines
                = []).
  { apply filter_none_of. eapply Forall_impl; [|exact Hl].
    intros [h l] (_ & _ & He & _). simpl in *. now destruct l. }
  assert (Hmf : list_sum (map (fun e : stream * line => missing_files (snd e)) lines) = 0).
  { clear Hw Hdiff Hmm Hmd.
    induction Hl as [|e l (_ & _ & _ & He) _ IH]; simpl; [reflexivity|].
    now rewrite He, IH. }
  unfold tidy, count_lines in *. rewrite Ks, Ko, Kr, Hw.
  rewrite !existsb_app, !filter_app, !length_app, !map_app, !list_sum_app.
  rewrite Hdiff, Hmm, Hmd, Hmf, orb_false_r. simpl. rewrite !Nat.add_0_r.
  repeat split; auto.
  apply Forall_app. split; [assumption|].
  eapply Forall_impl; [|exact Hl]. intros [h l] (E1 & E2 & _). simpl in *.
  unfold handle_of. now rewrite E2.
Qed.

Lemma tidy_with_files2 f st : tidy args st -> tidy args (with_files2 f st).
Proof. intros H. exact H. Qed.

Lemma reconcile_tidy files1 files2 w :
  listing_wf files1 -> listing_wf files2 ->
  tidy args (reconcile args files1 files2 w).
Proof.
  intros H1 H2. rewrite reconcile_plan by assumption.
  apply tidy_with_files2, run_tidy, tidy_initial.
Qed.

Lemma main_tidy root1 root2 tree1 tree2 w :
  tidy args (snd (main args root1 root2 tree1 tree2 w)).
Proof.
  rewrite main_state. apply write_stats_tidy, reconcile_tidy; apply get_contents_wf.
Qed.

Lemma main_returns root1 root2 tree1 tree2 w :
  fst (main args root1 root2 tree1 tree2 w)
  = Ok (st_ret (snd (main args root1 root2 tree1 tree2 w)))
  \/ fst (main args root1 root2 tree1 tree2 w) = Raise ZeroDivisionError.
Proof.
  unfold main. destruct (write_stats args _) as [[[]|[]] st]; simpl; auto.
Qed.

End MainTidy.

(** X9: [ret] says whether a difference was reported: it is 1 when a
    "File Missmatch", "Missing File" or "Missing Directory" line was
    written and 0 when none was; and a value that [main] returns is that
    [ret]. *)
Theorem ret_tells_whether_a_difference_was_reported {OS : Os} (args : Args)
        (root1 root2 : string) (tree1 tree2 : node) (w : world) :
  let run := main args root1 root2 tree1 tree2 w in
  st_ret (snd run)
  = (if existsb (fun e => is_difference (snd e)) (st_written (snd run)) then 1 else 0)
  /\ match fst run with
     | Ok ret => ret = st_ret (snd run)
     | Raise _ => True
     end.
Proof.
  intros run. subst run.
  destruct (main_tidy args root1 root2 tree1 tree2 w) as (_ & Hret & _).
  split; [exact Hret|].
  unfold main. now destruct (write_stats args _) as [[[]|[]] st].
Qed.

(** X10: every line goes to the handle the script has for its kind: the
    "Permission Error" and "Call to diffoscope failed" messages to
    [error_handle], every other line to [output_handle].  Without [-o]
    the report on the standard output holds no error message and the
    standard error no report line; with [-o] both handles are the file. *)
Theorem lines_go_to_their_handle {OS : Os} (args : Args)
        (root1 root2 : string) (tree1 tree2 : node) (w : world) :
  Forall (fun e => fst e = (if is_error (snd e) then error_handle args
                            else output_handle args))
         (st_written (snd (main args root1 root2 tree1 tree2 w))).
Proof.
  destruct (main_tidy args root1 root2 tree1 tree2 w) as (Hhandles & _).
  exact Hhandles.
Qed.

(** X11: diffoscope is run once for each "File Missmatch" line when [-d]
    is given, and never without [-d]. *)
Theorem diffoscope_runs_once_per_missmatch {OS : Os} (args : Args)
        (root1 root2 : string) (tree1 tree2 : node) (w : world) :
  let st := snd (main args root1 root2 tree1 tree2 w) in
  List.length (filter diffoscope_request (os_trace (st_os st)))
  = (if args_diffoscope args then count_lines is_missmatch (st_written st) else 0).
Proof.
  intros st. subst st.
  destruct (main_tidy args root1 root2 tree1 tree2 w) as (_ & _ & _ & Hruns).
  exact Hruns.
Qed.

(** X12: with [-s] the counters agree with the report: [missmatch] is the
    number of "File Missmatch" lines, the two directory counters add up to
    the number of "Missing Directory" lines, and the two missing-file
    counters to the number of "Missing File" lines plus the file counts
    the "Missing Directory" lines carry.  Without [-s] every counter is
    zero. *)
Theorem counters_agree_with_the_report {OS : Os} (args : Args)
        (root1 root2 : string) (tree1 tree2 : node) (w : world) :
  let st := snd (main args root1 root2 tree1 tree2 w) in
  if args_stats args
  then stat_missmatch (st_stats st) = count_lines is_missmatch (st_written st)
       /\ stat_missing1 (st_stats st) + stat_missing2 (st_stats st)
          = list_sum (map (fun e => missing_files (snd e)) (st_written st))
       /\ stat_dir_missing1 (st_stats st) + stat_dir_missing2 (st_stats st)
          = count_lines is_missing_any_directory (st_written st)
  else st_stats st = stats_zero.
Proof.
  intros st. subst st.
  destruct (main_tidy args root1 root2 tree1 tree2 w) as (_ & _ & Hcounters & _).
  exact Hcounters.
Qed.

(* ===================================================================== *)
(** * Requests are about files of both images *)
(* ===================================================================== *)


Section CommonFiles.

Context {OS : Os}.
Variable args : Args.
Variables files1 files2 : dict (dict string).



End CommonFiles.


(* ===================================================================== *)
(** * An image compared with itself *)
(* ===================================================================== *)

Section Self.

Context {OS : Os}.

Lemma sha256sum_then_readable filename block_size retry s sum :
  0 < block_size ->
  fst (sha256sum filename block_size retry s) = Ok sum ->
  exists data,
    os_open_read (os_world (snd (sha256sum filename block_size retry s))) filename
    = Some data
    /\ sum = sha256_hex data.
Proof.
  intros Hb. simp sha256sum. unfold sys_open.
  destruct (os_open_read (os_world s) filename) as [data|] eqn:Hopen; simpl.
  - intros [= <-]. exists data. rewrite read_loop_all by assumption. auto.
  - destruct retry; simpl; [|discriminate].
    unfold sys_stat. simpl.
    destruct (os_stat_mode (os_world s) filename) as [st_mode|]; simpl; [|discriminate].
    unfold sys_chmod. simpl.
    destruct (os_chmod (os_world s) filename (N.lor st_mode S_IRUSR)) as [granted|];
      simpl; [|discriminate].
    simp sha256sum. unfold sys_open. simpl.
    destruct (os_open_read granted filename) as [data|] eqn:Hagain; simpl;
      [|discriminate].
    intros [= <-]. exists data.
    rewrite read_loop_all by apply default_block_size_positive. auto.
Qed.

(** A path compared with itself is never found to differ. *)
Lemma compare_files_same_path path s : fst (compare_files path path s) <> Ok false.
Proof.
  unfold compare_files, sys_islink, sys_readlink, logged. simpl.
  destruct (os_link (os_world s) path) as [t|] eqn:E; simpl; rewrite ?E; simpl;
    rewrite ?E; simpl.
  - rewrite String.eqb_refl. simpl. discriminate.
  - match goal with
    | |- context [sha256sum path ?b true ?s0] =>
        pose proof (sha256sum_then_readable path b true s0) as H1;
        destruct (sha256sum path b true s0) as [[sum1|e1] s1]; simpl in *
    end; [|discriminate].
    destruct (H1 sum1 default_block_size_positive eq_refl) as [data [Hr ->]].
    match goal with
    | |- context [sha256sum path ?b true s1] =>
        rewrite (sha256sum_readable path b true s1 data Hr)
    end.
    rewrite read_loop_all by apply default_block_size_positive.
    rewrite String.eqb_refl. simpl. discriminate.
Qed.

Variable args : Args.

Lemma perform_same_path dir file path st :
  nothing_found st -> nothing_found (perform args (Compare dir file path path) st).
Proof.
  intros (Hr & Hw & H1 & H2 & H3 & H4 & H5). unfold perform.
  destruct (args_images args) as [image1 image2].
  pose proof (compare_files_same_path path (st_os st)) as Hne.
  destruct (compare_files path path (st_os st)) as [[[|]|[]] o]; simpl in *;
    [| congruence |];
    unfold nothing_found, count, write, with_os; destruct (args_stats args); simpl;
    rewrite ?existsb_app, ?Hw; simpl; repeat split; auto; lia.
Qed.

Lemma plan_self (files : dict (dict string)) :
  listing_wf files ->
  Forall (fun a => exists dir file path, a = Compare dir file path path)
         (plan files files).
Proof.
  intros [Hwf Hin]. unfold plan. apply Forall_app. split.
  - apply Forall_forall. intros a Ha. apply in_flat_map in Ha.
    destruct Ha as [d [Hd Ha]]. unfold plan_dir in Ha.
    apply mem_iff in Hd. apply mem_get in Hd. destruct Hd as [fs Hfs].
    rewrite Hfs in Ha. unfold Py.getitem in Ha. rewrite Hfs in Ha.
    apply in_app_or in Ha. destruct Ha as [Ha|Ha].
    + apply in_map_iff in Ha. destruct Ha as [f [<- Hf]].
      unfold file_action. apply mem_iff in Hf. apply mem_get in Hf.
      destruct Hf as [p Hp]. rewrite Hp. unfold Py.getitem. rewrite Hfs, Hp. eauto.
    + apply in_map_iff in Ha. destruct Ha as [f [_ Hf]]. apply filter_In in Hf.
      destruct Hf as [Hf Hn]. apply mem_iff in Hf. now rewrite Hf in Hn.
  - apply Forall_forall. intros a Ha. apply in_map_iff in Ha.
    destruct Ha as [d [_ Hd]]. apply filter_In in Hd.
    destruct Hd as [Hd Hn]. apply mem_iff in Hd. now rewrite Hd in Hn.
Qed.

Lemma run_same_paths acts st :
  Forall (fun a => exists dir file path, a = Compare dir file path path) acts ->
  nothing_found st -> nothing_found (run args acts st).
Proof.
  intros H. revert st. induction H as [|a acts [dir [file [path ->]]] _ IH]; intros st Hst;
    [exact Hst|].
  rewrite run_cons. apply IH. now apply perform_same_path.
Qed.

Lemma write_stats_nothing_found st :
  nothing_found st -> nothing_found (snd (write_stats args st)).
Proof.
  intros (Hr & Hw & H).
  destruct (write_stats_keeps args st) as (Ks & Ko & Kr).
  destruct (write_stats_written args st) as [lines [Hl Hf]].
  unfold nothing_found. rewrite Ks, Kr, Hl, existsb_app, Hw. simpl.
  repeat split; try tauto.
  clear Hl. induction Hf as [|e l (_ & _ & He & _) _ IH]; simpl; [reflexivity|].
  now rewrite He.
Qed.

End Self.

Lemma on_both_self (files : dict (dict string)) : on_both files files = entries files.
Proof.
  unfold on_both. apply forallb_filter_id. apply forallb_forall.
  intros [d f] H. now apply in_entries.
Qed.

(** The loops on one listing taken twice, where [open] gives the bytes
    of a file or [PermissionError] and a file is the same at its two
    readings: nothing is found. *)
Lemma self_comparison_finds_nothing {OS : Os} (args : Args) (root : string) (tree : node)
        (w : world) :
  let st := snd (main args root root tree tree w) in
  st_ret st = 0
  /\ existsb (fun e => is_difference (snd e)) (st_written st) = false
  /\ stat_missmatch (st_stats st) = 0
  /\ stat_missing1 (st_stats st) = 0
  /\ stat_missing2 (st_stats st) = 0
  /\ stat_dir_missing1 (st_stats st) = 0
  /\ stat_dir_missing2 (st_stats st) = 0
  /\ stat_match (st_stats st)
     = (if args_stats args
        then List.length (entries (get_contents root (args_sort args) tree))
        else 0).
Proof.
  intros st. set (files := get_contents root (args_sort args) tree).
  assert (Hwf : listing_wf files) by apply get_contents_wf.
  assert (H : nothing_found st).
  { subst st. rewrite main_state. apply write_stats_nothing_found.
    fold files. rewrite reconcile_plan by assumption.
    apply (run_same_paths args); [now apply plan_self|].
    unfold nothing_found, initial. simpl. repeat split; reflexivity. }
  destruct H as (H0 & H1 & H2 & H3 & H4 & H5 & H6).
  repeat (split; [assumption|]).
  subst st. rewrite main_stats in *. fold files in H2 |- *.
  destruct (args_stats args) eqn:Es.
  - destruct (reconcile_counts args Es files files w Hwf Hwf) as (C & _).
    rewrite on_both_self in C. lia.
  - now rewrite reconcile_counts_off.
Qed.

(** X14: when [main] returns from comparing an image with itself, the
    files being the same at each reading, it returns 0: no "File
    Missmatch", "Missing File" or "Missing Directory" line was written,
    every counter of a difference is zero and, with [-s], every file is
    counted as a match.  A file that [open] refuses with [PermissionError]
    only has its "Permission Error" line. *)
Theorem an_image_equals_itself {OS : Os} (args : Args) (root : string) (tree : node)
        (w : world) (ret : nat) :
  fst (main args root root tree tree w) = Ok ret ->
  let st := snd (main args root root tree tree w) in
  ret = 0
  /\ existsb (fun e => is_difference (snd e)) (st_written st) = false
  /\ stat_missmatch (st_stats st) = 0
  /\ stat_missing1 (st_stats st) = 0
  /\ stat_missing2 (st_stats st) = 0
  /\ stat_dir_missing1 (st_stats st) = 0
  /\ stat_dir_missing2 (st_stats st) = 0
  /\ stat_match (st_stats st)
     = (if args_stats args
        then List.length (entries (get_contents root (args_sort args) tree))
        else 0).
Proof.
  intros Hret st. subst st.
  destruct (self_comparison_finds_nothing args root tree w) as (H0 & H).
  split; [|exact H].
  destruct (main_returns args root root tree tree w) as [R|R]; rewrite R in Hret.
  - injection Hret as <-. exact H0.
  - discriminate.
Qed.

(** [an_image_equals_itself] on a tree that holds [a.txt]: the run
    returns 0 and the file is counted as a match. *)
Lemma an_image_equals_itself_witness :
  let tree := Dir [("a.txt", File)] in
  fst (main (OS := Toy.os) Example.with_stats "A" "A" tree tree Example.files_on_disk)
  = Ok 0
  /\ stat_match (st_stats (snd (main (OS := Toy.os) Example.with_stats "A" "A" tree tree
                                     Example.files_on_disk))) = 1.
Proof.
  intros tree.
  assert (H : fst (main (OS := Toy.os) Example.with_stats "A" "A" tree tree
                        Example.files_on_disk) = Ok 0) by reflexivity.
  split; [exact H|].
  destruct (an_image_equals_itself (OS := Toy.os) Example.with_stats "A" tree
              Example.files_on_disk 0 H) as (_ & _ & _ & _ & _ & _ & _ & Hm).
  exact Hm.
Defined.

(* ===================================================================== *)
(** * Images with no directory in common *)
(* ===================================================================== *)

Section Disjoint.

Context {OS : Os}.
Variable args : Args.

Lemma run_quiet acts st :
  forallb quiet acts = true ->
  st_os (run args acts st) = st_os st
  /\ st_written (run args acts st)
     = st_written st ++ map (fun a => (output_handle args, quiet_line args a)) acts
  /\ st_ret (run args acts st) = (match acts with [] => st_ret st | _ => 1 end).
Proof.
  revert st. induction acts as [|a acts IH]; intros st H.
  - simpl. now rewrite app_nil_r.
  - cbn [forallb] in H. apply andb_prop in H. destruct H as [Ha H]. rewrite run_cons.
    destruct (IH (perform args a st) H) as (I1 & I2 & I3).
    rewrite I1, I2, I3, (perform_quiet args a st Ha). cbn [map st_os st_written st_ret].
    rewrite <- app_assoc. repeat split. now destruct acts.
Qed.

Lemma plan_disjoint (files1 files2 : dict (dict string)) :
  (forall k, In k (keys files1) -> ~ In k (keys files2)) ->
  plan files1 files2
  = map (fun d => DirOnlyLeft d (List.length (Py.getitem d files1 []))) (keys files1)
    ++ map (fun d => DirOnlyRight d (List.length (Py.getitem d files2 []))) (keys files2).
Proof.
  intros Hdis. unfold plan. f_equal.
  - assert (H : forall l, incl l (keys files1) ->
                flat_map (plan_dir files1 files2) l
                = map (fun d => DirOnlyLeft d (List.length (Py.getitem d files1 []))) l).
    { induction l as [|d l IH]; intros Hl; [reflexivity|]. simpl.
      rewrite IH by (intros x Hx; apply Hl; now right).
      unfold plan_dir.
      assert (E : Py.get d files2 = None).
      { apply get_none_iff. apply Hdis. apply Hl. now left. }
      now rewrite E. }
    apply H, incl_refl.
  - f_equal. apply forallb_filter_id. apply forallb_forall. intros d Hd.
    apply negb_true_iff. apply mem_false_iff. intros H. exact (Hdis d H Hd).
Qed.

(** Two listings with no key in common: every key of either is reported
    as a missing directory, in the order of the listings, and nothing is
    asked of the system. *)
Lemma reconcile_disjoint (files1 files2 : dict (dict string)) (w : world) :
  listing_wf files1 ->
  listing_wf files2 ->
  (forall k, In k (keys files1) -> ~ In k (keys files2)) ->
  let (image1, image2) := args_images args in
  let st := reconcile args files1 files2 w in
  st_os st = mkOs w []
  /\ st_written st
     = map (missing_directory_line args files1 image1 image2) (keys files1)
       ++ map (missing_directory_line args files2 image2 image1) (keys files2)
  /\ st_ret st = (match keys files1 ++ keys files2 with [] => 0 | _ => 1 end).
Proof.
  intros H1 H2 Hdis. destruct (args_images args) as [image1 image2] eqn:Ei.
  rewrite reconcile_plan by assumption. rewrite (plan_disjoint _ _ Hdis).
  destruct (run_quiet
              (map (fun d => DirOnlyLeft d (List.length (Py.getitem d files1 [])))
                   (keys files1)
               ++ map (fun d => DirOnlyRight d (List.length (Py.getitem d files2 [])))
                      (keys files2))
              (initial w files2)) as (R1 & R2 & R3).
  { rewrite forallb_app. apply andb_true_intro.
    split; apply forallb_forall; intros a Ha; apply in_map_iff in Ha;
      destruct Ha as [d [<- _]]; reflexivity. }
  simpl. rewrite R1, R2, R3. repeat split.
  - rewrite map_app, !map_map. unfold quiet_line, missing_directory_line.
    rewrite Ei. reflexivity.
  - destruct (keys files1); simpl; [|reflexivity]. now destruct (keys files2).
Qed.

End Disjoint.

(** X15: when the two listings have no key in common, every directory of
    either image is reported missing, with its number of files: first
    those of the first image in the order of its listing, then those of
    the second.  Nothing is asked of the system, and [ret] is 1 unless
    both listings are empty. *)
Theorem disjoint_listings_are_reported_whole {OS : Os} (args : Args)
        (files1 files2 : dict (dict string)) (w : world) :
  listing_wf files1 ->
  listing_wf files2 ->
  (forall k, In k (keys files1) -> ~ In k (keys files2)) ->
  let st := reconcile args files1 files2 w in
  st_os st = mkOs w []
  /\ st_written st
     = map (missing_directory_line args files1 (fst (args_images args))
                                   (snd (args_images args))) (keys files1)
       ++ map (missing_directory_line args files2 (snd (args_images args))
                                      (fst (args_images args))) (keys files2)
  /\ st_ret st = (match keys files1 ++ keys files2 with [] => 0 | _ => 1 end).
Proof.
  intros H1 H2 Hdis.
  pose proof (reconcile_disjoint args files1 files2 w H1 H2 Hdis) as H.
  now destruct (args_images args).
Qed.

Lemma disjoint_listings_are_reported_whole_witness :
  let files1 := [("a", [("x", "A/a/x"); ("y", "A/a/y")])] in
  let files2 := [("b", [("z", "B/b/z")])] in
  let st := reconcile (OS := Toy.os) Example.without_stats files1 files2 [] in
  listing_wf files1
  /\ listing_wf files2
  /\ (forall k, In k (keys files1) -> ~ In k (keys files2))
  /\ st_os st = mkOs (OS := Toy.os) [] []
  /\ st_written st = [(Stdout, MissingDirectory 2 "a" "A" "B");
                      (Stdout, MissingDirectory 1 "b" "B" "A")]
  /\ st_ret st = 1.
Proof.
  intros files1 files2 st.
  assert (H1 : listing_wf files1) by (apply listing_ok_sound; reflexivity).
  assert (H2 : listing_wf files2) by (apply listing_ok_sound; reflexivity).
  assert (H3 : forall k, In k (keys files1) -> ~ In k (keys files2)).
  { intros k [<-|[]] [H|[]]. discriminate. }
  split; [exact H1|]. split; [exact H2|]. split; [exact H3|].
  exact (disjoint_listings_are_reported_whole (OS := Toy.os) Example.without_stats
           files1 files2 [] H1 H2 H3).
Defined.

(** X8: a root made of slashes only is stripped to the empty path, which
    [os.walk] cannot scan: its listing is empty whatever is on disk, so
    that [main] reads nothing and reports every directory of the other
    image as missing. *)
Theorem root_of_slashes_is_scanned_as_empty {OS : Os} (args : Args)
        (root1 root2 : string) (tree1 tree2 : node) (w : world) :
  rstrip_slash root1 = "" ->
  let files2 := get_contents root2 (args_sort args) tree2 in
  let st := reconcile args (get_contents root1 (args_sort args) tree1) files2 w in
  get_contents root1 (args_sort args) tree1 = []
  /\ st_os st = mkOs w []
  /\ st_written st
     = map (missing_directory_line args files2 (snd (args_images args))
                                   (fst (args_images args))) (keys files2)
  /\ st_ret st = (match files2 with [] => 0 | _ => 1 end).
Proof.
  intros Hroot files2 st.
  assert (E : get_contents root1 (args_sort args) tree1 = []).
  { rewrite get_contents_loops, Hroot. reflexivity. }
  split; [exact E|]. subst st. rewrite E.
  pose proof (reconcile_disjoint args [] files2 w) as H.
  destruct (args_images args) as [image1 image2]. simpl in *.
  destruct H as (R1 & R2 & R3).
  - split; [constructor | discriminate].
  - apply get_contents_wf.
  - intros k [].
  - repeat split; auto. rewrite R3. unfold keys. now destruct files2.
Qed.

Lemma root_of_slashes_is_scanned_as_empty_witness :
  let tree := Dir [("a.txt", File)] in
  rstrip_slash "//" = ""
  /\ get_contents "//" false tree = []
  /\ st_written (reconcile (OS := Toy.os) Example.without_stats
                           (get_contents "//" false tree) (get_contents "B" false tree)
                           Example.files_on_disk)
     = [(Stdout, MissingDirectory 1 "." "B" "A")].
Proof.
  intros tree.
  assert (H : rstrip_slash "//" = "") by reflexivity.
  split; [exact H|].
  destruct (root_of_slashes_is_scanned_as_empty (OS := Toy.os) Example.without_stats
              "//" "B" tree tree Example.files_on_disk H) as (E & _ & W & _).
  split; [exact E | exact W].
Defined.

(* ===================================================================== *)
(** * The two images the other way round *)
(* ===================================================================== *)

Lemma on_both_swap (a b : dict (dict string)) :
  listing_wf a -> listing_wf b ->
  List.length (on_both a b) = List.length (on_both b a).
Proof.
  intros Ha Hb. apply Permutation_length. apply NoDup_Permutation.
  - apply NoDup_filter. now apply entries_nodup.
  - apply NoDup_filter. now apply entries_nodup.
  - intros [d f]. unfold on_both. rewrite !filter_In, !in_entries. tauto.
Qed.

(** X16: comparing the images the other way round exchanges the counters
    of the two sides and keeps the number of files compared: what the
    first image misses in one run is what the second misses in the other.
    This holds of any two runs, whatever the system answers in each. *)
Theorem swapping_the_images_swaps_the_counters {OS : Os} (args : Args)
        (root1 root2 : string) (tree1 tree2 : node) (w w' : world) :
  let there := st_stats (snd (main args root1 root2 tree1 tree2 w)) in
  let back := st_stats (snd (main args root2 root1 tree2 tree1 w')) in
  stat_missing1 there = stat_missing2 back
  /\ stat_missing2 there = stat_missing1 back
  /\ stat_dir_missing1 there = stat_dir_missing2 back
  /\ stat_dir_missing2 there = stat_dir_missing1 back
  /\ stat_match there + stat_missmatch there = stat_match back + stat_missmatch back.
Proof.
  intros there back. subst there back. rewrite !main_stats.
  set (files1 := get_contents root1 (args_sort args) tree1).
  set (files2 := get_contents root2 (args_sort args) tree2).
  assert (H1 : listing_wf files1) by apply get_contents_wf.
  assert (H2 : listing_wf files2) by apply get_contents_wf.
  destruct (args_stats args) eqn:Es.
  - destruct (reconcile_counts args Es files1 files2 w H1 H2) as (A1 & A2 & A3 & A4 & A5).
    destruct (reconcile_counts args Es files2 files1 w' H2 H1) as (B1 & B2 & B3 & B4 & B5).
    rewrite A1, A2, A3, A4, A5, B1, B2, B3, B4, B5.
    repeat split. now apply on_both_swap.
  - rewrite !reconcile_counts_off by exact Es. simpl. auto.
Qed.

(* ===================================================================== *)
(** * The statistics *)
(* ===================================================================== *)

Lemma no_file_at_all (files1 files2 : dict (dict string)) :
  List.length (entries files1 ++ only_in files2 files1) = 0
  <-> entries files1 = [] /\ entries files2 = [].
Proof.
  rewrite length_app. split.
  - intros H.
    assert (E1 : entries files1 = []) by (apply length_zero_iff_nil; lia).
    split; [exact E1|].
    assert (E2 : only_in files2 files1 = []) by (apply length_zero_iff_nil; lia).
    unfold only_in in E2.
    rewrite forallb_filter_id in E2; [exact E2|].
    apply forallb_forall. intros [d f] _. apply negb_true_iff.
    destruct (has files1 (d, f)) eqn:E; [|reflexivity].
    apply in_entries in E. rewrite E1 in E. destruct E.
  - intros [E1 E2]. unfold only_in. now rewrite E1, E2.
Qed.

(** With [-s] and a file counted, the statistics are written in full. *)
Lemma write_stats_on_files {OS : Os} (args : Args) (st : state) :
  args_stats args = true ->
  file_total (st_stats st) <> 0 ->
  let s := st_stats st in
  let out := output_handle args in
  exists matches misses missing : Q,
    write_stats args st
    = (Ok tt,
       mkState (st_os st)
         (st_written st
          ++ [(out, StatsHeader);
              (out, StatsTotal (file_total s));
              (out, StatsMatches (stat_match s) matches);
              (out, StatsMisses (stat_missmatch s) misses);
              (out, StatsMissing (stat_missing1 s + stat_missing2 s) missing);
              (out, StatsFilesMissing (fst (args_images args)) (snd (args_images args))
                                      (stat_missing1 s));
              (out, StatsFilesMissing (snd (args_images args)) (fst (args_images args))
                                      (stat_missing2 s));
              (out, StatsDirsMissing (fst (args_images args)) (snd (args_images args))
                                     (stat_dir_missing1 s));
              (out, StatsDirsMissing (snd (args_images args)) (fst (args_images args))
                                     (stat_dir_missing2 s))])
         s (st_ret st) (st_files2 st)).
Proof.
  intros Es Hn s out. unfold write_stats. rewrite Es.
  destruct (args_images args) as [image1 image2]. fold s.
  unfold file_total in Hn. fold s in Hn.
  set (n := stat_match s + stat_missmatch s + stat_missing1 s + stat_missing2 s) in *.
  destruct (truediv (stat_match s) n) as [x|[]] eqn:E1;
    [|unfold truediv in E1; destruct n; [congruence | discriminate]].
  destruct (truediv (stat_missmatch s) n) as [y|[]] eqn:E2;
    [|unfold truediv in E2; destruct n; [congruence | discriminate]].
  destruct (truediv (stat_missing1 s + stat_missing2 s) n) as [z|[]] eqn:E3;
    [|unfold truediv in E3; destruct n; [congruence | discriminate]].
  exists x, y, z. unfold write. simpl. rewrite <- !app_assoc. reflexivity.
Qed.

(** X19: the statistics fail on nothing, and on nothing else.  [main]
    stops with [ZeroDivisionError] when [-s] is given and neither listing
    records a file, and in no other case.  A run with [-s] that returns
    has found a file, and its report ends with the nine lines of the
    statistics on [output_handle]: the total is the number of distinct
    files of the two listings, and the counts are the counters of the
    loops. *)
Theorem statistics_fail_only_on_nothing {OS : Os} (args : Args)
        (root1 root2 : string) (tree1 tree2 : node) (w : world) :
  let files1 := get_contents root1 (args_sort args) tree1 in
  let files2 := get_contents root2 (args_sort args) tree2 in
  let loops := reconcile args files1 files2 w in
  let run := main args root1 root2 tree1 tree2 w in
  let s := st_stats loops in
  let out := output_handle args in
  (fst run = Raise ZeroDivisionError
   <-> args_stats args = true /\ entries files1 = [] /\ entries files2 = [])
  /\ (args_stats args = true ->
      forall ret, fst run = Ok ret ->
      entries files1 ++ entries files2 <> []
      /\ exists matches misses missing : Q,
        st_written (snd run)
        = st_written loops
          ++ [(out, StatsHeader);
              (out, StatsTotal (List.length (entries files1 ++ only_in files2 files1)));
              (out, StatsMatches (stat_match s) matches);
              (out, StatsMisses (stat_missmatch s) misses);
              (out, StatsMissing (stat_missing1 s + stat_missing2 s) missing);
              (out, StatsFilesMissing (fst (args_images args)) (snd (args_images args))
                                      (stat_missing1 s));
              (out, StatsFilesMissing (snd (args_images args)) (fst (args_images args))
                                      (stat_missing2 s));
              (out, StatsDirsMissing (fst (args_images args)) (snd (args_images args))
                                     (stat_dir_missing1 s));
              (out, StatsDirsMissing (snd (args_images args)) (fst (args_images args))
                                     (stat_dir_missing2 s))]).
Proof.
  intros files1 files2 loops run s out.
  assert (H1 : listing_wf files1) by apply get_contents_wf.
  assert (H2 : listing_wf files2) by apply get_contents_wf.
  assert (Erun : run = match write_stats args loops with
                       | (Raise e, st) => (Raise e, st)
                       | (Ok _, st) => (Ok (st_ret st), st)
                       end) by reflexivity.
  destruct (args_stats args) eqn:Es.
  - pose proof (entries_are_counted args files1 files2 w H1 H2 Es) as Htotal.
    fold loops in Htotal.
    destruct (Nat.eq_dec (file_total (st_stats loops)) 0) as [Hz|Hnz].
    + assert (Hnone : entries files1 = [] /\ entries files2 = [])
        by (apply no_file_at_all; congruence).
      pose proof (write_stats_zero_total args loops Es Hz) as Hraise.
      assert (Hfail : fst run = Raise ZeroDivisionError).
      { rewrite Erun. destruct (write_stats args loops) as [[[]|[]] st];
          simpl in *; [discriminate | reflexivity]. }
      split; [tauto|].
      intros _ ret Hret. rewrite Hfail in Hret. discriminate.
    + destruct (write_stats_on_files args loops Es Hnz) as (x & y & z & Ew).
      assert (Hsome : ~ (entries files1 = [] /\ entries files2 = []))
        by (intros Hnone; apply no_file_at_all in Hnone; congruence).
      split.
      * rewrite Erun, Ew. simpl. split; [discriminate|].
        intros (_ & Hnone). contradiction.
      * intros _ ret _. split.
        -- intros E. apply app_eq_nil in E. contradiction.
        -- exists x, y, z. rewrite Erun, Ew. simpl. now rewrite Htotal.
  - split.
    + rewrite Erun. unfold write_stats. rewrite Es. simpl.
      split; [discriminate | intros [E _]; discriminate].
    + discriminate.
Qed.

(* ===================================================================== *)
(** * Images that can be read *)
(* ===================================================================== *)

Section Readable.

Context {OS : Os}.


Variable args : Args.



End Readable.







(* ===================================================================== *)
(** * The whole run *)
(* ===================================================================== *)

Section WholeRun.

Context {OS : Os} {HOST : Host OS}.


Lemma silent_refl p : silent_stage p p.
Proof. exists []. now rewrite app_nil_r. Qed.

Lemma silent_trans p q r : silent_stage p q -> silent_stage q r -> silent_stage p r.
Proof.
  intros [c1 (A1 & A2 & A3)] [c2 (B1 & B2 & B3)]. exists (c1 ++ c2).
  rewrite B1, A1, <- app_assoc, filter_app, A2, B2, B3, A3. auto.
Qed.

Lemma open_output_silent args p :
  silent_stage p (snd (Program.open_output args p))
  /\ (fst (Program.open_output args p) = Ok tt \/ fst (Program.open_output args p) = Raise Program.OSError).
Proof.
  unfold Program.open_output. destruct (args_output_file args) as [path|].
  - destruct (host_open_write (Program.pr_world (Program.called (Program.CallOpenWrite path) p)) path);
      simpl; (split; [|auto]); exists [Program.CallOpenWrite path]; simpl; auto.
  - split; [apply silent_refl | auto].
Qed.

Lemma subprocess_run_unchecked cmd p :
  Program.subprocess_run cmd false p
  = (Ok (fst (host_shell (Program.pr_world p) cmd)),
     Program.called (Program.CallShell cmd) (Program.moved (snd (host_shell (Program.pr_world p) cmd)) p)).
Proof.
  unfold Program.subprocess_run. now destruct (host_shell (Program.pr_world p) cmd).
Qed.

Lemma require_diffoscope_cases args p :
  (fst (Program.require_diffoscope args p) = Ok tt
   /\ exists calls,
        Program.pr_calls (snd (Program.require_diffoscope args p)) = Program.pr_calls p ++ calls
        /\ filter is_diffoscope_call calls
           = (if args_diffoscope args then [Program.CallShell "diffoscope --version"] else [])
        /\ Program.pr_written (snd (Program.require_diffoscope args p)) = Program.pr_written p)
  \/ (fst (Program.require_diffoscope args p) = Raise (Program.SystemExit 1)
      /\ args_diffoscope args = true
      /\ fst (host_shell (Program.pr_world p) "diffoscope --version") <> 0%Z
      /\ Program.pr_calls (snd (Program.require_diffoscope args p))
         = Program.pr_calls p ++ [Program.CallShell "diffoscope --version"]
      /\ Program.pr_written (snd (Program.require_diffoscope args p))
         = Program.pr_written p ++ [(error_handle args, Program.PleaseInstallDiffoscope)]).
Proof.
  unfold Program.require_diffoscope, Program.subprocess_run.
  destruct (args_diffoscope args).
  - destruct (host_shell (Program.pr_world p) "diffoscope --version") as [code w'].
    simpl. destruct (Z.eqb_spec code 0) as [->|Hne]; simpl.
    + left. split; [reflexivity|]. exists [Program.CallShell "diffoscope --version"].
      simpl. auto.
    + right. simpl. auto.
  - left. split; [reflexivity|]. exists []. now rewrite app_nil_r.
Qed.

Lemma set_up_silent args unpack img p :
  (forall rest, String.prefix "diffoscope" (unpack ++ rest) = false) ->
  silent_stage p (snd (Program.set_up args unpack img p))
  /\ (fst (Program.set_up args unpack img p) = Raise Program.OSError
      \/ exists img', fst (Program.set_up args unpack img p) = Ok img').
Proof.
  intros Hun. unfold Program.set_up.
  destruct (host_isdir (Program.pr_world (Program.called (Program.CallIsdir (Program.image img)) p)) (Program.image img)).
  - split; [|right; simpl; eauto]. exists [Program.CallIsdir (Program.image img)]. simpl. auto.
  - destruct (host_is_tarfile _ (Program.image img)) as [[|]|].
    + destruct (host_mkdtemp _) as [name w'].
      rewrite subprocess_run_unchecked. simpl. split; [|right; simpl; eauto].
      eexists. simpl. rewrite <- !app_assoc. split; [reflexivity|].
      simpl. rewrite Hun. auto.
    + split; [|right; simpl; eauto]. exists [Program.CallIsdir (Program.image img); Program.CallIsTarfile (Program.image img)].
      simpl. rewrite <- app_assoc. auto.
    + split; [|left; simpl; auto]. exists [Program.CallIsdir (Program.image img); Program.CallIsTarfile (Program.image img)].
      simpl. rewrite <- app_assoc. auto.
Qed.

Lemma close_output_silent args p : silent_stage p (Program.close_output args p).
Proof.
  unfold Program.close_output. destruct (args_output_file args).
  - exists [Program.CallClose]. simpl. auto.
  - apply silent_refl.
Qed.

Lemma clean_up_silent img p : silent_stage p (Program.clean_up img p).
Proof.
  unfold Program.clean_up. destruct (Program.tmp_dir img) as [name|].
  - exists [Program.CallCleanup name]. simpl. auto.
  - apply silent_refl.
Qed.

Lemma no_diffoscope_request (trace : list syscall) :
  List.length (filter diffoscope_request trace) = 0 ->
  filter is_diffoscope_call (map Program.CallSys trace) = [].
Proof.
  induction trace as [|c trace IH]; simpl; [reflexivity|].
  destruct (diffoscope_request c); simpl; [discriminate | exact IH].
Qed.

(** The three ways a run can go: it fails before the comparison without
    a word; it stops at the check for diffoscope; or the comparison runs
    on the two roots the set-up has Program.settled on. *)
Lemma main_outcome (args : Args) (w : world) :
  let run := Program.main args w in
  ((fst run = Raise Program.OSError \/ fst run = Raise Program.AttributeError)
   /\ Program.pr_written (snd run) = []
   /\ (args_diffoscope args = false ->
       filter is_diffoscope_call (Program.pr_calls (snd run)) = []))
  \/ (fst run = Raise (Program.SystemExit 1)
      /\ args_diffoscope args = true
      /\ Program.pr_written (snd run)
         = [(error_handle (Program.settled args), Program.PleaseInstallDiffoscope)])
  \/ (exists root1 root2 w0,
        let tail := main (Program.settled args) root1 root2
                         (host_tree w0 root1) (host_tree w0 root2) w0 in
        fst run = (match fst tail with
                   | Ok ret => Ok ret
                   | Raise e => Raise (Program.ZeroDivision e)
                   end)
        /\ Program.pr_written (snd run) = map as_message (st_written (snd tail))
        /\ (args_diffoscope args = false ->
            filter is_diffoscope_call (Program.pr_calls (snd run)) = [])).
Proof.
  intros run. subst run. unfold Program.main.
  set (args' := Program.settled args). set (p0 := Program.mkProcess w [] []).
  assert (Ed : args_diffoscope args' = args_diffoscope args) by reflexivity.
  destruct (open_output_silent args' p0) as [[c1 (C1 & F1 & W1)] R1].
  destruct (Program.open_output args' p0) as [r1 p1]. simpl in C1, W1, R1.
  destruct R1 as [-> | ->].
  2:{ left. simpl. rewrite C1, W1. simpl. rewrite F1. auto. }
  destruct (require_diffoscope_cases args' p1)
    as [[R2 [c2 (C2 & F2 & W2)]] | (R2 & D2 & N2 & C2 & W2)];
    destruct (Program.require_diffoscope args' p1) as [r2 p2]; simpl in R2, C2, W2; subst r2.
  2:{ right. left. simpl. rewrite W2, W1. simpl. auto. }
  destruct (set_up_silent args' "tar --atime-preserve -xjsf "
              (Program.mkImage (fst (args_images args')) None None None) p2
              (fun rest => eq_refl)) as [[c3 (C3 & F3 & W3)] R3].
  destruct (Program.set_up args' "tar --atime-preserve -xjsf " _ p2) as [r3 p3].
  simpl in C3, W3, R3.
  assert (Hw3 : Program.pr_written p3 = []) by (rewrite W3, W2, W1; reflexivity).
  assert (Hc3 : args_diffoscope args = false ->
                filter is_diffoscope_call (Program.pr_calls p3) = []).
  { intros Hd. rewrite Ed, Hd in F2.
    rewrite C3, C2, C1, !filter_app, F1, F2, F3. reflexivity. }
  destruct R3 as [-> | [image1 ->]].
  { left. simpl. auto. }
  destruct (set_up_silent args' "tar --atime-preserve -xjpsf "
              (Program.mkImage (snd (args_images args')) None None None) p3
              (fun rest => eq_refl)) as [[c4 (C4 & F4 & W4)] R4].
  destruct (Program.set_up args' "tar --atime-preserve -xjpsf " _ p3) as [r4 p4].
  simpl in C4, W4, R4.
  assert (Hw4 : Program.pr_written p4 = []) by (rewrite W4; exact Hw3).
  assert (Hc4 : args_diffoscope args = false ->
                filter is_diffoscope_call (Program.pr_calls p4) = []).
  { intros Hd. rewrite C4, filter_app, F4, (Hc3 Hd). reflexivity. }
  destruct R4 as [-> | [image2 ->]].
  { left. simpl. auto. }
  destruct (Program.root image1) as [root1|]; [|left; simpl; auto].
  destruct (Program.root image2) as [root2|]; [|left; simpl; auto].
  right. right. exists root1, root2, (Program.pr_world p4). cbv zeta.
  pose proof (main_tidy args' root1 root2 (host_tree (Program.pr_world p4) root1)
                (host_tree (Program.pr_world p4) root2) (Program.pr_world p4)) as (_ & _ & _ & Hdiff).
  destruct (main args' root1 root2 (host_tree (Program.pr_world p4) root1)
                 (host_tree (Program.pr_world p4) root2) (Program.pr_world p4)) as [[ret|e] st].
  - destruct (close_output_silent args' (Program.reported st p4)) as [c5 (C5 & F5 & W5)].
    destruct (clean_up_silent image1 (Program.close_output args' (Program.reported st p4)))
      as [c6 (C6 & F6 & W6)].
    destruct (clean_up_silent image2
                (Program.clean_up image1 (Program.close_output args' (Program.reported st p4))))
      as [c7 (C7 & F7 & W7)].
    simpl. split; [reflexivity|]. split.
    + rewrite W7, W6, W5. simpl. now rewrite Hw4.
    + intros Hd. rewrite C7, C6, C5. simpl.
      rewrite !filter_app, F5, F6, F7, (Hc4 Hd), !app_nil_r. simpl.
      apply no_diffoscope_request. simpl in Hdiff. rewrite Hdiff. unfold args'. simpl. rewrite Hd. reflexivity.
  - simpl. split; [reflexivity|]. split.
    + now rewrite Hw4.
    + intros Hd. rewrite filter_app, (Hc4 Hd). simpl.
      apply no_diffoscope_request. simpl in Hdiff. rewrite Hdiff. unfold args'. simpl. rewrite Hd. reflexivity.
Qed.

End WholeRun.

(** X20: the failure of [tar] is never noticed.  Lines 92 and 106 run it
    without [check=True], so no return code makes [subprocess.run] raise:
    no run of [main] writes "Error unpacking image", and the only exit
    through [sys.exit] is that of the check for diffoscope, after its
    message.  An archive that cannot be unpacked is compared as the empty
    or partial directory [tar] has left. *)
Theorem a_failed_unpacking_is_never_reported {OS : Os} {HOST : Host OS}
        (args : Args) (w : world) :
  let run := Program.main args w in
  filter (fun e => is_unpack_error (snd e)) (Program.pr_written (snd run)) = []
  /\ match fst run with
     | Raise (Program.SystemExit code) =>
         code = 1
         /\ args_diffoscope args = true
         /\ Program.pr_written (snd run)
            = [(error_handle (Program.settled args), Program.PleaseInstallDiffoscope)]
     | _ => True
     end.
Proof.
  intros run. subst run.
  destruct (main_outcome args w)
    as [([E|E] & W & _) | [(E & D & W) | (root1 & root2 & w0 & E & W & _)]];
    rewrite E, W; simpl; auto.
  split.
  - clear E W. induction (st_written _) as [|e l IH]; simpl; auto.
  - now destruct (fst (main _ _ _ _ _ _)).
Qed.


(** X22: without [-d] diffoscope is never run, neither for the check of
    line 75 nor on a pair of files. *)
Theorem diffoscope_is_not_run_unasked {OS : Os} {HOST : Host OS}
        (args : Args) (w : world) :
  args_diffoscope args = false ->
  filter is_diffoscope_call (Program.pr_calls (snd (Program.main args w))) = [].
Proof.
  intros Hd.
  destruct (main_outcome args w)
    as [(_ & _ & C) | [(_ & D & _) | (root1 & root2 & w0 & _ & _ & C)]]; auto.
  congruence.
Qed.

Lemma diffoscope_is_not_run_unasked_witness :
  args_diffoscope Example.without_stats = false
  /\ filter is_diffoscope_call
       (Program.pr_calls
          (snd (Program.main (HOST := ToyHost.host) Example.without_stats
                             Example.files_on_disk))) = [].
Proof.
  assert (H : args_diffoscope Example.without_stats = false) by reflexivity.
  split; [exact H|].
  exact (diffoscope_is_not_run_unasked (HOST := ToyHost.host) Example.without_stats
           Example.files_on_disk H).
Defined.

(** X23: with [-d] and no diffoscope to run (the check of line 75 returns
    a code that is not zero), the process writes "Please install
    diffoscope" to the error handle and exits with status 1 and no
    traceback.  The check is the last thing it does: no image is looked
    at, unpacked or compared. *)
Theorem diffoscope_is_checked_before_anything_is_compared {OS : Os} {HOST : Host OS}
        (args : Args) (w : world) (p1 : Program.process) :
  args_diffoscope args = true ->
  Program.open_output (Program.settled args) (Program.mkProcess w [] []) = (Ok tt, p1) ->
  fst (host_shell (Program.pr_world p1) "diffoscope --version") <> 0%Z ->
  let out := Program.script args w in
  fst out = (1, false)
  /\ Program.pr_written (snd out)
     = [(error_handle (Program.settled args), Program.PleaseInstallDiffoscope)]
  /\ Program.pr_calls (snd out)
     = Program.pr_calls p1 ++ [Program.CallShell "diffoscope --version"].
Proof.
  intros Hd Hopen Hcode out. subst out.
  unfold Program.script, Program.main. rewrite Hopen.
  destruct (open_output_silent (Program.settled args) (Program.mkProcess w [] []))
    as [[c1 (_ & _ & W1)] _].
  rewrite Hopen in W1. simpl in W1.
  unfold Program.require_diffoscope, Program.subprocess_run. simpl. rewrite Hd.
  destruct (host_shell (Program.pr_world p1) "diffoscope --version") as [code w'].
  simpl in *. destruct (Z.eqb_spec code 0) as [->|_]; [congruence|].
  simpl. now rewrite W1.
Qed.

Lemma diffoscope_is_checked_before_anything_is_compared_witness :
  let args := mkArgs ("A", "B") true None false false in
  let p1 := Program.mkProcess (OS := Toy.os) Example.files_on_disk [] [] in
  let out := Program.script (HOST := ToyHost.host) args Example.files_on_disk in
  args_diffoscope args = true
  /\ Program.open_output (HOST := ToyHost.host) (Program.settled args) p1 = (Ok tt, p1)
  /\ fst (host_shell (Host := ToyHost.host) (Program.pr_world p1) "diffoscope --version")
     <> 0%Z
  /\ fst out = (1, false)
  /\ Program.pr_written (snd out) = [(Stderr, Program.PleaseInstallDiffoscope)]
  /\ Program.pr_calls (snd out) = [Program.CallShell "diffoscope --version"].
Proof.
  intros args p1 out.
  assert (H1 : args_diffoscope args = true) by reflexivity.
  assert (H2 : Program.open_output (HOST := ToyHost.host) (Program.settled args) p1
               = (Ok tt, p1)) by reflexivity.
  assert (H3 : fst (host_shell (Host := ToyHost.host) (Program.pr_world p1)
                               "diffoscope --version") <> 0%Z) by discriminate.
  split; [exact H1|]. split; [exact H2|]. split; [exact H3|].
  exact (diffoscope_is_checked_before_anything_is_compared (HOST := ToyHost.host)
           args Example.files_on_disk p1 H1 H2 H3).
Defined.

Lemma checked_silent {OS : Os} {HOST : Host OS} (args : Args) (w : world)
      (p0 : Program.process) :
  checked args w = Some p0 ->
  Program.pr_written p0 = []
  /\ Program.main args w
     = (let args := Program.settled args in
        let image1 := Program.mkImage (fst (args_images args)) None None None in
        let image2 := Program.mkImage (snd (args_images args)) None None None in
        match Program.set_up args "tar --atime-preserve -xjsf " image1 p0 with
        | (Raise e, p) => (Raise e, p)
        | (Ok image1, p) =>
        match Program.set_up args "tar --atime-preserve -xjpsf " image2 p with
        | (Raise e, p) => (Raise e, p)
        | (Ok image2, p) =>
        match Program.root image1, Program.root image2 with
        | Some root1, Some root2 =>
            let w := Program.pr_world p in
            match main args root1 root2 (host_tree w root1) (host_tree w root2) w with
            | (Raise e, st) => (Raise (Program.ZeroDivision e), Program.reported st p)
            | (Ok ret, st) =>
                (Ok ret,
                 Program.clean_up image2
                   (Program.clean_up image1
                      (Program.close_output args (Program.reported st p))))
            end
        | _, _ => (Raise Program.AttributeError, p)
        end
        end end).
Proof.
  unfold checked, Program.main.
  destruct (open_output_silent (Program.settled args) (Program.mkProcess w [] []))
    as [[c1 (_ & _ & W1)] _].
  destruct (Program.open_output _ _) as [[[]|e1] p1]; [|discriminate].
  destruct (require_diffoscope_cases (Program.settled args) p1)
    as [[_ [c2 (_ & _ & W2)]] | (R2 & _)];
    destruct (Program.require_diffoscope _ p1) as [[[]|e2] p2];
    try discriminate; intros [= <-].
  split; [|reflexivity]. simpl in *. now rewrite W2, W1.
Qed.

(** X24: when both images are directories, [main] compares them where they
    are: its value, its report and the state it leaves the system in are
    those of the comparison of lines 113-198 run on the two paths and on
    what is on disk there, and beyond the comparison it only tests the
    two paths and closes the output file.  Nothing is unpacked and no
    temporary directory is made. *)
Theorem directories_are_compared_where_they_are {OS : Os} {HOST : Host OS}
        (args : Args) (w : world) (p0 : Program.process) :
  checked args w = Some p0 ->
  host_isdir (Program.pr_world p0) (fst (args_images args)) = true ->
  host_isdir (Program.pr_world p0) (snd (args_images args)) = true ->
  let w0 := Program.pr_world p0 in
  let image1 := fst (args_images args) in
  let image2 := snd (args_images args) in
  let tail := main (Program.settled args) image1 image2
                   (host_tree w0 image1) (host_tree w0 image2) w0 in
  let run := Program.main args w in
  fst run = (match fst tail with
             | Ok ret => Ok ret
             | Raise e => Raise (Program.ZeroDivision e)
             end)
  /\ Program.pr_written (snd run) = map as_message (st_written (snd tail))
  /\ Program.pr_world (snd run) = os_world (st_os (snd tail))
  /\ Program.pr_calls (snd run)
     = Program.pr_calls p0
       ++ [Program.CallIsdir image1; Program.CallIsdir image2]
       ++ map Program.CallSys (os_trace (st_os (snd tail)))
       ++ (match fst tail, Program.output_file args with
           | Ok _, Some _ => [Program.CallClose]
           | _, _ => []
           end).
Proof.
  intros Hchecked H1 H2 w0 image1 image2 tail run. subst run tail image1 image2 w0.
  destruct (checked_silent args w p0 Hchecked) as [W0 ->]. cbv zeta.
  unfold Program.set_up. simpl. rewrite H1. simpl. rewrite H2. simpl.
  destruct (main _ _ _ _ _ _) as [[ret|e] st]; simpl.
  - unfold Program.close_output, Program.clean_up. simpl.
    destruct (Program.output_file args); simpl; rewrite W0, <- ?app_assoc; simpl;
      repeat split; now rewrite ?app_nil_r.
  - rewrite W0, <- ?app_assoc. simpl. repeat split. now rewrite app_nil_r.
Qed.

Lemma directories_are_compared_where_they_are_witness :
  let args := Example.without_stats in
  let w := Example.files_on_disk in
  let p0 := Program.mkProcess (OS := Toy.os) w [] [] in
  checked (HOST := ToyHost.host) args w = Some p0
  /\ host_isdir (Host := ToyHost.host) w "A" = true
  /\ host_isdir (Host := ToyHost.host) w "B" = true
  /\ fst (Program.main (HOST := ToyHost.host) args w) = Ok 1
  /\ Program.pr_written (snd (Program.main (HOST := ToyHost.host) args w))
     = [(Stdout, Program.Report (MissingFile "." "b.txt" "A" "B"))].
Proof.
  intros args w p0.
  assert (H0 : checked (HOST := ToyHost.host) args w = Some p0) by reflexivity.
  assert (H1 : host_isdir (Host := ToyHost.host) w "A" = true) by reflexivity.
  assert (H2 : host_isdir (Host := ToyHost.host) w "B" = true) by reflexivity.
  split; [exact H0|]. split; [exact H1|]. split; [exact H2|].
  destruct (directories_are_compared_where_they_are (HOST := ToyHost.host)
              args w p0 H0 H1 H2) as (E & W & _).
  split; [exact E | exact W].
Defined.

Lemma set_up_unusable {OS : Os} {HOST : Host OS} (args : Args) (unpack : string)
      (img : Program.Image) (p : Program.process) :
  unusable (Program.pr_world p) (Program.image img) ->
  (fst (Program.set_up args unpack img p) = Raise Program.OSError
   \/ fst (Program.set_up args unpack img p) = Ok img)
  /\ Program.pr_written (snd (Program.set_up args unpack img p)) = Program.pr_written p.
Proof.
  intros [Hdir Htar]. unfold Program.set_up. simpl. rewrite Hdir.
  destruct (host_is_tarfile (Program.pr_world p) (Program.image img)) as [[|]|];
    [congruence| |]; simpl; auto.
Qed.

Lemma set_up_directory {OS : Os} {HOST : Host OS} (args : Args) (unpack : string)
      (img : Program.Image) (p : Program.process) :
  host_isdir (Program.pr_world p) (Program.image img) = true ->
  Program.set_up args unpack img p
  = (Ok (Program.mkImage (Program.image img) (Some (Program.image img))
                         (Program.files img) (Program.tmp_dir img)),
     Program.called (Program.CallIsdir (Program.image img)) p).
Proof. intros H. unfold Program.set_up. simpl. now rewrite H. Qed.

(** X25: a path that is neither a directory nor an archive is no image.
    The set-up leaves its [root] unset without a word, and the process
    ends with a traceback and status 1, having reported nothing: the
    first use of the root is the [rstrip] of [get_contents].  So it is
    for the first image, whatever the second is, and for the second when
    the first is a directory. *)
Theorem what_is_no_image_ends_in_a_traceback {OS : Os} {HOST : Host OS}
        (args : Args) (w : world) (p0 : Program.process) :
  checked args w = Some p0 ->
  unusable (Program.pr_world p0) (fst (args_images args))
  \/ (host_isdir (Program.pr_world p0) (fst (args_images args)) = true
      /\ unusable (Program.pr_world p0) (snd (args_images args))) ->
  fst (Program.script args w) = (1, true)
  /\ Program.pr_written (snd (Program.script args w)) = [].
Proof.
  intros Hchecked Hbad. unfold Program.script.
  destruct (checked_silent args w p0 Hchecked) as [W0 ->]. cbv zeta.
  set (image1 := Program.mkImage (fst (args_images (Program.settled args))) None None None).
  set (image2 := Program.mkImage (snd (args_images (Program.settled args))) None None None).
  destruct Hbad as [Hbad | [Hdir Hbad]].
  - destruct (set_up_unusable (Program.settled args) "tar --atime-preserve -xjsf "
                image1 p0 Hbad) as [R1 W1].
    destruct (Program.set_up _ _ image1 p0) as [r1 p1]. simpl in R1, W1.
    destruct R1 as [-> | ->]; [simpl; rewrite W1, W0; auto|].
    destruct (set_up_silent (Program.settled args) "tar --atime-preserve -xjpsf "
                image2 p1 (fun rest => eq_refl)) as [[c (_ & _ & W2)] R2].
    destruct (Program.set_up _ _ image2 p1) as [r2 p2]. simpl in R2, W2.
    destruct R2 as [-> | [img ->]]; simpl; rewrite W2, W1, W0; auto.
  - rewrite (set_up_directory _ _ image1 p0 Hdir).
    destruct (set_up_unusable (Program.settled args) "tar --atime-preserve -xjpsf "
                image2 (Program.called (Program.CallIsdir (Program.image image1)) p0)
                Hbad) as [R2 W2].
    destruct (Program.set_up _ _ image2 _) as [r2 p2]. simpl in R2, W2.
    destruct R2 as [-> | ->]; simpl; rewrite W2, W0; auto.
Qed.

Lemma what_is_no_image_ends_in_a_traceback_witness :
  let args := mkArgs ("A/a.txt", "B") false None false false in
  let w := Example.files_on_disk in
  let p0 := Program.mkProcess (OS := Toy.os) w [] [] in
  checked (HOST := ToyHost.host) args w = Some p0
  /\ unusable (HOST := ToyHost.host) w "A/a.txt"
  /\ fst (Program.script (HOST := ToyHost.host) args w) = (1, true)
  /\ Program.pr_written (snd (Program.script (HOST := ToyHost.host) args w)) = [].
Proof.
  intros args w p0.
  assert (H0 : checked (HOST := ToyHost.host) args w = Some p0) by reflexivity.
  assert (H1 : unusable (HOST := ToyHost.host) w "A/a.txt")
    by (split; [reflexivity | discriminate]).
  split; [exact H0|]. split; [exact H1|].
  exact (what_is_no_image_ends_in_a_traceback (HOST := ToyHost.host) args w p0 H0
           (or_introl H1)).
Defined.
